(** * Temperature converter: a shallow embedding of [temperature_converter.py]

    The Python program converts between Celsius and Fahrenheit, checks the
    input against fixed bounds and drives both from a console menu.  Python's
    [float] is IEEE 754 binary64; it is modelled with the Standard Library's
    [spec_float] (precision 53, [emax] 1024), whose operations compute inside
    the kernel.  The arithmetic of the two conversion functions is written
    once over an interface of Python numbers and read at binary64 (what the
    shell passes) and at exact rationals (what [fractions.Fraction] gives).

    Layout: the embedding first (numbers, text built-ins, the converter, the
    console monad, the application), then the theorems. *)

From Stdlib Require Import ZArith QArith Qabs Qpower List String Ascii Bool Lia Lqa.
From Stdlib Require Import SpecFloat DecimalString.
Import ListNotations.

Local Open Scope Z_scope.

(* ================================================================== *)
(** * Binary64 numbers *)
(* ================================================================== *)

Module Binary64.

Definition prec : Z := 53.
Definition emax : Z := 1024.

(** A Python [float].  Every value the interpreter produces satisfies
    [valid]. *)
Definition float : Type := spec_float.

Definition valid (x : float) : bool := valid_binary prec emax x.

Definition add : float -> float -> float := SFadd prec emax.
Definition sub : float -> float -> float := SFsub prec emax.
Definition mul : float -> float -> float := SFmul prec emax.
Definition div : float -> float -> float := SFdiv prec emax.
Definition opp : float -> float := SFopp.
Definition ltb : float -> float -> bool := SFltb.
Definition gtb (x y : float) : bool := SFltb y x.

(** [float(n)] for a Python [int] (the literals 9, 5, 32 and 1000 of the
    program are converted exactly). *)
Definition of_int (n : Z) : float := binary_normalize prec emax n 0 false.

(** The binary64 number nearest to [n/d] (ties to even), with sign [s]. *)
Definition of_ratio (s : bool) (n d : positive) : float :=
  let '(mz, ez, lz) := SFdiv_core_binary prec emax (Zpos n) 0 (Zpos d) 0 in
  binary_round_aux prec emax s mz ez lz.

Definition is_finite (x : float) : bool :=
  match x with
  | S754_zero _ | S754_finite _ _ _ => true
  | S754_infinity _ | S754_nan => false
  end.

Definition eq_dec (x y : float) : {x = y} + {x <> y}.
Proof.
  decide equality;
    try apply Z.eq_dec; try apply Pos.eq_dec; apply Bool.bool_dec.
Defined.

Definition same (x y : float) : bool := if eq_dec x y then true else false.

(** The largest finite binary64 number, [sys.float_info.max]. *)
Definition max_float : float := SFmax_float prec emax.

(** ** The numbers floats stand for *)

(** [m * 2^e] *)
Definition F2Q (m e : Z) : Q := (inject_Z m * 2 ^ e)%Q.

(** The rational number a finite float stands for ([0] for the others). *)
Definition to_Q (x : float) : Q :=
  match x with
  | S754_finite s m e => F2Q (if s then Zneg m else Zpos m) e
  | _ => 0%Q
  end.

(** A float as an extended real. *)
Inductive xreal : Type :=
| Real (q : Q)
| PInf
| NInf
| NaN.

Definition view (x : float) : xreal :=
  match x with
  | S754_nan => NaN
  | S754_infinity s => if s then NInf else PInf
  | _ => Real (to_Q x)
  end.

(** The order of the extended reals; nothing is below or above [NaN]. *)
Definition xlt (a b : xreal) : Prop :=
  match a, b with
  | Real p, Real q => (p < q)%Q
  | NInf, Real _ | NInf, PInf | Real _, PInf => True
  | _, _ => False
  end.

Definition sgnQ (s : bool) : Q := if s then (-1)%Q else 1%Q.

(** [x] is finite and its exponent is at most [B]. *)
Definition fin_exp (x : float) (B : Z) : Prop :=
  match x with
  | S754_zero _ => True
  | S754_finite _ _ e => e <= B
  | _ => False
  end.

End Binary64.

Abbreviation float := Binary64.float.

(* ================================================================== *)
(** * Python built-ins on text *)
(* ================================================================== *)

(** [strip], [int] and [float] below are those of Python on ASCII text
    ([is_ascii]).  Python's also know the white space and the decimal digits
    of Unicode beyond ASCII, which are not modelled: statements about lines
    that the program reads and refuses assume ASCII lines.  The program's own
    messages may hold other bytes (the degree sign), which these functions
    never inspect. *)
Module Py.

Definition newline : string := String "010"%char EmptyString.

(** ** [str.strip] *)

Definition is_space (c : ascii) : bool :=
  let n := Z.of_nat (nat_of_ascii c) in
  ((9 <=? n) && (n <=? 13)) || ((28 <=? n) && (n <=? 32)).

Fixpoint lstrip (s : string) : string :=
  match s with
  | String c s' => if is_space c then lstrip s' else s
  | EmptyString => EmptyString
  end.

Definition reverse (s : string) : string :=
  string_of_list_ascii (List.rev (list_ascii_of_string s)).

Definition rstrip (s : string) : string := reverse (lstrip (reverse s)).

Definition strip (s : string) : string := rstrip (lstrip s).

(** ** Decimal digits *)

Definition is_digit (c : ascii) : bool :=
  let n := Z.of_nat (nat_of_ascii c) in (48 <=? n) && (n <=? 57).

Definition digit_value (c : ascii) : Z := Z.of_nat (nat_of_ascii c) - 48.

(** Reads the longest prefix [digit (["_"] digit)*] of [s], continuing the
    number [acc]; returns the number, how many digits were read and what
    is left.  An underscore counts only between two digits. *)
Fixpoint scan_digits (s : string) (acc : Z) (n : nat) : Z * nat * string :=
  match s with
  | String c s' =>
      if is_digit c then scan_digits s' (10 * acc + digit_value c) (S n)
      else if Ascii.eqb c "_" && negb (Nat.eqb n 0) then
        match s' with
        | String d _ => if is_digit d then scan_digits s' acc n else (acc, n, s)
        | EmptyString => (acc, n, s)
        end
      else (acc, n, s)
  | EmptyString => (acc, n, s)
  end.

(** Splits an optional leading sign off: [true] for ["-"]. *)
Definition take_sign (s : string) : bool * string :=
  match s with
  | String "-" s' => (true, s')
  | String "+" s' => (false, s')
  | _ => (false, s)
  end.

(** ** [int(s)] in base 10: [None] stands for [ValueError]. *)

Definition int_of_string (s0 : string) : option Z :=
  let '(neg, s) := take_sign (strip s0) in
  match scan_digits s 0 0 with
  | (v, S _, EmptyString) => Some (if neg then - v else v)
  | _ => None
  end.

(** ** [float(s)]: [None] stands for [ValueError]. *)

Definition lower_char (c : ascii) : ascii :=
  let n := nat_of_ascii c in
  if Nat.leb 65 n && Nat.leb n 90 then ascii_of_nat (n + 32) else c.

Fixpoint lower (s : string) : string :=
  match s with
  | String c s' => String (lower_char c) (lower s')
  | EmptyString => EmptyString
  end.

(** The binary64 number nearest to [m * 10^e10] for [0 <= m < 10^nd].
    Beyond [10^400] the result is an infinity and below [10^-400] a zero,
    whatever the digits, so the powers of ten that are computed stay
    small. *)
Definition decimal (neg : bool) (m : Z) (nd : nat) (e10 : Z) : float :=
  match m with
  | Zpos p =>
      if 400 <? e10 then S754_infinity neg
      else if e10 + Z.of_nat nd <? -400 then S754_zero neg
      else if 0 <=? e10 then
        Binary64.of_ratio neg (p * Z.to_pos (10 ^ e10)) 1
      else Binary64.of_ratio neg p (Z.to_pos (10 ^ (- e10)))
  | _ => S754_zero neg
  end.

Definition float_of_string (s0 : string) : option float :=
  let '(neg, s) := take_sign (strip s0) in
  let l := lower s in
  if String.eqb l "inf" || String.eqb l "infinity" then
    Some (S754_infinity neg)
  else if String.eqb l "nan" then Some S754_nan
  else
    let '(ip, ni, r1) := scan_digits s 0 0 in
    let '(m, nf, r2) :=
      match r1 with
      | String "." r => scan_digits r ip 0
      | _ => (ip, O, r1)
      end in
    match (ni + nf)%nat with
    | O => None
    | S _ =>
        match r2 with
        | EmptyString => Some (decimal neg m (ni + nf) (- Z.of_nat nf))
        | String c r3 =>
            if Ascii.eqb (lower_char c) "e" then
              let '(eneg, r4) := take_sign r3 in
              match scan_digits r4 0 0 with
              | (ev, S _, EmptyString) =>
                  Some (decimal neg m (ni + nf)
                          ((if eneg then - ev else ev) - Z.of_nat nf))
              | _ => None
              end
            else None
        end
    end.

(** ** Printing integers *)

Definition str_nat (n : Z) : string :=
  NilZero.string_of_uint (N.to_uint (Z.to_N n)).

Definition str_int (n : Z) : string :=
  NilZero.string_of_int (Z.to_int n).

Fixpoint zeros (n : nat) : string :=
  match n with
  | O => EmptyString
  | S n' => String "0" (zeros n')
  end.

(** [n] in decimal, padded on the left with zeros to [w] characters. *)
Definition pad_left (w : nat) (n : Z) : string :=
  let s := str_nat n in (zeros (w - String.length s) ++ s)%string.

(** ** Rounding a rational to an integer, ties to even *)

Definition round_half_even (p : Z) (q : positive) : Z :=
  let '(d, r) := Z.div_eucl p (Zpos q) in
  match 2 * r ?= Zpos q with
  | Lt => d
  | Gt => d + 1
  | Eq => if Z.even d then d else d + 1
  end.

(** ** [format(x, '.2f')] *)

Definition sign_str (s : bool) : string :=
  if s then "-"%string else ""%string.

Definition format_2f (x : float) : string :=
  match x with
  | S754_nan => "nan"
  | S754_infinity s => (sign_str s ++ "inf")%string
  | S754_zero s => (sign_str s ++ "0.00")%string
  | S754_finite s m e =>
      let n :=
        match e with
        | Zneg k => round_half_even (Zpos m * 100) (Pos.pow 2 k)
        | _ => Zpos m * 100 * 2 ^ e
        end in
      (sign_str s ++ str_nat (n / 100) ++ "." ++ pad_left 2 (n mod 100))%string
  end.

(** ** [str(x)] and [repr(x)] of a float

    The shortest decimal numeral that reads back as [x]; among several of
    that length the one nearest to [x].  Fixed notation when the decimal
    point falls within the first sixteen digits or at most three zeros
    follow it, scientific notation otherwise. *)

(** For [0 < p/q < 1]: the least [j >= 1] with [p * 10^j >= q]. *)
Fixpoint leading_zeros (fuel : nat) (p q : Z) (j : Z) : Z :=
  match fuel with
  | O => j
  | S fuel' => if q <=? p * 10 then j else leading_zeros fuel' (p * 10) q (j + 1)
  end.

(** The [k] with [10^(k-1) <= p/q < 10^k]. *)
Definition decimal_point (p q : Z) : Z :=
  if q <=? p then Z.of_nat (String.length (str_nat (p / q)))
  else 1 - leading_zeros 400 p q 1.

(** [p/q] scaled by [10^s]. *)
Definition scale10 (p q : Z) (s : Z) : Z * Z :=
  if 0 <=? s then (p * 10 ^ s, q) else (p, q * 10 ^ (- s)).

(** The digits and the decimal exponent of the shortest numeral of
    [x = p/q], trying [nd], [nd + 1], ... significant digits. *)
Fixpoint shortest (fuel : nat) (x : float) (p q k : Z) (nd : nat) : Z * Z :=
  let e10 := k - Z.of_nat nd in
  let '(P, Qd) := scale10 p q (- e10) in
  let lo := P / Qd in
  let hi := lo + 1 in
  let reads c := Binary64.same (decimal false c (S nd) e10) x in
  match fuel with
  | O => (round_half_even P (Z.to_pos Qd), e10)
  | S fuel' =>
      match reads lo, reads hi with
      | true, true => (round_half_even P (Z.to_pos Qd), e10)
      | true, false => (lo, e10)
      | false, true => (hi, e10)
      | false, false => shortest fuel' x p q k (S nd)
      end
  end.

Fixpoint strip_zeros_rev (l : list ascii) : list ascii :=
  match l with
  | c :: l' => if Ascii.eqb c "0" then strip_zeros_rev l' else l
  | [] => []
  end.

Definition strip_trailing_zeros (s : string) : string :=
  string_of_list_ascii (List.rev (strip_zeros_rev (List.rev (list_ascii_of_string s)))).

Definition float_str (x : float) : string :=
  match x with
  | S754_nan => "nan"
  | S754_infinity s => (sign_str s ++ "inf")%string
  | S754_zero s => (sign_str s ++ "0.0")%string
  | S754_finite s m e =>
      let '(p, q) :=
        match e with
        | Zneg k => (Zpos m, Zpos (Pos.pow 2 k))
        | _ => (Zpos m * 2 ^ e, 1)
        end in
      let k := decimal_point p q in
      let '(c, e10) := shortest 16 (S754_finite false m e) p q k 1 in
      let all := str_nat c in
      let decpt := e10 + Z.of_nat (String.length all) in
      let ds := strip_trailing_zeros all in
      let n := Z.of_nat (String.length ds) in
      let nds := String.length ds in
      let frac := if 1 <? n then ("." ++ substring 1 (nds - 1) ds)%string
                  else ""%string in
      let esign := if decpt - 1 <? 0 then "-"%string else "+"%string in
      let body :=
        if (decpt <=? -4) || (16 <? decpt) then
          (substring 0 1 ds ++ frac ++ "e" ++ esign
           ++ pad_left 2 (Z.abs (decpt - 1)))%string
        else if decpt <=? 0 then
          ("0." ++ zeros (Z.to_nat (- decpt)) ++ ds)%string
        else if decpt <? n then
          (substring 0 (Z.to_nat decpt) ds ++ "."
           ++ substring (Z.to_nat decpt) (nds - Z.to_nat decpt) ds)%string
        else (ds ++ zeros (Z.to_nat (decpt - n)) ++ ".0")%string in
      (sign_str s ++ body)%string
  end.

(** ** ASCII text *)

Definition is_ascii (s : string) : bool :=
  List.forallb (fun c => Nat.ltb (nat_of_ascii c) 128) (list_ascii_of_string s).

End Py.

(* ================================================================== *)
(** * Python numbers *)
(* ================================================================== *)

(** The conversion formulas use [*], [/], [+] and [-] with [int] literals on
    whatever number they are handed.  [num_of_int] is the coercion Python applies
    to the literal operand. *)
Class PyNumber (N : Type) : Type := {
  num_of_int : Z -> N;
  num_add : N -> N -> N;
  num_sub : N -> N -> N;
  num_mul : N -> N -> N;
  num_truediv : N -> N -> N
}.

(** [float]: IEEE 754 binary64, each operation rounded to nearest even. *)
#[export] Instance PyNumber_float : PyNumber float := {|
  num_of_int := Binary64.of_int;
  num_add := Binary64.add;
  num_sub := Binary64.sub;
  num_mul := Binary64.mul;
  num_truediv := Binary64.div
|}.

(** [fractions.Fraction]: exact rationals (the divisors of the program are
    the non-zero literals 5 and 9). *)
#[export] Instance PyNumber_Q : PyNumber Q := {|
  num_of_int := inject_Z;
  num_add := Qplus;
  num_sub := Qminus;
  num_mul := Qmult;
  num_truediv := Qdiv
|}.

Declare Scope py_scope.
Delimit Scope py_scope with py.
Infix "+" := num_add : py_scope.
Infix "-" := num_sub : py_scope.
Infix "*" := num_mul : py_scope.
Infix "/" := num_truediv : py_scope.

(* ================================================================== *)
(** * Exceptions *)
(* ================================================================== *)

Inductive exn : Type :=
| TemperatureConversionError (msg : string)
| ValueError (msg : string)
| EOFError
| KeyboardInterrupt
| SystemExit (code : Z).

(** [isinstance(e, Exception)]: [KeyboardInterrupt] and [SystemExit] derive
    from [BaseException] only. *)
Definition is_Exception (e : exn) : bool :=
  match e with
  | KeyboardInterrupt | SystemExit _ => false
  | _ => true
  end.

(** [str(e)] *)
Definition exn_str (e : exn) : string :=
  match e with
  | TemperatureConversionError msg => msg
  | ValueError msg => msg
  | EOFError => "EOF when reading a line"
  | KeyboardInterrupt => ""
  | SystemExit code => Py.str_int code
  end.

Inductive result (A : Type) : Type :=
| Ok (a : A)
| Raise (e : exn).
Arguments Ok {A} a.
Arguments Raise {A} e.

(* ================================================================== *)
(** * class TemperatureConverter *)
(* ================================================================== *)

Module TemperatureConverter.

Definition celsius_to_fahrenheit {N : Type} `{PyNumber N} (celsius : N) : N :=
  ((celsius * num_of_int 9 / num_of_int 5) + num_of_int 32)%py.

Definition fahrenheit_to_celsius {N : Type} `{PyNumber N} (fahrenheit : N) : N :=
  ((fahrenheit - num_of_int 32) * num_of_int 5 / num_of_int 9)%py.

(** A float literal of the source text. *)
Definition literal (s : string) : float :=
  match Py.float_of_string s with
  | Some x => x
  | None => S754_nan
  end.

Definition celsius_min : float :=
  Eval vm_compute in Binary64.opp (literal "273.15").
Definition celsius_max : float :=
  Eval vm_compute in Binary64.of_int 1000.
Definition fahrenheit_min : float :=
  Eval vm_compute in Binary64.opp (literal "459.67").
Definition fahrenheit_max : float :=
  Eval vm_compute in Binary64.of_int 1832.

Definition validate_temperature (temp : float) (scale : string) : result unit :=
  if String.eqb scale "C"
     && (Binary64.ltb temp celsius_min || Binary64.gtb temp celsius_max)
  then Raise (TemperatureConversionError
                ("Invalid Celsius temperature: " ++ Py.float_str temp))
  else if String.eqb scale "F"
     && (Binary64.ltb temp fahrenheit_min || Binary64.gtb temp fahrenheit_max)
  then Raise (TemperatureConversionError
                ("Invalid Fahrenheit temperature: " ++ Py.float_str temp))
  else Ok tt.

End TemperatureConverter.

(* ================================================================== *)
(** * The console: standard input, standard output, the logger *)
(* ================================================================== *)

Module Console.

(** What the user does at a prompt: types a line, or presses Ctrl-C while
    the program waits in [input()].  When the list is used up, standard
    input is at end of file. *)
Inductive event : Type :=
| Line (s : string)
| CtrlC.

(** What reaches standard output: [print(s)] writes [s] and a newline,
    [input(prompt)] writes the prompt alone. *)
Inductive output : Type :=
| Printed (s : string)
| Prompted (s : string).

Inductive level : Type := INFO | WARNING | ERROR | CRITICAL.

(** [sigint_at_print = Some n]: an interrupt signal arrives while the
    program runs its [n+1]-th [print] from now, that is, outside
    [input()]. *)
Record world : Type := mkWorld {
  stdin : list event;
  sigint_at_print : option nat;
  stdout : list output;
  log : list (level * string)
}.

(** A computation either finishes, normally or with an exception, in a new
    world, or is cut off ([None]) when a loop has used up its fuel. *)
Definition M (A : Type) : Type := world -> option (result A * world).

Definition ret {A : Type} (a : A) : M A := fun w => Some (Ok a, w).

Definition raise {A : Type} (e : exn) : M A := fun w => Some (Raise e, w).

Definition bind {A B : Type} (m : M A) (k : A -> M B) : M B :=
  fun w =>
    match m w with
    | Some (Ok a, w') => k a w'
    | Some (Raise e, w') => Some (Raise e, w')
    | None => None
    end.

Definition cut_off {A : Type} : M A := fun _ => None.

(** [try: body / except ...:]: [handler e] is the clause that matches [e],
    if one does. *)
Definition try_except {A : Type} (body : M A) (handler : exn -> option (M A)) : M A :=
  fun w =>
    match body w with
    | Some (Raise e, w') =>
        match handler e with
        | Some h => h w'
        | None => Some (Raise e, w')
        end
    | r => r
    end.

Definition lift {A : Type} (r : result A) : M A := fun w => Some (r, w).

Definition write (o : output) (w : world) : world :=
  mkWorld (stdin w) (sigint_at_print w) (stdout w ++ [o]) (log w).

Definition print (s : string) : M unit :=
  fun w =>
    match sigint_at_print w with
    | Some O =>
        Some (Raise KeyboardInterrupt, mkWorld (stdin w) None (stdout w) (log w))
    | Some (S n) =>
        Some (Ok tt, write (Printed s) (mkWorld (stdin w) (Some n) (stdout w) (log w)))
    | None => Some (Ok tt, write (Printed s) w)
    end.

Definition input (prompt : string) : M string :=
  fun w =>
    let w' := write (Prompted prompt) w in
    match stdin w' with
    | Line s :: rest =>
        Some (Ok s, mkWorld rest (sigint_at_print w') (stdout w') (log w'))
    | CtrlC :: rest =>
        Some (Raise KeyboardInterrupt,
              mkWorld rest (sigint_at_print w') (stdout w') (log w'))
    | [] => Some (Raise EOFError, w')
    end.

Definition logger (l : level) (msg : string) : M unit :=
  fun w =>
    Some (Ok tt, mkWorld (stdin w) (sigint_at_print w) (stdout w) (log w ++ [(l, msg)])).

Definition sys_exit {A : Type} (code : Z) : M A := raise (SystemExit code).

(** [while True:] with a body that gives [Some v] when it leaves the loop
    with [v] ([return], [break]) and [None] when control reaches its end. *)
Fixpoint while_true {A : Type} (body : M (option A)) (fuel : nat) : M A :=
  match fuel with
  | O => cut_off
  | S fuel' =>
      bind body (fun r =>
        match r with
        | Some v => ret v
        | None => while_true body fuel'
        end)
  end.

(** Enough fuel for a loop that reads at least one line each time round. *)
Definition with_fuel {A : Type} (loop : nat -> M A) : M A :=
  fun w => loop (S (List.length (stdin w))) w.

End Console.

Declare Scope console_scope.
Delimit Scope console_scope with console.
Notation "x <- m ;; k" := (Console.bind m (fun x => k))
  (at level 61, m at next level, right associativity) : console_scope.
Notation "m ;; k" := (Console.bind m (fun _ => k))
  (at level 61, right associativity) : console_scope.

(* ================================================================== *)
(** * class TemperatureConverterApp *)
(* ================================================================== *)

Module TemperatureConverterApp.

Import Console.
Local Open Scope console_scope.
Local Open Scope string_scope.

(** [float(s)] and [int(s)] as the program calls them.  The message of the
    [ValueError] quotes the text; no handler of the program prints it. *)
Definition float_ (s : string) : M float :=
  match Py.float_of_string s with
  | Some x => ret x
  | None => raise (ValueError ("could not convert string to float: '" ++ s ++ "'"))
  end.

Definition int_ (s : string) : M Z :=
  match Py.int_of_string s with
  | Some n => ret n
  | None => raise (ValueError ("invalid literal for int() with base 10: '" ++ s ++ "'"))
  end.

Definition display_menu : M unit :=
  print (Py.newline ++ "--- Temperature Converter ---") ;;
  print "1. Celsius to Fahrenheit" ;;
  print "2. Fahrenheit to Celsius" ;;
  print "3. Exit".

(** The body of the loop of [get_valid_numeric_input]. *)
Definition numeric_input_body (prompt : string) : M (option float) :=
  try_except
    (s <- input prompt ;;
     value <- float_ (Py.strip s) ;;
     ret (Some value))
    (fun e =>
       match e with
       | ValueError _ =>
           Some (print "Error: Please enter a valid number." ;;
                 ret None)
       | KeyboardInterrupt =>
           Some (logger WARNING "Input interrupted by user" ;;
                 print (Py.newline ++ "Operation cancelled.") ;;
                 sys_exit 1)
       | _ => None
       end).

Definition get_valid_numeric_input (prompt : string) : M float :=
  with_fuel (while_true (numeric_input_body prompt)).

Definition menu_prompt : string := "Enter your choice (1-3): ".

(** The body of the loop of [get_valid_menu_choice]. *)
Definition menu_choice_body : M (option Z) :=
  try_except
    (s <- input menu_prompt ;;
     choice <- int_ (Py.strip s) ;;
     if (1 <=? choice)%Z && (choice <=? 3)%Z then ret (Some choice)
     else
       print "Invalid choice. Please select 1, 2, or 3." ;;
       ret None)
    (fun e =>
       match e with
       | ValueError _ =>
           Some (print "Error: Please enter a number between 1 and 3." ;;
                 ret None)
       | KeyboardInterrupt =>
           Some (logger WARNING "Menu selection interrupted" ;;
                 print (Py.newline ++ "Operation cancelled.") ;;
                 sys_exit 1)
       | _ => None
       end).

Definition get_valid_menu_choice : M Z :=
  with_fuel (while_true menu_choice_body).

(** The body of the inner [try] of [run]. *)
Definition convert (choice : Z) : M unit :=
  if (choice =? 1)%Z then
    celsius <- get_valid_numeric_input "Enter temperature in Celsius: " ;;
    lift (TemperatureConverter.validate_temperature celsius "C") ;;
    let fahrenheit := TemperatureConverter.celsius_to_fahrenheit celsius in
    print (Py.format_2f celsius ++ "°C = " ++ Py.format_2f fahrenheit ++ "°F") ;;
    logger INFO ("Converted " ++ Py.float_str celsius ++ "°C to "
                 ++ Py.float_str fahrenheit ++ "°F")
  else if (choice =? 2)%Z then
    fahrenheit <- get_valid_numeric_input "Enter temperature in Fahrenheit: " ;;
    lift (TemperatureConverter.validate_temperature fahrenheit "F") ;;
    let celsius := TemperatureConverter.fahrenheit_to_celsius fahrenheit in
    print (Py.format_2f fahrenheit ++ "°F = " ++ Py.format_2f celsius ++ "°C") ;;
    logger INFO ("Converted " ++ Py.float_str fahrenheit ++ "°F to "
                 ++ Py.float_str celsius ++ "°C")
  else ret tt.

Definition goodbye : string :=
  "Thank you for using Temperature Converter. Goodbye!".

(** The handlers of the inner [try] of [run]. *)
Definition conversion_handler (e : exn) : option (M unit) :=
  match e with
  | TemperatureConversionError _ =>
      Some (print ("Conversion Error: " ++ exn_str e) ;;
            logger ERROR ("Temperature conversion error: " ++ exn_str e))
  | _ =>
      if is_Exception e then
        Some (print ("An unexpected error occurred: " ++ exn_str e) ;;
              logger ERROR ("Unexpected error: " ++ exn_str e))
      else None
  end.

(** The body of the loop of [run]: [Some tt] is the [break]. *)
Definition run_body : M (option unit) :=
  display_menu ;;
  choice <- get_valid_menu_choice ;;
  if (choice =? 3)%Z then
    print goodbye ;;
    ret (Some tt)
  else
    try_except (convert choice) conversion_handler ;;
    ret None.

(** The [while True] loop of [run]. *)
Definition run_loop : M unit := with_fuel (while_true run_body).

Definition run : M unit :=
  try_except run_loop
    (fun e =>
       match e with
       | KeyboardInterrupt =>
           Some (print (Py.newline ++ "Application terminated by user.") ;;
                 sys_exit 0)
       | _ => None
       end).

(** [main].  Its logging set-up sends every record to a file and, with a
    time stamp, to standard output; here the records are kept apart, in
    [log], and [stdout] holds what [print] and [input] write. *)
Definition main : M unit :=
  try_except run
    (fun e =>
       if is_Exception e then
         Some (logger CRITICAL ("Critical error in application: " ++ exn_str e) ;;
               sys_exit 1)
       else None).

(** How the process ends once [main] is over: by falling off the end
    (status 0), by [SystemExit], by an uncaught exception (traceback,
    status 1) or by the interrupt signal. *)
Inductive status : Type :=
| Exited (code : Z)
| Killed_by_interrupt.

Definition process (w : world) : option (status * world) :=
  match main w with
  | Some (Ok _, w') => Some (Exited 0, w')
  | Some (Raise (SystemExit code), w') => Some (Exited code, w')
  | Some (Raise KeyboardInterrupt, w') => Some (Killed_by_interrupt, w')
  | Some (Raise _, w') => Some (Exited 1, w')
  | None => None
  end.

(** [main] from its first line.  The logging set-up ([logging.basicConfig]
    with a [FileHandler], which opens the log file) runs before the [try];
    [basic_config] is what that call does: it returns, or it raises what
    opening the file raised. *)
Definition main_with_logging (basic_config : M unit) : M unit :=
  basic_config ;; main.

Definition process_from (basic_config : M unit) (w : world) : option (status * world) :=
  match main_with_logging basic_config w with
  | Some (Ok _, w') => Some (Exited 0, w')
  | Some (Raise (SystemExit code), w') => Some (Exited code, w')
  | Some (Raise KeyboardInterrupt, w') => Some (Killed_by_interrupt, w')
  | Some (Raise _, w') => Some (Exited 1, w')
  | None => None
  end.

(** ** Vocabulary of the statements *)

(** A line that the model of [strip], [int] and [float] reads as Python
    does: ASCII text, shorter than the 4300 digits beyond which [int]
    refuses a numeral. *)
Definition plain_line (s : string) : bool :=
  Py.is_ascii s && Nat.ltb (String.length s) 4300.

Definition plain_event (e : event) : bool :=
  match e with
  | Line s => plain_line s
  | CtrlC => true
  end.

(** Every line waiting on standard input is plain. *)
Definition plain_input (w : world) : bool := List.forallb plain_event (stdin w).

Definition cancelled : string := Py.newline ++ "Operation cancelled.".
Definition terminated : string := Py.newline ++ "Application terminated by user.".

(** The four lines of the menu. *)
Definition menu : list output :=
  [Printed (Py.newline ++ "--- Temperature Converter ---");
   Printed "1. Celsius to Fahrenheit";
   Printed "2. Fahrenheit to Celsius";
   Printed "3. Exit"].

(** The menu choice a line stands for, if it is one of 1, 2, 3. *)
Definition menu_choice_of (line : string) : option Z :=
  match Py.int_of_string (Py.strip line) with
  | Some n => if (1 <=? n)%Z && (n <=? 3)%Z then Some n else None
  | None => None
  end.

(** What the console shows for a line that is no menu choice: the prompt
    it answered and the complaint. *)
Definition menu_retry (line : string) : list output :=
  [Prompted menu_prompt;
   Printed (match Py.int_of_string (Py.strip line) with
            | Some _ => "Invalid choice. Please select 1, 2, or 3."
            | None => "Error: Please enter a number between 1 and 3."
            end)].

(** The prompt and the scale letter of a conversion. *)
Definition numeric_prompt (choice : Z) : string :=
  if (choice =? 1)%Z then "Enter temperature in Celsius: "
  else "Enter temperature in Fahrenheit: ".

Definition scale_of (choice : Z) : string :=
  if (choice =? 1)%Z then "C" else "F".

(** The world after more console output and log records. *)
Definition extend (w : world) (events : list event) (out : list output)
    (records : list (level * string)) : world :=
  mkWorld events (sigint_at_print w) (stdout w ++ out) (log w ++ records).

(** A console session: the given events on standard input, nothing
    written yet. *)
Definition session (events : list event) (sigint : option nat) : world :=
  mkWorld events sigint [] [].

Definition typed (lines : list string) : world :=
  session (List.map Line lines) None.

End TemperatureConverterApp.

(* ================================================================== *)
(** * Vocabulary of the proofs about the console *)
(* ================================================================== *)

Module Guarantees.

Import Console TemperatureConverterApp.

(** Standard input is only ever consumed. *)
Definition le_in (w w' : world) : Prop :=
  (List.length (stdin w') <= List.length (stdin w))%nat.

(** A [KeyboardInterrupt] that leaves a part of the program comes from a
    [print], after which no signal is pending; a [SystemExit] carries the
    status 1 and follows the line "Operation cancelled.". *)
Definition exc_ok {A : Type} (r : result A) (w' : world) : Prop :=
  match r with
  | Raise KeyboardInterrupt => sigint_at_print w' = None
  | Raise (SystemExit code) =>
      code = 1 /\ List.last (stdout w') (Prompted "") = Printed cancelled
  | _ => True
  end.

Definition total {A : Type} (m : M A) : Prop := forall w, m w <> None.

Definition sound {A : Type} (m : M A) : Prop :=
  forall w r w', m w = Some (r, w') -> le_in w w' /\ exc_ok r w'.

Definition good {A : Type} (m : M A) : Prop := total m /\ sound m.

(** Standard output is only ever appended to, and [m] begins by writing
    [out]. *)
Definition shows {A : Type} (out : list output) (m : M A) : Prop :=
  forall w r w', m w = Some (r, w') -> exists more, stdout w' = stdout w ++ out ++ more.

End Guarantees.

(* ================================================================== *)
(** * Vocabulary of the further statements *)
(* ================================================================== *)

Module Expected.

Import Console TemperatureConverterApp.

(** What the console shows for a line that is no number: the prompt it
    answered and the complaint. *)
Definition numeric_retry (prompt : string) : list output :=
  [Prompted prompt; Printed "Error: Please enter a valid number."].

(** The line a conversion prints and the record it logs. *)
Definition conversion_line (choice : Z) (v : float) : string :=
  if (choice =? 1)%Z then
    (Py.format_2f v ++ "°C = "
     ++ Py.format_2f (TemperatureConverter.celsius_to_fahrenheit v) ++ "°F")%string
  else
    (Py.format_2f v ++ "°F = "
     ++ Py.format_2f (TemperatureConverter.fahrenheit_to_celsius v) ++ "°C")%string.

Definition conversion_record (choice : Z) (v : float) : string :=
  if (choice =? 1)%Z then
    ("Converted " ++ Py.float_str v ++ "°C to "
     ++ Py.float_str (TemperatureConverter.celsius_to_fahrenheit v) ++ "°F")%string
  else
    ("Converted " ++ Py.float_str v ++ "°F to "
     ++ Py.float_str (TemperatureConverter.fahrenheit_to_celsius v) ++ "°C")%string.

(** The rational [p/q], a number of hundredths, rounded to the nearest
    whole number of hundredths (ties to even) and written with two
    decimals; the sign is that of [p]. *)
Definition two_decimals (p : Z) (q : positive) : string :=
  let n := Py.round_half_even (Z.abs p) q in
  (Py.sign_str (p <? 0)%Z ++ Py.str_nat (n / 100) ++ "."
   ++ Py.pad_left 2 (n mod 100))%string.

End Expected.

(** Replaces the closed powers of two of a hypothesis, or of the goal, by
    their values. *)
Ltac eval_pow2 H :=
  repeat match type of H with
         | context [Qpower 2 ?k] =>
             let v := eval vm_compute in (Qpower 2 k) in
             change (Qpower 2 k) with v in H
         end.

Ltac eval_pow2_goal :=
  repeat match goal with
         | |- context [Qpower 2 ?k] =>
             let v := eval vm_compute in (Qpower 2 k) in
             change (Qpower 2 k) with v
         end.

(** Writes the power of two [2^e] as [P] times a number, when [P] is
    [2^a] and [e] is [a + j] for a closed [j]. *)
Ltac pow2_as P a e j :=
  let v := eval vm_compute in (Qpower 2 j) in
  let H := fresh "Pw" in
  assert (H : Qeq (Qpower 2 e) (Qmult P v))
    by (replace e with (a + j)%Z by lia; unfold P;
        rewrite Qpower_plus by discriminate; reflexivity).

(* ================================================================== *)
(** * Facts about binary64 arithmetic *)
(* ================================================================== *)

Module Binary64Facts.

Import Binary64.

(** ** Powers of two and the value of a mantissa and exponent *)

Lemma pow2_pos (e : Z) : (0 < 2 ^ e)%Q.
Proof. apply Qpower_0_lt. reflexivity. Qed.

Lemma pow2_add (a b : Z) : (2 ^ (a + b) == 2 ^ a * 2 ^ b)%Q.
Proof. apply Qpower_plus. discriminate. Qed.

Lemma pow2_inject (k : Z) : 0 <= k -> (2 ^ k == inject_Z (2 ^ k))%Q.
Proof. intros H. symmetry. apply (Zpower_Qpower 2 k H). Qed.

Lemma F2Q_shift (m e k : Z) : 0 <= k -> (F2Q m (e + k) == F2Q (m * 2 ^ k) e)%Q.
Proof.
  intros Hk. unfold F2Q. rewrite pow2_add, (pow2_inject k Hk), inject_Z_mult. ring.
Qed.

Lemma F2Q_lt (a b e : Z) : a < b <-> (F2Q a e < F2Q b e)%Q.
Proof.
  unfold F2Q. pose proof (pow2_pos e) as Hp. rewrite Zlt_Qlt. split; intros H.
  - apply Qmult_lt_compat_r; assumption.
  - apply Qmult_lt_r in H; assumption.
Qed.

Lemma F2Q_le (a b e : Z) : a <= b <-> (F2Q a e <= F2Q b e)%Q.
Proof.
  unfold F2Q. pose proof (pow2_pos e) as Hp. rewrite Zle_Qle. split; intros H.
  - apply Qmult_le_compat_r; [assumption | apply Qlt_le_weak; assumption].
  - apply Qmult_le_r in H; assumption.
Qed.

Lemma digits2_pos_bounds (m : positive) :
  2 ^ (Zpos (digits2_pos m) - 1) <= Zpos m < 2 ^ Zpos (digits2_pos m).
Proof.
  induction m as [p IH | p IH |]; cbn [digits2_pos].
  - rewrite Pos2Z.inj_succ. replace (Z.succ (Zpos (digits2_pos p)) - 1) with (Z.succ (Zpos (digits2_pos p) - 1)) by lia.
    rewrite !Z.pow_succ_r by lia. lia.
  - rewrite Pos2Z.inj_succ. replace (Z.succ (Zpos (digits2_pos p)) - 1) with (Z.succ (Zpos (digits2_pos p) - 1)) by lia.
    rewrite !Z.pow_succ_r by lia. lia.
  - simpl. lia.
Qed.

Lemma bounded_inv (m : positive) (e : Z) :
  bounded prec emax m e = true ->
  e = Z.max (Zpos (digits2_pos m) + e - 53) (-1074) /\ e <= 971.
Proof.
  unfold bounded, canonical_mantissa, fexp, SpecFloat.emin.
  intros H. apply andb_prop in H. destruct H as [H1 H2].
  apply Z.eqb_eq in H1. apply Z.leb_le in H2. split; [|exact H2].
  symmetry. exact H1.
Qed.

Lemma bounded_lt_exp (m1 m2 : positive) (e1 e2 : Z) :
  bounded prec emax m1 e1 = true -> bounded prec emax m2 e2 = true ->
  e1 < e2 -> (F2Q (Zpos m1) e1 < F2Q (Zpos m2) e2)%Q.
Proof.
  intros H1 H2 Hlt.
  apply bounded_inv in H1, H2. destruct H1 as [H1 _], H2 as [H2 _].
  pose proof (digits2_pos_bounds m1) as B1.
  pose proof (digits2_pos_bounds m2) as B2.
  assert (D1 : Zpos (digits2_pos m1) <= 53) by lia.
  assert (D2 : Zpos (digits2_pos m2) = 53) by lia.
  replace e2 with (e1 + (e2 - e1)) by lia.
  rewrite F2Q_shift by lia. apply F2Q_lt.
  assert (Zpos m1 < 2 ^ 53).
  { eapply Z.lt_le_trans; [apply B1|]. apply Z.pow_le_mono_r; lia. }
  rewrite D2 in B2.
  assert (2 ^ 1 <= 2 ^ (e2 - e1)) by (apply Z.pow_le_mono_r; lia).
  change (2 ^ 53) with (2 ^ 52 * 2 ^ 1) in H. simpl (53 - 1) in B2.
  nia.
Qed.

Lemma F2Q_pos (m : positive) (e : Z) : (0 < F2Q (Zpos m) e)%Q.
Proof.
  unfold F2Q. apply Qmult_lt_0_compat; [reflexivity | apply pow2_pos].
Qed.

Lemma F2Q_neg (m : positive) (e : Z) : (F2Q (Zneg m) e == - F2Q (Zpos m) e)%Q.
Proof. unfold F2Q. change (Zneg m) with (- Zpos m). rewrite inject_Z_opp. ring. Qed.

Lemma compare_spec_pos (m1 m2 : positive) (e1 e2 : Z) :
  bounded prec emax m1 e1 = true -> bounded prec emax m2 e2 = true ->
  match (match Z.compare e1 e2 with
         | Lt => Lt | Gt => Gt | Eq => Pos.compare_cont Eq m1 m2 end) with
  | Lt => (F2Q (Zpos m1) e1 < F2Q (Zpos m2) e2)%Q
  | Eq => m1 = m2 /\ e1 = e2
  | Gt => (F2Q (Zpos m2) e2 < F2Q (Zpos m1) e1)%Q
  end.
Proof.
  intros H1 H2. destruct (Z.compare_spec e1 e2) as [He | He | He].
  - subst e2. change (Pos.compare_cont Eq m1 m2) with (Pos.compare m1 m2).
    destruct (Pos.compare_spec m1 m2) as [Hm | Hm | Hm].
    + split; [assumption | reflexivity].
    + apply F2Q_lt. lia.
    + apply F2Q_lt. lia.
  - apply bounded_lt_exp; assumption.
  - apply bounded_lt_exp; assumption.
Qed.

Lemma ltb_spec (x y : spec_float) :
  valid_binary prec emax x = true -> valid_binary prec emax y = true ->
  (SFltb x y = true <-> xlt (view x) (view y)).
Proof.
  intros Hx Hy. unfold SFltb.
  destruct x as [sx | sx | | sx mx ex], y as [sy | sy | | sy my ey];
    cbn [SFcompare view xlt to_Q valid_binary] in *.
  16: {
    pose proof (F2Q_pos mx ex) as Px. pose proof (F2Q_pos my ey) as Py.
    pose proof (F2Q_neg mx ex) as Nx. pose proof (F2Q_neg my ey) as Ny.
    pose proof (compare_spec_pos mx my ex ey Hx Hy) as C.
    remember (match ex ?= ey with
              | Eq => Pos.compare_cont Eq mx my | Lt => Lt | Gt => Gt end) as c eqn:Ec.
    assert (Eo : match ex ?= ey with
                 | Eq => CompOpp (Pos.compare_cont Eq mx my) | Lt => Gt | Gt => Lt end
                 = CompOpp c).
    { subst c. destruct (ex ?= ey); reflexivity. }
    destruct sx, sy; try rewrite Eo; clear Ec Eo.
    - destruct c; cbn; [destruct C as [-> ->] | |];
        (split; [try discriminate; intros _; lra | try reflexivity; intros HH; exfalso; lra]).
    - split; [intros _; lra | reflexivity].
    - split; [discriminate | intros HH; exfalso; lra].
    - destruct c; cbn; [destruct C as [-> ->] | |];
        (split; [try discriminate; intros _; lra | try reflexivity; intros HH; exfalso; lra]). }
  all: try (destruct sx); try (destruct sy); cbn;
    try (pose proof (F2Q_pos mx ex)); try (pose proof (F2Q_pos my ey));
    try (pose proof (F2Q_neg mx ex)); try (pose proof (F2Q_neg my ey));
    (split; [try discriminate; intros _; try exact I; lra
            | try reflexivity; intros HH; exfalso; try exact HH; lra]).
Qed.

(** ** Rounding *)
Lemma fexp_eq (e : Z) : fexp prec emax e = Z.max (e - 53) (-1074).
Proof. reflexivity. Qed.

Lemma shr_1_m (mrs : shr_record) :
  0 <= shr_m mrs -> shr_m (shr_1 mrs) = shr_m mrs / 2.
Proof.
  destruct mrs as [m r s]. cbn [shr_m shr_1]. intros Hm.
  destruct m as [| [p | p |] | p]; cbn [shr_m]; try lia.
  - reflexivity.
  - apply Z.div_unique with (r := 1); lia.
  - apply Z.div_unique with (r := 0); lia.
  - reflexivity.
Qed.

Lemma iter_pos_shr_m (p : positive) :
  forall mrs, 0 <= shr_m mrs ->
    shr_m (iter_pos shr_1 p mrs) = shr_m mrs / 2 ^ Zpos p.
Proof.
  induction p as [p IH | p IH |]; intros mrs Hm; cbn [iter_pos].
  - assert (H1 : 0 <= shr_m (shr_1 mrs)) by (rewrite shr_1_m by lia; apply Z.div_pos; lia).
    assert (H2 : 0 <= shr_m (iter_pos shr_1 p (shr_1 mrs))).
    { rewrite IH by lia. apply Z.div_pos; [lia | apply Z.pow_pos_nonneg; lia]. }
    rewrite IH, IH, shr_1_m by lia.
    rewrite !Z.div_div by (try apply Z.pow_pos_nonneg; lia).
    f_equal. replace (Zpos p~1) with (1 + Zpos p + Zpos p) by lia.
    rewrite !Z.pow_add_r by lia. lia.
  - assert (H2 : 0 <= shr_m (iter_pos shr_1 p mrs)).
    { rewrite IH by lia. apply Z.div_pos; [lia | apply Z.pow_pos_nonneg; lia]. }
    rewrite IH, IH by lia.
    rewrite !Z.div_div by (try apply Z.pow_pos_nonneg; lia).
    f_equal. replace (Zpos p~0) with (Zpos p + Zpos p) by lia.
    rewrite !Z.pow_add_r by lia. lia.
  - rewrite shr_1_m by lia. reflexivity.
Qed.

Lemma shr_spec (mrs : shr_record) (e n : Z) :
  0 <= shr_m mrs ->
  shr_m (fst (shr mrs e n)) = shr_m mrs / 2 ^ Z.max n 0 /\
  snd (shr mrs e n) = e + Z.max n 0.
Proof.
  intros Hm. destruct n as [| p | p]; cbn [shr fst snd].
  - change (Z.max 0 0) with 0. rewrite Z.div_1_r. lia.
  - rewrite iter_pos_shr_m by lia. replace (Z.max (Zpos p) 0) with (Zpos p) by lia. lia.
  - replace (Z.max (Zneg p) 0) with 0 by lia. rewrite Z.div_1_r. lia.
Qed.

Lemma shr_record_of_loc_m (m : Z) (l : location) : shr_m (shr_record_of_loc m l) = m.
Proof. destruct l as [| []]; reflexivity. Qed.

Lemma shr_fexp_spec (m e : Z) (l : location) :
  0 <= m ->
  let k := Z.max (fexp prec emax (Zdigits2 m + e) - e) 0 in
  shr_m (fst (shr_fexp prec emax m e l)) = m / 2 ^ k /\
  snd (shr_fexp prec emax m e l) = e + k.
Proof.
  intros Hm k. unfold shr_fexp.
  pose proof (shr_spec (shr_record_of_loc m l) e (fexp prec emax (Zdigits2 m + e) - e)) as H.
  rewrite shr_record_of_loc_m in H. apply H. exact Hm.
Qed.

Lemma round_nearest_even_cases (m : Z) (l : location) :
  round_nearest_even m l = m \/ round_nearest_even m l = m + 1.
Proof.
  destruct l as [| []]; cbn; auto. destruct (Z.even m); auto.
Qed.

Lemma Zdigits2_lt (m : Z) : 0 <= m -> m < 2 ^ Zdigits2 m \/ m = 0.
Proof.
  intros Hm. destruct m as [| p | p]; [right; reflexivity | left | lia].
  cbn [Zdigits2]. apply digits2_pos_bounds.
Qed.

Lemma Zdigits2_le (m p : Z) : 0 <= m -> 0 <= p -> m < 2 ^ p -> Zdigits2 m <= p.
Proof.
  intros Hm Hp H. destruct m as [| q | q]; cbn [Zdigits2]; [lia | | lia].
  pose proof (digits2_pos_bounds q) as [B _].
  assert (2 ^ (Zpos (digits2_pos q) - 1) < 2 ^ p) by lia.
  apply Z.pow_lt_mono_r_iff in H0; lia.
Qed.

Lemma Zdigits2_ge (m p : Z) : 0 <= p -> 2 ^ p <= m -> p < Zdigits2 m.
Proof.
  intros Hp H. assert (0 < 2 ^ p) by (apply Z.pow_pos_nonneg; lia).
  destruct m as [| q | q]; cbn [Zdigits2]; [lia | | lia].
  pose proof (digits2_pos_bounds q) as [_ B].
  assert (2 ^ p < 2 ^ Zpos (digits2_pos q)) by lia.
  apply Z.pow_lt_mono_r_iff in H1; lia.
Qed.

(** What [binary_round_aux] returns: the mantissa was cut at the exponent
    [E] and moved by at most one unit there. *)
Lemma binary_round_aux_spec (sx : bool) (mx ex : Z) (lx : location) :
  0 <= mx ->
  let E := Z.max ex (fexp prec emax (Zdigits2 mx + ex)) in
  exists mr : Z,
    mx / 2 ^ (E - ex) <= mr <= mx / 2 ^ (E - ex) + 1 /\
    ((binary_round_aux prec emax sx mx ex lx = S754_infinity sx /\ 971 <= E) \/
     (mr = 0 /\ binary_round_aux prec emax sx mx ex lx = S754_zero sx) \/
     exists (m : positive) (e : Z),
       binary_round_aux prec emax sx mx ex lx = S754_finite sx m e /\
       E <= e <= E + 1 /\ (F2Q (Zpos m) e == F2Q mr E)%Q).
Proof.
  intros Hm E. unfold binary_round_aux.
  pose proof (shr_fexp_spec mx ex lx Hm) as [S1 S2].
  destruct (shr_fexp prec emax mx ex lx) as [mrs' e'] eqn:E1. cbn [fst snd] in S1, S2.
  set (k := Z.max (fexp prec emax (Zdigits2 mx + ex) - ex) 0) in *.
  assert (HE : e' = E) by (unfold E; lia).
  assert (Hk : E - ex = k) by lia. rewrite Hk.
  set (m1 := mx / 2 ^ k) in *.
  assert (Hk0 : 0 <= k) by lia.
  assert (P2k : 0 < 2 ^ k) by (apply Z.pow_pos_nonneg; lia).
  assert (Hm1 : 0 <= m1) by (apply Z.div_pos; lia).
  assert (Hm1lt : m1 < 2 ^ 53).
  { apply Z.div_lt_upper_bound; [lia|].
    destruct (Zdigits2_lt mx Hm) as [Hd | ->]; [| apply Z.mul_pos_pos; lia].
    eapply Z.lt_le_trans; [exact Hd|].
    rewrite <- Z.pow_add_r by lia. apply Z.pow_le_mono_r; [lia|].
    unfold k. rewrite fexp_eq. lia. }
  set (mr := round_nearest_even (shr_m mrs') (loc_of_shr_record mrs')).
  assert (Hmr : m1 <= mr <= m1 + 1).
  { unfold mr. rewrite S1. destruct (round_nearest_even_cases m1 (loc_of_shr_record mrs')) as [-> | ->]; lia. }
  exists mr. split; [exact Hmr|].
  assert (Hmr0 : 0 <= mr) by lia.
  pose proof (shr_fexp_spec mr e' loc_Exact Hmr0) as [T1 T2].
  destruct (shr_fexp prec emax mr e' loc_Exact) as [mrs'' e''] eqn:E2. cbn [fst snd] in T1, T2.
  assert (Hemin : -1074 <= E) by (unfold E; rewrite fexp_eq; lia).
  assert (Hcase : (shr_m mrs'' = mr /\ e'' = E) \/ (mr = 2 ^ 53 /\ shr_m mrs'' = 2 ^ 52 /\ e'' = E + 1)).
  { destruct (Z.eq_dec mr (2 ^ 53)) as [Heq | Hne].
    - right. rewrite Heq in T1, T2. rewrite fexp_eq in T1, T2.
      change (Zdigits2 (2 ^ 53)) with 54 in T1, T2.
      replace (Z.max (Z.max (54 + e' - 53) (-1074) - e') 0) with 1 in T1, T2 by lia.
      split; [exact Heq|]. split; [rewrite T1; reflexivity | lia].
    - left. assert (Hd : Zdigits2 mr <= 53) by (apply Zdigits2_le; lia).
      rewrite fexp_eq in T1, T2.
      replace (Z.max (Z.max (Zdigits2 mr + e' - 53) (-1074) - e') 0) with 0 in T1, T2 by lia.
      rewrite Z.div_1_r in T1. split; [exact T1 | lia]. }
  destruct Hcase as [[Hs He] | [Hmr' [Hs He]]]; rewrite Hs.
  - destruct mr as [| p | p]; [right; left; split; reflexivity | | lia].
    destruct (Z.leb_spec e'' (emax - prec)) as [Hle | Hgt];
      [| left; split; [reflexivity | unfold emax, prec in Hgt; lia]].
    right. right. exists p, e''. split; [reflexivity|]. split; [lia|]. rewrite He. reflexivity.
  - change (2 ^ 52) with (Zpos (2 ^ 52)).
    destruct (Z.leb_spec e'' (emax - prec)) as [Hle | Hgt];
      [| left; split; [reflexivity | unfold emax, prec in Hgt; lia]].
    right. right. exists (2 ^ 52)%positive, e''. split; [reflexivity|]. split; [lia|].
    rewrite He, Hmr'. rewrite F2Q_shift by lia. reflexivity.
Qed.

(** ** Error bounds of the four operations *)
Lemma to_Q_finite (s : bool) (m : positive) (e : Z) :
  (to_Q (S754_finite s m e) == sgnQ s * F2Q (Zpos m) e)%Q.
Proof. cbn [to_Q]. destruct s; cbn [sgnQ]; [rewrite F2Q_neg|]; ring. Qed.

Lemma sgnQ_xorb (a b : bool) : (sgnQ (xorb a b) == sgnQ a * sgnQ b)%Q.
Proof. destruct a, b; reflexivity. Qed.

Lemma pow2_le (a b : Z) : a <= b -> (2 ^ a <= 2 ^ b)%Q.
Proof. intros H. apply Qpower_le_compat_l; [exact H | discriminate]. Qed.

Lemma pow2_lt_inv (a b : Z) : (2 ^ a < 2 ^ b)%Q -> a < b.
Proof. intros H. apply (Qpower_lt_compat_l_inv 2); [exact H | reflexivity]. Qed.

Lemma F2Q_one (e : Z) : (F2Q 1 e == 2 ^ e)%Q.
Proof. unfold F2Q. ring. Qed.

Lemma F2Q_plus (a b e : Z) : (F2Q (a + b) e == F2Q a e + F2Q b e)%Q.
Proof. unfold F2Q. rewrite inject_Z_plus. ring. Qed.

Lemma F2Q_pow (k e : Z) : 0 <= k -> (F2Q (2 ^ k) e == 2 ^ (k + e))%Q.
Proof. intros H. unfold F2Q. rewrite pow2_add, (pow2_inject k H). reflexivity. Qed.

(** A positive number below [2^k] has its last digit below position [k]. *)
Lemma mag_bound (m e k : Z) : 0 <= m -> (F2Q m e < 2 ^ k)%Q -> Zdigits2 m + e <= Z.max k e.
Proof.
  intros Hm H. destruct m as [| p | p]; cbn [Zdigits2]; [lia | | lia].
  pose proof (digits2_pos_bounds p) as [B _].
  assert (H1 : (F2Q (2 ^ (Zpos (digits2_pos p) - 1)) e <= F2Q (Zpos p) e)%Q) by (apply F2Q_le; exact B).
  rewrite F2Q_pow in H1 by lia.
  assert (H2 : (2 ^ (Zpos (digits2_pos p) - 1 + e) < 2 ^ k)%Q) by (eapply Qle_lt_trans; eassumption).
  apply pow2_lt_inv in H2. lia.
Qed.

(** The value [v] lies between two neighbours at the exponent [ex]; after
    rounding, the result is off by at most one unit of the exponent [B]. *)
Lemma round_aux_error (s : bool) (mx ex : Z) (lx : location) (v : Q) (B : Z) :
  0 <= mx ->
  (F2Q mx ex <= v <= F2Q (mx + 1) ex)%Q ->
  Z.max ex (fexp prec emax (Zdigits2 mx + ex)) <= B -> B < 971 ->
  let r := binary_round_aux prec emax s mx ex lx in
  fin_exp r (B + 1) /\
  (sgnQ s * v - 2 ^ B <= to_Q r <= sgnQ s * v + 2 ^ B)%Q.
Proof.
  intros Hm [Hv1 Hv2] HB HB' r.
  destruct (binary_round_aux_spec s mx ex lx Hm) as [mr [Hmr Hres]].
  fold r in Hres.
  set (E := Z.max ex (fexp prec emax (Zdigits2 mx + ex))) in *.
  set (k := E - ex) in *.
  assert (Hk : 0 <= k) by (unfold k, E; lia).
  assert (P2k : 0 < 2 ^ k) by (apply Z.pow_pos_nonneg; lia).
  set (m1 := mx / 2 ^ k) in *.
  assert (Hdiv : m1 * 2 ^ k <= mx < (m1 + 1) * 2 ^ k).
  { unfold m1. pose proof (Z.mul_div_le mx (2 ^ k) P2k).
    pose proof (Z.mul_succ_div_gt mx (2 ^ k) P2k). lia. }
  assert (V1 : (F2Q m1 E <= v)%Q).
  { eapply Qle_trans; [| exact Hv1]. replace E with (ex + k) by (unfold k; lia).
    rewrite F2Q_shift by lia. apply F2Q_le. lia. }
  assert (V2 : (v <= F2Q (m1 + 1) E)%Q).
  { eapply Qle_trans; [exact Hv2 |]. replace E with (ex + k) by (unfold k; lia).
    rewrite F2Q_shift by lia. apply F2Q_le. lia. }
  rewrite F2Q_plus, F2Q_one in V2.
  assert (M1 : (F2Q m1 E <= F2Q mr E <= F2Q m1 E + 2 ^ E)%Q).
  { split; [apply F2Q_le; lia |]. rewrite <- F2Q_one, <- F2Q_plus. apply F2Q_le. lia. }
  pose proof (pow2_le E B HB) as PB. pose proof (pow2_pos E) as PE.
  destruct Hres as [[_ Hinf] | [[Hz Hr] | [m [e [Hr [He Hval]]]]]].
  - lia.
  - rewrite Hr. split; [exact I|]. cbn [to_Q].
    rewrite Hz in M1. assert (Z0 : (F2Q 0 E == 0)%Q) by (unfold F2Q; ring).
    rewrite Z0 in M1. destruct s; cbn [sgnQ]; lra.
  - rewrite Hr. split; [cbn; lia|]. rewrite to_Q_finite, Hval.
    destruct s; cbn [sgnQ]; lra.
Qed.

Lemma F2Q_mult (a b e f : Z) : (F2Q (a * b) (e + f) == F2Q a e * F2Q b f)%Q.
Proof. unfold F2Q. rewrite inject_Z_mult, pow2_add. ring. Qed.

Lemma sgnQ_cases (s : bool) (v : Q) : (sgnQ s * v == v \/ sgnQ s * v == - v)%Q.
Proof. destruct s; cbn [sgnQ]; [right | left]; ring. Qed.

Lemma fexp_le (d B k : Z) : d <= k -> -1021 <= k -> fexp prec emax d <= k - 53.
Proof. intros. rewrite fexp_eq. lia. Qed.

Lemma mul_error (x y : spec_float) (Bx By k : Z) :
  fin_exp x Bx -> fin_exp y By ->
  (- 2 ^ k < to_Q x * to_Q y < 2 ^ k)%Q ->
  Bx + By <= k - 53 -> -1021 <= k <= 1023 ->
  fin_exp (SFmul prec emax x y) (k - 52) /\
  (to_Q x * to_Q y - 2 ^ (k - 53) <= to_Q (SFmul prec emax x y)
   <= to_Q x * to_Q y + 2 ^ (k - 53))%Q.
Proof.
  intros Fx Fy Hv HB Hk. pose proof (pow2_pos (k - 53)) as PB.
  destruct x as [sx | sx | | sx mx ex], y as [sy | sy | | sy my ey];
    cbn [fin_exp] in Fx, Fy; try contradiction;
    cbn [SFmul]; try (split; [exact I | cbn [to_Q]; lra]).
  assert (Hprod : (to_Q (S754_finite sx mx ex) * to_Q (S754_finite sy my ey)
                   == sgnQ (xorb sx sy) * F2Q (Zpos (mx * my)) (ex + ey))%Q).
  { rewrite !to_Q_finite, sgnQ_xorb, Pos2Z.inj_mul, F2Q_mult. ring. }
  rewrite Hprod in *.
  set (v := F2Q (Zpos (mx * my)) (ex + ey)) in *.
  assert (Vpos : (0 < v)%Q) by apply F2Q_pos.
  assert (Vlt : (v < 2 ^ k)%Q) by (destruct (sgnQ_cases (xorb sx sy) v) as [Hs | Hs]; rewrite Hs in Hv; lra).
  pose proof (mag_bound (Zpos (mx * my)) (ex + ey) k ltac:(lia) Vlt) as Hmag.
  replace (k - 52) with (k - 53 + 1) by lia.
  apply round_aux_error; try lia.
  - split; [apply Qle_refl | apply F2Q_le; lia].
  - rewrite fexp_eq. lia.
Qed.

(** The quotient of two mantissas, cut at the exponent the division picks. *)
Lemma SFdiv_core_binary_spec (m1 m2 : positive) (e1 e2 : Z) :
  let '(q, e', l) := SFdiv_core_binary prec emax (Zpos m1) e1 (Zpos m2) e2 in
  0 <= q /\
  (F2Q q e' * F2Q (Zpos m2) e2 <= F2Q (Zpos m1) e1
   <= F2Q (q + 1) e' * F2Q (Zpos m2) e2)%Q /\
  e' <= fexp prec emax (Zdigits2 (Zpos m1) + e1 - (Zdigits2 (Zpos m2) + e2)).
Proof.
  unfold SFdiv_core_binary.
  set (e' := Z.min (fexp prec emax (Zdigits2 (Zpos m1) + e1 - (Zdigits2 (Zpos m2) + e2))) (e1 - e2)).
  set (s := e1 - e2 - e').
  assert (Hs : 0 <= s) by (unfold s, e'; lia).
  set (m' := match s with Zpos _ => Z.shiftl (Zpos m1) s | Z0 => Zpos m1 | Zneg _ => 0 end).
  assert (Hm' : m' = Zpos m1 * 2 ^ s).
  { unfold m'. destruct s as [| p | p]; [lia | | lia]. apply Z.shiftl_mul_pow2. lia. }
  pose proof (Z_div_mod m' (Zpos m2) ltac:(lia)) as Hdm.
  destruct (Z.div_eucl m' (Zpos m2)) as [q r]. destruct Hdm as [Hq Hr].
  assert (P2s : 0 < 2 ^ s) by (apply Z.pow_pos_nonneg; lia).
  assert (Hq0 : 0 <= q) by nia.
  split; [exact Hq0|]. split; [| unfold e'; lia].
  assert (He1 : e1 = (e' + e2) + s) by (unfold s; lia).
  rewrite <- !F2Q_mult.
  replace (F2Q (Zpos m1) e1) with (F2Q (Zpos m1) (e' + e2 + s)) by (f_equal; exact (eq_sym He1)).
  pose proof (F2Q_shift (Zpos m1) (e' + e2) s Hs) as Hsh. rewrite <- Hm' in Hsh.
  split; rewrite Hsh; apply F2Q_le; nia.
Qed.

Lemma div_error (x y : spec_float) (k : Z) :
  fin_exp x 971 ->
  (exists sy my ey, y = S754_finite sy my ey) ->
  (- 2 ^ k < to_Q x / to_Q y < 2 ^ k)%Q ->
  -1021 <= k <= 1023 ->
  fin_exp (SFdiv prec emax x y) (k - 52) /\
  (to_Q x / to_Q y - 2 ^ (k - 53) <= to_Q (SFdiv prec emax x y)
   <= to_Q x / to_Q y + 2 ^ (k - 53))%Q.
Proof.
  intros Fx [sy [my [ey ->]]] Hv Hk. pose proof (pow2_pos (k - 53)) as PB.
  destruct x as [sx | sx | | sx mx ex]; cbn [fin_exp] in Fx; try contradiction; cbn [SFdiv].
  - split; [exact I|]. cbn [to_Q]. unfold Qdiv. lra.
  - pose proof (SFdiv_core_binary_spec mx my ex ey) as Hcore.
    destruct (SFdiv_core_binary prec emax (Zpos mx) ex (Zpos my) ey) as [[mz ez] lz].
    destruct Hcore as [Hmz [[Hlo Hhi] Hez]].
    pose proof (F2Q_pos mx ex) as Px. pose proof (F2Q_pos my ey) as Py.
    set (v := (F2Q (Zpos mx) ex / F2Q (Zpos my) ey)%Q).
    assert (Hquot : (to_Q (S754_finite sx mx ex) / to_Q (S754_finite sy my ey)
                     == sgnQ (xorb sx sy) * v)%Q).
    { rewrite !to_Q_finite, sgnQ_xorb. unfold v. destruct sx, sy; cbn [sgnQ]; field; lra. }
    rewrite Hquot in *.
    assert (Vmul : (v * F2Q (Zpos my) ey == F2Q (Zpos mx) ex)%Q) by (unfold v; field; lra).
    assert (Vlo : (F2Q mz ez <= v)%Q).
    { apply (Qmult_le_r _ _ (F2Q (Zpos my) ey)); [exact Py|]. rewrite Vmul. exact Hlo. }
    assert (Vhi : (v <= F2Q (mz + 1) ez)%Q).
    { apply (Qmult_le_r _ _ (F2Q (Zpos my) ey)); [exact Py|]. rewrite Vmul. exact Hhi. }
    assert (Vpos : (0 < v)%Q).
    { apply (Qmult_lt_r _ _ (F2Q (Zpos my) ey)); [exact Py|]. rewrite Vmul. lra. }
    assert (Vlt : (v < 2 ^ k)%Q) by (destruct (sgnQ_cases (xorb sx sy) v) as [Hs | Hs]; rewrite Hs in Hv; lra).
    (* the exponent chosen by the division *)
    assert (Hd : Zdigits2 (Zpos mx) + ex - (Zdigits2 (Zpos my) + ey) <= k).
    { cbn [Zdigits2].
      pose proof (digits2_pos_bounds mx) as [Bx _]. pose proof (digits2_pos_bounds my) as [_ By].
      assert (H1 : (2 ^ (Zpos (digits2_pos mx) - 1 + ex) <= F2Q (Zpos mx) ex)%Q).
      { rewrite <- F2Q_pow by lia. apply F2Q_le. exact Bx. }
      assert (H2 : (F2Q (Zpos my) ey < 2 ^ (Zpos (digits2_pos my) + ey))%Q).
      { rewrite <- F2Q_pow by lia. apply F2Q_lt. exact By. }
      assert (H3 : (2 ^ (Zpos (digits2_pos mx) - 1 + ex) < 2 ^ (k + (Zpos (digits2_pos my) + ey)))%Q).
      { pose proof (pow2_add k (Zpos (digits2_pos my) + ey)) as Hadd.
        pose proof (pow2_pos k) as Pk.
        assert (H4 : (v * F2Q (Zpos my) ey < 2 ^ k * 2 ^ (Zpos (digits2_pos my) + ey))%Q) by nra.
        rewrite Hadd. eapply Qle_lt_trans; [exact H1|]. rewrite <- Vmul. exact H4. }
      apply pow2_lt_inv in H3. lia. }
    assert (Hez' : ez <= k - 53) by (rewrite fexp_eq in Hez; lia).
    assert (Hmag : Zdigits2 mz + ez <= Z.max k ez).
    { apply mag_bound; [exact Hmz|]. eapply Qle_lt_trans; eassumption. }
    replace (k - 52) with (k - 53 + 1) by lia.
    apply round_aux_error; try lia.
    + split; assumption.
    + rewrite fexp_eq. lia.
Qed.

Lemma mag_bound_pos (p : positive) (e k : Z) :
  (F2Q (Zpos p) e < 2 ^ k)%Q -> Zpos (digits2_pos p) + e <= k.
Proof.
  intros H. pose proof (digits2_pos_bounds p) as [B _].
  assert (H1 : (F2Q (2 ^ (Zpos (digits2_pos p) - 1)) e <= F2Q (Zpos p) e)%Q) by (apply F2Q_le; exact B).
  rewrite F2Q_pow in H1 by lia.
  assert (H2 : (2 ^ (Zpos (digits2_pos p) - 1 + e) < 2 ^ k)%Q) by (eapply Qle_lt_trans; eassumption).
  apply pow2_lt_inv in H2. lia.
Qed.

Lemma pos_iter_xO (m d : positive) : Zpos (Pos.iter xO m d) = Zpos m * 2 ^ Zpos d.
Proof.
  induction d as [| d IH] using Pos.peano_ind.
  - cbn. lia.
  - rewrite Pos.iter_succ, Pos2Z.inj_xO, IH, Pos2Z.inj_succ, Z.pow_succ_r by lia. lia.
Qed.

Lemma shl_align_spec (mx : positive) (ex ex' : Z) :
  snd (shl_align mx ex ex') = Z.min ex ex' /\
  Zpos (fst (shl_align mx ex ex')) = Zpos mx * 2 ^ (ex - Z.min ex ex').
Proof.
  unfold shl_align. destruct (ex' - ex) as [| d | d] eqn:Hd; cbn [fst snd].
  - replace (Z.min ex ex') with ex by lia. rewrite Z.sub_diag. lia.
  - replace (Z.min ex ex') with ex by lia. rewrite Z.sub_diag. lia.
  - replace (Z.min ex ex') with ex' by lia. rewrite pos_iter_xO.
    replace (ex - ex') with (Zpos d) by lia. lia.
Qed.

Lemma shl_align_value (mx : positive) (ex ex' : Z) :
  (F2Q (Zpos (fst (shl_align mx ex ex'))) (Z.min ex ex') == F2Q (Zpos mx) ex)%Q.
Proof.
  destruct (shl_align_spec mx ex ex') as [_ H]. rewrite H.
  rewrite <- F2Q_shift by lia. replace (Z.min ex ex' + (ex - Z.min ex ex')) with ex by lia.
  reflexivity.
Qed.

Lemma binary_round_error (s : bool) (mx : positive) (ex k : Z) :
  (F2Q (Zpos mx) ex < 2 ^ k)%Q -> -1021 <= k <= 1023 ->
  fin_exp (binary_round prec emax s mx ex) (k - 52) /\
  (sgnQ s * F2Q (Zpos mx) ex - 2 ^ (k - 53) <= to_Q (binary_round prec emax s mx ex)
   <= sgnQ s * F2Q (Zpos mx) ex + 2 ^ (k - 53))%Q.
Proof.
  intros Hv Hk. unfold binary_round.
  pose proof (shl_align_spec mx ex (fexp prec emax (Zpos (digits2_pos mx) + ex))) as [Hz1 Hz2].
  pose proof (shl_align_value mx ex (fexp prec emax (Zpos (digits2_pos mx) + ex))) as Hval.
  destruct (shl_align mx ex (fexp prec emax (Zpos (digits2_pos mx) + ex))) as [mz ez].
  cbn [fst snd] in *. rewrite <- Hz1 in Hval.
  pose proof (mag_bound_pos mx ex k Hv) as Hmag.
  assert (Hv' : (F2Q (Zpos mz) ez < 2 ^ k)%Q) by (rewrite Hval; exact Hv).
  pose proof (mag_bound_pos mz ez k Hv') as Hmag'.
  rewrite fexp_eq in Hz1.
  replace (k - 52) with (k - 53 + 1) by lia. rewrite <- Hval.
  apply round_aux_error; try lia.
  - split; [apply Qle_refl | apply F2Q_le; lia].
  - cbn [Zdigits2]. rewrite fexp_eq. lia.
Qed.

Lemma binary_normalize_error (m e k : Z) :
  (- 2 ^ k < F2Q m e < 2 ^ k)%Q -> -1021 <= k <= 1023 ->
  fin_exp (binary_normalize prec emax m e false) (k - 52) /\
  (F2Q m e - 2 ^ (k - 53) <= to_Q (binary_normalize prec emax m e false)
   <= F2Q m e + 2 ^ (k - 53))%Q.
Proof.
  intros Hv Hk. pose proof (pow2_pos (k - 53)) as PB.
  destruct m as [| p | p]; cbn [binary_normalize].
  - split; [exact I|]. cbn [to_Q].
    assert (Z0 : (F2Q 0 e == 0)%Q) by (unfold F2Q; ring). rewrite Z0. lra.
  - pose proof (binary_round_error false p e k) as H. cbn [sgnQ] in H.
    rewrite !Qmult_1_l in H. apply H; [lra | lia].
  - pose proof (binary_round_error true p e k) as H. cbn [sgnQ] in H.
    pose proof (F2Q_neg p e) as N. rewrite N in *.
    assert (E1 : (-1 * F2Q (Zpos p) e == - F2Q (Zpos p) e)%Q) by ring.
    rewrite E1 in H. apply H; [lra | lia].
Qed.

Lemma cond_Zopp_value (s : bool) (m : positive) (e : Z) :
  (F2Q (cond_Zopp s (Zpos m)) e == sgnQ s * F2Q (Zpos m) e)%Q.
Proof. destruct s; cbn [cond_Zopp sgnQ]; [change (- Zpos m) with (Zneg m); rewrite F2Q_neg|]; ring. Qed.

Lemma fin_exp_le (x : spec_float) (B B' : Z) : fin_exp x B -> B <= B' -> fin_exp x B'.
Proof. destruct x; cbn; intros; try assumption; lia. Qed.

Lemma aligned_sum (sx sy : bool) (mx my : positive) (ex ey : Z) (neg : bool) :
  let ez := Z.min ex ey in
  (F2Q (cond_Zopp sx (Zpos (fst (shl_align mx ex ez)))
        + (if neg then - cond_Zopp sy (Zpos (fst (shl_align my ey ez)))
           else cond_Zopp sy (Zpos (fst (shl_align my ey ez))))) ez
   == to_Q (S754_finite sx mx ex)
      + (if neg then - to_Q (S754_finite sy my ey) else to_Q (S754_finite sy my ey)))%Q.
Proof.
  intros ez. rewrite F2Q_plus.
  pose proof (shl_align_value mx ex ez) as Hx. pose proof (shl_align_value my ey ez) as Hy.
  replace (Z.min ex ez) with ez in Hx by (unfold ez; lia).
  replace (Z.min ey ez) with ez in Hy by (unfold ez; lia).
  pose proof (cond_Zopp_value sx (fst (shl_align mx ex ez)) ez) as Cx.
  pose proof (cond_Zopp_value sy (fst (shl_align my ey ez)) ez) as Cy.
  pose proof (to_Q_finite sx mx ex) as Tx. pose proof (to_Q_finite sy my ey) as Ty.
  rewrite Hx in Cx. rewrite Hy in Cy. rewrite Tx, Cx.
  destruct neg.
  - assert (E : (F2Q (- cond_Zopp sy (Zpos (fst (shl_align my ey ez)))) ez
                 == - F2Q (cond_Zopp sy (Zpos (fst (shl_align my ey ez)))) ez)%Q).
    { unfold F2Q. rewrite inject_Z_opp. ring. }
    rewrite E, Cy, Ty. ring.
  - rewrite Cy, Ty. ring.
Qed.

Lemma add_error (x y : spec_float) (B k : Z) :
  fin_exp x B -> fin_exp y B -> B <= k - 52 ->
  (- 2 ^ k < to_Q x + to_Q y < 2 ^ k)%Q -> -1021 <= k <= 1023 ->
  fin_exp (SFadd prec emax x y) (k - 52) /\
  (to_Q x + to_Q y - 2 ^ (k - 53) <= to_Q (SFadd prec emax x y)
   <= to_Q x + to_Q y + 2 ^ (k - 53))%Q.
Proof.
  intros Fx Fy HB Hv Hk. pose proof (pow2_pos (k - 53)) as PB.
  destruct x as [sx | sx | | sx mx ex], y as [sy | sy | | sy my ey];
    cbn [fin_exp] in Fx, Fy; try contradiction; cbn [SFadd].
  - split; [destruct sx, sy; exact I |]. destruct sx, sy; cbn [to_Q]; lra.
  - split; [cbn; lia |]. cbn [to_Q] in *. lra.
  - split; [cbn; lia |]. cbn [to_Q] in *. lra.
  - pose proof (aligned_sum sx sy mx my ex ey false) as Hs. cbv zeta in Hs. cbn [negb] in Hs.
    rewrite <- Hs in *. apply binary_normalize_error; assumption.
Qed.

Lemma sub_error (x y : spec_float) (B k : Z) :
  fin_exp x B -> fin_exp y B -> B <= k - 52 ->
  (- 2 ^ k < to_Q x - to_Q y < 2 ^ k)%Q -> -1021 <= k <= 1023 ->
  fin_exp (SFsub prec emax x y) (k - 52) /\
  (to_Q x - to_Q y - 2 ^ (k - 53) <= to_Q (SFsub prec emax x y)
   <= to_Q x - to_Q y + 2 ^ (k - 53))%Q.
Proof.
  intros Fx Fy HB Hv Hk. pose proof (pow2_pos (k - 53)) as PB.
  destruct x as [sx | sx | | sx mx ex], y as [sy | sy | | sy my ey];
    cbn [fin_exp] in Fx, Fy; try contradiction; cbn [SFsub].
  - split; [destruct sx, sy; exact I |]. destruct sx, sy; cbn [to_Q]; lra.
  - split; [cbn; lia |].
    assert (E : (to_Q (S754_finite (negb sy) my ey) == - to_Q (S754_finite sy my ey))%Q).
    { rewrite !to_Q_finite. destruct sy; cbn [negb sgnQ]; ring. }
    rewrite E. cbn [to_Q] in *. lra.
  - split; [cbn; lia |]. cbn [to_Q] in *. lra.
  - pose proof (aligned_sum sx sy mx my ex ey true) as Hs. cbv zeta in Hs.
    unfold Qminus in *. rewrite <- Hs in *. rewrite <- Z.add_opp_r.
    apply binary_normalize_error; assumption.
Qed.

End Binary64Facts.

(* ================================================================== *)
(** * The round trips in binary64 *)
(* ================================================================== *)

Module RoundTrip.

Import Binary64 Binary64Facts TemperatureConverter.

Lemma valid_fin_exp (x : float) (k : Z) :
  valid x = true -> is_finite x = true ->
  (- 2 ^ k < to_Q x < 2 ^ k)%Q -> -1021 <= k ->
  fin_exp x (k - 53).
Proof.
  intros Hv Hf Hx Hk. destruct x as [s | s | | s m e]; try discriminate; [exact I|].
  cbn [fin_exp]. cbn [valid valid_binary] in Hv. unfold valid in Hv. cbn [valid_binary] in Hv.
  apply bounded_inv in Hv. destruct Hv as [He _].
  rewrite to_Q_finite in Hx. pose proof (F2Q_pos m e) as P.
  assert (Hlt : (F2Q (Zpos m) e < 2 ^ k)%Q) by (destruct s; cbn [sgnQ] in Hx; lra).
  pose proof (mag_bound_pos m e k Hlt). lia.
Qed.

(** The literals of the formulas as floats, and their values. *)
Lemma of_int_9 : of_int 9 = S754_finite false 5066549580791808 (-49).
Proof. reflexivity. Qed.
Lemma of_int_5 : of_int 5 = S754_finite false 5629499534213120 (-50).
Proof. reflexivity. Qed.
Lemma of_int_32 : of_int 32 = S754_finite false 4503599627370496 (-47).
Proof. reflexivity. Qed.

Lemma to_Q_9 : (to_Q (of_int 9) == 9)%Q.
Proof. reflexivity. Qed.
Lemma to_Q_5 : (to_Q (of_int 5) == 5)%Q.
Proof. reflexivity. Qed.
Lemma to_Q_32 : (to_Q (of_int 32) == 32)%Q.
Proof. reflexivity. Qed.

Lemma Qdiv_5 (x : Q) : (x / 5 == x * (1 # 5))%Q.
Proof. field. Qed.
Lemma Qdiv_9 (x : Q) : (x / 9 == x * (1 # 9))%Q.
Proof. field. Qed.

(** [celsius_to_fahrenheit] on a float of moderate size: the result is the
    exact value up to the rounding of its three operations. *)
Lemma c2f_error (c : float) :
  fin_exp c (-41) -> (-1200 <= to_Q c <= 1200)%Q ->
  let r := celsius_to_fahrenheit c in
  fin_exp r (-40) /\
  (to_Q c * (9 # 5) + 32 - (1 # 500000000000) <= to_Q r
   <= to_Q c * (9 # 5) + 32 + (1 # 500000000000))%Q.
Proof.
  intros F0 Hc r. unfold r, celsius_to_fahrenheit.
  cbn [num_mul num_truediv num_add num_sub num_of_int PyNumber_float].
  unfold mul, div, add.
  set (t1 := SFmul prec emax c (of_int 9)).
  set (t2 := SFdiv prec emax t1 (of_int 5)).
  set (t3 := SFadd prec emax t2 (of_int 32)).
  pose proof to_Q_9 as Q9. pose proof to_Q_5 as Q5. pose proof to_Q_32 as Q32.
  assert (H1 : (- 2 ^ 14 < to_Q c * to_Q (of_int 9) < 2 ^ 14)%Q).
  { rewrite Q9. eval_pow2_goal. lra. }
  destruct (mul_error c (of_int 9) (-41) (-49) 14 F0 ltac:(cbn; lia) H1 ltac:(lia) ltac:(lia))
    as [F1 E1].
  fold t1 in F1, E1. rewrite Q9 in E1. eval_pow2 E1. clear H1.
  assert (H2 : (- 2 ^ 12 < to_Q t1 / to_Q (of_int 5) < 2 ^ 12)%Q).
  { rewrite Q5, Qdiv_5. eval_pow2_goal. lra. }
  destruct (div_error t1 (of_int 5) 12 (fin_exp_le t1 (14 - 52) 971 F1 ltac:(lia))
              ltac:(rewrite of_int_5; eauto) H2 ltac:(lia)) as [F2 E2].
  fold t2 in F2, E2. rewrite Q5, Qdiv_5 in E2. eval_pow2 E2. clear H2.
  assert (H3 : (- 2 ^ 12 < to_Q t2 + to_Q (of_int 32) < 2 ^ 12)%Q).
  { rewrite Q32. eval_pow2_goal. lra. }
  destruct (add_error t2 (of_int 32) (-40) 12 F2 ltac:(cbn; lia) ltac:(lia) H3 ltac:(lia))
    as [F3 E3].
  fold t3 in F3, E3. rewrite Q32 in E3. eval_pow2 E3. clear H3.
  split; [exact F3 | lra].
Qed.

(** [fahrenheit_to_celsius] likewise. *)
Lemma f2c_error (f : float) :
  fin_exp f (-40) -> (-2200 <= to_Q f <= 2200)%Q ->
  let r := fahrenheit_to_celsius f in
  fin_exp r (-41) /\
  ((to_Q f - 32) * (5 # 9) - (1 # 1000000000000) <= to_Q r
   <= (to_Q f - 32) * (5 # 9) + (1 # 1000000000000))%Q.
Proof.
  intros F0 Hc r. unfold r, fahrenheit_to_celsius.
  cbn [num_mul num_truediv num_add num_sub num_of_int PyNumber_float].
  unfold mul, div, sub.
  set (t1 := SFsub prec emax f (of_int 32)).
  set (t2 := SFmul prec emax t1 (of_int 5)).
  set (t3 := SFdiv prec emax t2 (of_int 9)).
  pose proof to_Q_9 as Q9. pose proof to_Q_5 as Q5. pose proof to_Q_32 as Q32.
  assert (H1 : (- 2 ^ 12 < to_Q f - to_Q (of_int 32) < 2 ^ 12)%Q).
  { rewrite Q32. eval_pow2_goal. lra. }
  destruct (sub_error f (of_int 32) (-40) 12 F0 ltac:(cbn; lia) ltac:(lia) H1 ltac:(lia))
    as [F1 E1].
  fold t1 in F1, E1. rewrite Q32 in E1. eval_pow2 E1. clear H1.
  assert (H2 : (- 2 ^ 14 < to_Q t1 * to_Q (of_int 5) < 2 ^ 14)%Q).
  { rewrite Q5. eval_pow2_goal. lra. }
  destruct (mul_error t1 (of_int 5) (-40) (-50) 14 F1 ltac:(cbn; lia) H2 ltac:(lia) ltac:(lia))
    as [F2 E2].
  fold t2 in F2, E2. rewrite Q5 in E2. eval_pow2 E2. clear H2.
  assert (H3 : (- 2 ^ 11 < to_Q t2 / to_Q (of_int 9) < 2 ^ 11)%Q).
  { rewrite Q9, Qdiv_9. eval_pow2_goal. lra. }
  destruct (div_error t2 (of_int 9) 11 (fin_exp_le t2 (14 - 52) 971 F2 ltac:(lia))
              ltac:(rewrite of_int_9; eauto) H3 ltac:(lia)) as [F3 E3].
  fold t3 in F3, E3. rewrite Q9, Qdiv_9 in E3. eval_pow2 E3. clear H3.
  split; [exact F3 | lra].
Qed.

Lemma fin_exp_finite (x : float) (B : Z) : fin_exp x B -> is_finite x = true.
Proof. destruct x; cbn; intros H; try contradiction; reflexivity. Qed.

(** There and back, from Celsius. *)
Lemma c2f_f2c_error (c : float) :
  valid c = true -> is_finite c = true ->
  (-1024 <= to_Q c <= 1024)%Q ->
  let r := fahrenheit_to_celsius (celsius_to_fahrenheit c) in
  is_finite r = true /\
  (to_Q c - (1 # 100000000000) <= to_Q r <= to_Q c + (1 # 100000000000))%Q.
Proof.
  intros Hv Hf Hc r.
  assert (F0 : fin_exp c (-41)).
  { apply (fin_exp_le c (11 - 53)); [| lia].
    apply (valid_fin_exp c 11); try assumption; [eval_pow2_goal; lra | lia]. }
  destruct (c2f_error c F0 ltac:(lra)) as [F1 E1].
  destruct (f2c_error (celsius_to_fahrenheit c) F1 ltac:(lra)) as [F2 E2].
  fold r in F2, E2. split; [eapply fin_exp_finite; exact F2 | lra].
Qed.

(** There and back, from Fahrenheit. *)
Lemma f2c_c2f_error (f : float) :
  valid f = true -> is_finite f = true ->
  (-2048 <= to_Q f <= 2048)%Q ->
  let r := celsius_to_fahrenheit (fahrenheit_to_celsius f) in
  is_finite r = true /\
  (to_Q f - (1 # 100000000000) <= to_Q r <= to_Q f + (1 # 100000000000))%Q.
Proof.
  intros Hv Hf Hc r.
  assert (F0 : fin_exp f (-40)).
  { apply (fin_exp_le f (12 - 53)); [| lia].
    apply (valid_fin_exp f 12); try assumption; [eval_pow2_goal; lra | lia]. }
  destruct (f2c_error f F0 ltac:(lra)) as [F1 E1].
  destruct (c2f_error (fahrenheit_to_celsius f) F1 ltac:(lra)) as [F2 E2].
  fold r in F2, E2. split; [eapply fin_exp_finite; exact F2 | lra].
Qed.

(** The same two bounds for the floats the interpreter can hold. *)
Lemma c2f_accuracy (c : float) :
  valid c = true -> is_finite c = true -> (Qabs (to_Q c) <= 1024)%Q ->
  (Qabs (to_Q (celsius_to_fahrenheit c) - (to_Q c * (9 # 5) + 32)) <= 1 # 500000000000)%Q.
Proof.
  intros Hv Hf Hc. apply Qabs_Qle_condition in Hc.
  assert (F0 : fin_exp c (-41)).
  { apply (fin_exp_le c (11 - 53)); [| lia].
    apply (valid_fin_exp c 11); try assumption; [eval_pow2_goal; lra | lia]. }
  destruct (c2f_error c F0 ltac:(lra)) as [_ E]. apply Qabs_Qle_condition. lra.
Qed.

Lemma f2c_accuracy (f : float) :
  valid f = true -> is_finite f = true -> (Qabs (to_Q f) <= 2048)%Q ->
  (Qabs (to_Q (fahrenheit_to_celsius f) - (to_Q f - 32) * (5 # 9)) <= 1 # 1000000000000)%Q.
Proof.
  intros Hv Hf Hc. apply Qabs_Qle_condition in Hc.
  assert (F0 : fin_exp f (-40)).
  { apply (fin_exp_le f (12 - 53)); [| lia].
    apply (valid_fin_exp f 12); try assumption; [eval_pow2_goal; lra | lia]. }
  destruct (f2c_error f F0 ltac:(lra)) as [_ E]. apply Qabs_Qle_condition. lra.
Qed.

End RoundTrip.

(* ================================================================== *)
(** * Rounding errors of floats of any size *)
(* ================================================================== *)

(** The bounds of [Binary64Facts] for an operation whose result may be as
    large as a float can be: they hold whenever the operation does not
    overflow, which is certain below [2^1023] and is otherwise read off the
    result. *)
Module Binary64Wide.

Import Binary64 Binary64Facts.

Lemma round_aux_error_wide (s : bool) (mx ex : Z) (lx : location) (v : Q) (B : Z) :
  0 <= mx ->
  (F2Q mx ex <= v <= F2Q (mx + 1) ex)%Q ->
  Z.max ex (fexp prec emax (Zdigits2 mx + ex)) <= B ->
  B < 971 \/ is_finite (binary_round_aux prec emax s mx ex lx) = true ->
  let r := binary_round_aux prec emax s mx ex lx in
  fin_exp r (B + 1) /\
  (sgnQ s * v - 2 ^ B <= to_Q r <= sgnQ s * v + 2 ^ B)%Q.
Proof.
  intros Hm [Hv1 Hv2] HB HB' r.
  destruct (binary_round_aux_spec s mx ex lx Hm) as [mr [Hmr Hres]].
  fold r in Hres, HB'.
  set (E := Z.max ex (fexp prec emax (Zdigits2 mx + ex))) in *.
  set (k := E - ex) in *.
  assert (Hk : 0 <= k) by (unfold k, E; lia).
  assert (P2k : 0 < 2 ^ k) by (apply Z.pow_pos_nonneg; lia).
  set (m1 := mx / 2 ^ k) in *.
  assert (Hdiv : m1 * 2 ^ k <= mx < (m1 + 1) * 2 ^ k).
  { unfold m1. pose proof (Z.mul_div_le mx (2 ^ k) P2k).
    pose proof (Z.mul_succ_div_gt mx (2 ^ k) P2k). lia. }
  assert (V1 : (F2Q m1 E <= v)%Q).
  { eapply Qle_trans; [| exact Hv1]. replace E with (ex + k) by (unfold k; lia).
    rewrite F2Q_shift by lia. apply F2Q_le. lia. }
  assert (V2 : (v <= F2Q (m1 + 1) E)%Q).
  { eapply Qle_trans; [exact Hv2 |]. replace E with (ex + k) by (unfold k; lia).
    rewrite F2Q_shift by lia. apply F2Q_le. lia. }
  rewrite F2Q_plus, F2Q_one in V2.
  assert (M1 : (F2Q m1 E <= F2Q mr E <= F2Q m1 E + 2 ^ E)%Q).
  { split; [apply F2Q_le; lia |]. rewrite <- F2Q_one, <- F2Q_plus. apply F2Q_le. lia. }
  pose proof (pow2_le E B HB) as PB. pose proof (pow2_pos E) as PE.
  destruct Hres as [[Hr Hinf] | [[Hz Hr] | [m [e [Hr [He Hval]]]]]].
  - destruct HB' as [HB' | HB']; [lia | rewrite Hr in HB'; discriminate].
  - rewrite Hr. split; [exact I|]. cbn [to_Q].
    rewrite Hz in M1. assert (Z0 : (F2Q 0 E == 0)%Q) by (unfold F2Q; ring).
    rewrite Z0 in M1. destruct s; cbn [sgnQ]; lra.
  - rewrite Hr. split; [cbn; lia|]. rewrite to_Q_finite, Hval.
    destruct s; cbn [sgnQ]; lra.
Qed.

Lemma mul_error_wide (x y : spec_float) (Bx By k : Z) :
  fin_exp x Bx -> fin_exp y By ->
  (- 2 ^ k < to_Q x * to_Q y < 2 ^ k)%Q ->
  Bx + By <= k - 53 -> -1021 <= k ->
  k <= 1023 \/ is_finite (SFmul prec emax x y) = true ->
  fin_exp (SFmul prec emax x y) (k - 52) /\
  (to_Q x * to_Q y - 2 ^ (k - 53) <= to_Q (SFmul prec emax x y)
   <= to_Q x * to_Q y + 2 ^ (k - 53))%Q.
Proof.
  intros Fx Fy Hv HB Hk Hfin. pose proof (pow2_pos (k - 53)) as PB.
  destruct x as [sx | sx | | sx mx ex], y as [sy | sy | | sy my ey];
    cbn [fin_exp] in Fx, Fy; try contradiction;
    cbn [SFmul] in *; try (split; [exact I | cbn [to_Q]; lra]).
  assert (Hprod : (to_Q (S754_finite sx mx ex) * to_Q (S754_finite sy my ey)
                   == sgnQ (xorb sx sy) * F2Q (Zpos (mx * my)) (ex + ey))%Q).
  { rewrite !to_Q_finite, sgnQ_xorb, Pos2Z.inj_mul, F2Q_mult. ring. }
  rewrite Hprod in *.
  set (v := F2Q (Zpos (mx * my)) (ex + ey)) in *.
  assert (Vpos : (0 < v)%Q) by apply F2Q_pos.
  assert (Vlt : (v < 2 ^ k)%Q) by (destruct (sgnQ_cases (xorb sx sy) v) as [Hs | Hs]; rewrite Hs in Hv; lra).
  pose proof (mag_bound (Zpos (mx * my)) (ex + ey) k ltac:(lia) Vlt) as Hmag.
  replace (k - 52) with (k - 53 + 1) by lia.
  apply round_aux_error_wide; try lia.
  - split; [apply Qle_refl | apply F2Q_le; lia].
  - rewrite fexp_eq. lia.
  - destruct Hfin as [Hfin | Hfin]; [left; lia | right; exact Hfin].
Qed.

Lemma div_error_wide (x y : spec_float) (k : Z) :
  is_finite x = true ->
  (exists sy my ey, y = S754_finite sy my ey) ->
  (- 2 ^ k < to_Q x / to_Q y < 2 ^ k)%Q ->
  -1021 <= k ->
  k <= 1023 \/ is_finite (SFdiv prec emax x y) = true ->
  fin_exp (SFdiv prec emax x y) (k - 52) /\
  (to_Q x / to_Q y - 2 ^ (k - 53) <= to_Q (SFdiv prec emax x y)
   <= to_Q x / to_Q y + 2 ^ (k - 53))%Q.
Proof.
  intros Fx [sy [my [ey ->]]] Hv Hk Hfin. pose proof (pow2_pos (k - 53)) as PB.
  destruct x as [sx | sx | | sx mx ex]; try discriminate; cbn [SFdiv] in *.
  - split; [exact I|]. cbn [to_Q]. unfold Qdiv. lra.
  - pose proof (SFdiv_core_binary_spec mx my ex ey) as Hcore.
    destruct (SFdiv_core_binary prec emax (Zpos mx) ex (Zpos my) ey) as [[mz ez] lz].
    destruct Hcore as [Hmz [[Hlo Hhi] Hez]].
    pose proof (F2Q_pos mx ex) as Px. pose proof (F2Q_pos my ey) as Py.
    set (v := (F2Q (Zpos mx) ex / F2Q (Zpos my) ey)%Q).
    assert (Hquot : (to_Q (S754_finite sx mx ex) / to_Q (S754_finite sy my ey)
                     == sgnQ (xorb sx sy) * v)%Q).
    { rewrite !to_Q_finite, sgnQ_xorb. unfold v. destruct sx, sy; cbn [sgnQ]; field; lra. }
    rewrite Hquot in *.
    assert (Vmul : (v * F2Q (Zpos my) ey == F2Q (Zpos mx) ex)%Q) by (unfold v; field; lra).
    assert (Vlo : (F2Q mz ez <= v)%Q).
    { apply (Qmult_le_r _ _ (F2Q (Zpos my) ey)); [exact Py|]. rewrite Vmul. exact Hlo. }
    assert (Vhi : (v <= F2Q (mz + 1) ez)%Q).
    { apply (Qmult_le_r _ _ (F2Q (Zpos my) ey)); [exact Py|]. rewrite Vmul. exact Hhi. }
    assert (Vpos : (0 < v)%Q).
    { apply (Qmult_lt_r _ _ (F2Q (Zpos my) ey)); [exact Py|]. rewrite Vmul. lra. }
    assert (Vlt : (v < 2 ^ k)%Q) by (destruct (sgnQ_cases (xorb sx sy) v) as [Hs | Hs]; rewrite Hs in Hv; lra).
    assert (Hd : Zdigits2 (Zpos mx) + ex - (Zdigits2 (Zpos my) + ey) <= k).
    { cbn [Zdigits2].
      pose proof (digits2_pos_bounds mx) as [Bx _]. pose proof (digits2_pos_bounds my) as [_ By].
      assert (H1 : (2 ^ (Zpos (digits2_pos mx) - 1 + ex) <= F2Q (Zpos mx) ex)%Q).
      { rewrite <- F2Q_pow by lia. apply F2Q_le. exact Bx. }
      assert (H2 : (F2Q (Zpos my) ey < 2 ^ (Zpos (digits2_pos my) + ey))%Q).
      { rewrite <- F2Q_pow by lia. apply F2Q_lt. exact By. }
      assert (H3 : (2 ^ (Zpos (digits2_pos mx) - 1 + ex) < 2 ^ (k + (Zpos (digits2_pos my) + ey)))%Q).
      { pose proof (pow2_add k (Zpos (digits2_pos my) + ey)) as Hadd.
        pose proof (pow2_pos k) as Pk.
        assert (H4 : (v * F2Q (Zpos my) ey < 2 ^ k * 2 ^ (Zpos (digits2_pos my) + ey))%Q) by nra.
        rewrite Hadd. eapply Qle_lt_trans; [exact H1|]. rewrite <- Vmul. exact H4. }
      apply pow2_lt_inv in H3. lia. }
    assert (Hez' : ez <= k - 53) by (rewrite fexp_eq in Hez; lia).
    assert (Hmag : Zdigits2 mz + ez <= Z.max k ez).
    { apply mag_bound; [exact Hmz|]. eapply Qle_lt_trans; eassumption. }
    replace (k - 52) with (k - 53 + 1) by lia.
    apply round_aux_error_wide; try lia.
    + split; assumption.
    + rewrite fexp_eq. lia.
    + destruct Hfin as [Hfin | Hfin]; [left; lia | right; exact Hfin].
Qed.

Lemma binary_round_error_wide (s : bool) (mx : positive) (ex k : Z) :
  (F2Q (Zpos mx) ex < 2 ^ k)%Q -> -1021 <= k ->
  k <= 1023 \/ is_finite (binary_round prec emax s mx ex) = true ->
  fin_exp (binary_round prec emax s mx ex) (k - 52) /\
  (sgnQ s * F2Q (Zpos mx) ex - 2 ^ (k - 53) <= to_Q (binary_round prec emax s mx ex)
   <= sgnQ s * F2Q (Zpos mx) ex + 2 ^ (k - 53))%Q.
Proof.
  intros Hv Hk Hfin. unfold binary_round in *.
  pose proof (shl_align_spec mx ex (fexp prec emax (Zpos (digits2_pos mx) + ex))) as [Hz1 Hz2].
  pose proof (shl_align_value mx ex (fexp prec emax (Zpos (digits2_pos mx) + ex))) as Hval.
  destruct (shl_align mx ex (fexp prec emax (Zpos (digits2_pos mx) + ex))) as [mz ez].
  cbn [fst snd] in *. rewrite <- Hz1 in Hval.
  pose proof (mag_bound_pos mx ex k Hv) as Hmag.
  assert (Hv' : (F2Q (Zpos mz) ez < 2 ^ k)%Q) by (rewrite Hval; exact Hv).
  pose proof (mag_bound_pos mz ez k Hv') as Hmag'.
  rewrite fexp_eq in Hz1.
  replace (k - 52) with (k - 53 + 1) by lia. rewrite <- Hval.
  apply round_aux_error_wide; try lia.
  - split; [apply Qle_refl | apply F2Q_le; lia].
  - cbn [Zdigits2]. rewrite fexp_eq. lia.
  - destruct Hfin as [Hfin | Hfin]; [left; lia | right; exact Hfin].
Qed.

Lemma binary_normalize_error_wide (m e k : Z) :
  (- 2 ^ k < F2Q m e < 2 ^ k)%Q -> -1021 <= k ->
  k <= 1023 \/ is_finite (binary_normalize prec emax m e false) = true ->
  fin_exp (binary_normalize prec emax m e false) (k - 52) /\
  (F2Q m e - 2 ^ (k - 53) <= to_Q (binary_normalize prec emax m e false)
   <= F2Q m e + 2 ^ (k - 53))%Q.
Proof.
  intros Hv Hk Hfin. pose proof (pow2_pos (k - 53)) as PB.
  destruct m as [| p | p]; cbn [binary_normalize] in *.
  - split; [exact I|]. cbn [to_Q].
    assert (Z0 : (F2Q 0 e == 0)%Q) by (unfold F2Q; ring). rewrite Z0. lra.
  - pose proof (binary_round_error_wide false p e k) as H. cbn [sgnQ] in H.
    rewrite !Qmult_1_l in H. apply H; [lra | lia | exact Hfin].
  - pose proof (binary_round_error_wide true p e k) as H. cbn [sgnQ] in H.
    pose proof (F2Q_neg p e) as N. rewrite N in *.
    assert (E1 : (-1 * F2Q (Zpos p) e == - F2Q (Zpos p) e)%Q) by ring.
    rewrite E1 in H. apply H; [lra | lia | exact Hfin].
Qed.

Lemma add_error_wide (x y : spec_float) (B k : Z) :
  fin_exp x B -> fin_exp y B -> B <= k - 52 ->
  (- 2 ^ k < to_Q x + to_Q y < 2 ^ k)%Q -> -1021 <= k ->
  k <= 1023 \/ is_finite (SFadd prec emax x y) = true ->
  fin_exp (SFadd prec emax x y) (k - 52) /\
  (to_Q x + to_Q y - 2 ^ (k - 53) <= to_Q (SFadd prec emax x y)
   <= to_Q x + to_Q y + 2 ^ (k - 53))%Q.
Proof.
  intros Fx Fy HB Hv Hk Hfin. pose proof (pow2_pos (k - 53)) as PB.
  destruct x as [sx | sx | | sx mx ex], y as [sy | sy | | sy my ey];
    cbn [fin_exp] in Fx, Fy; try contradiction; cbn [SFadd] in *.
  - split; [destruct sx, sy; exact I |]. destruct sx, sy; cbn [to_Q]; lra.
  - split; [cbn; lia |]. cbn [to_Q] in *. lra.
  - split; [cbn; lia |]. cbn [to_Q] in *. lra.
  - pose proof (aligned_sum sx sy mx my ex ey false) as Hs. cbv zeta in Hs. cbn [negb] in Hs.
    rewrite <- Hs in *. apply binary_normalize_error_wide; assumption.
Qed.

Lemma sub_error_wide (x y : spec_float) (B k : Z) :
  fin_exp x B -> fin_exp y B -> B <= k - 52 ->
  (- 2 ^ k < to_Q x - to_Q y < 2 ^ k)%Q -> -1021 <= k ->
  k <= 1023 \/ is_finite (SFsub prec emax x y) = true ->
  fin_exp (SFsub prec emax x y) (k - 52) /\
  (to_Q x - to_Q y - 2 ^ (k - 53) <= to_Q (SFsub prec emax x y)
   <= to_Q x - to_Q y + 2 ^ (k - 53))%Q.
Proof.
  intros Fx Fy HB Hv Hk Hfin. pose proof (pow2_pos (k - 53)) as PB.
  destruct x as [sx | sx | | sx mx ex], y as [sy | sy | | sy my ey];
    cbn [fin_exp] in Fx, Fy; try contradiction; cbn [SFsub] in *.
  - split; [destruct sx, sy; exact I |]. destruct sx, sy; cbn [to_Q]; lra.
  - split; [cbn; lia |].
    assert (E : (to_Q (S754_finite (negb sy) my ey) == - to_Q (S754_finite sy my ey))%Q).
    { rewrite !to_Q_finite. destruct sy; cbn [negb sgnQ]; ring. }
    rewrite E. cbn [to_Q] in *. lra.
  - split; [cbn; lia |]. cbn [to_Q] in *. lra.
  - pose proof (aligned_sum sx sy mx my ex ey true) as Hs. cbv zeta in Hs.
    unfold Qminus in *. rewrite <- Hs in *. rewrite <- Z.add_opp_r in *.
    apply binary_normalize_error_wide; assumption.
Qed.

(** An operation whose first argument is an infinity or a NaN gives no
    finite result. *)
Lemma finite_mul_l (x y : spec_float) :
  is_finite (SFmul prec emax x y) = true -> is_finite x = true.
Proof. destruct x, y; cbn; intros H; try discriminate; reflexivity. Qed.

Lemma finite_div_l (x y : spec_float) :
  is_finite (SFdiv prec emax x y) = true -> is_finite x = true.
Proof. destruct x, y; cbn; intros H; try discriminate; reflexivity. Qed.

Lemma finite_add_l (x y : spec_float) :
  is_finite (SFadd prec emax x y) = true -> is_finite x = true.
Proof.
  destruct x as [| sx | |], y as [| sy | |]; cbn; intros H; try discriminate;
    try reflexivity; destruct sx, sy; discriminate.
Qed.

Lemma finite_sub_l (x y : spec_float) :
  is_finite (SFsub prec emax x y) = true -> is_finite x = true.
Proof.
  destruct x as [| sx | |], y as [| sy | |]; cbn; intros H; try discriminate;
    try reflexivity; destruct sx, sy; discriminate.
Qed.

(** A finite number that is not zero lies between two powers of two. *)
Lemma magnitude (s : bool) (m : positive) (e : Z) :
  let k := Zpos (digits2_pos m) + e in
  (2 ^ (k - 1) <= F2Q (Zpos m) e < 2 ^ k)%Q.
Proof.
  intros k. pose proof (digits2_pos_bounds m) as [B1 B2].
  split.
  - replace (k - 1) with (Zpos (digits2_pos m) - 1 + e) by (unfold k; lia).
    rewrite <- F2Q_pow by lia. apply F2Q_le. exact B1.
  - unfold k. rewrite <- F2Q_pow by lia. apply F2Q_lt. exact B2.
Qed.

End Binary64Wide.

(* ================================================================== *)
(** * The two conversions on floats of any size *)
(* ================================================================== *)

Module RoundTripWide.

Import Binary64 Binary64Facts Binary64Wide TemperatureConverter.

(** [celsius_to_fahrenheit] on a float below [2^k]: the error is at most
    eight units of [2^(k-53)], unless an operation overflows. *)
Lemma c2f_error_wide (c : float) (k : Z) :
  11 <= k -> fin_exp c (k - 50) -> (- 2 ^ k < to_Q c < 2 ^ k)%Q ->
  k <= 1019 \/ is_finite (celsius_to_fahrenheit c) = true ->
  let r := celsius_to_fahrenheit c in
  fin_exp r (k - 51) /\
  (to_Q c * (9 # 5) + 32 - 8 * 2 ^ (k - 53) <= to_Q r
   <= to_Q c * (9 # 5) + 32 + 8 * 2 ^ (k - 53))%Q.
Proof.
  intros Hk F0 [Hc1 Hc2] Hfin r. unfold r, celsius_to_fahrenheit in *.
  cbn [num_mul num_truediv num_add num_sub num_of_int PyNumber_float] in *.
  unfold mul, div, add in *.
  set (t1 := SFmul prec emax c (of_int 9)) in *.
  set (t2 := SFdiv prec emax t1 (of_int 5)) in *.
  set (t3 := SFadd prec emax t2 (of_int 32)) in *.
  pose proof RoundTrip.to_Q_9 as Q9. pose proof RoundTrip.to_Q_5 as Q5.
  pose proof RoundTrip.to_Q_32 as Q32.
  set (P := (2 ^ (k - 53))%Q) in *.
  assert (PP : (1 # 4398046511104 <= P)%Q).
  { pose proof (pow2_le (-42) (k - 53) ltac:(lia)) as H. exact H. }
  pow2_as P (k - 53) k 53. pow2_as P (k - 53) (k + 4) 57.
  pow2_as P (k - 53) (k + 4 - 53) 4. pow2_as P (k - 53) (k + 1) 54.
  pow2_as P (k - 53) (k + 1 - 53) 1.
  rewrite Pw in Hc1, Hc2.
  assert (H1 : (- 2 ^ (k + 4) < to_Q c * to_Q (of_int 9) < 2 ^ (k + 4))%Q).
  { rewrite Q9, Pw0. split; lra. }
  assert (D1 : k + 4 <= 1023 \/ is_finite t1 = true).
  { destruct Hfin as [Hfin | Hfin]; [left; lia | right].
    apply finite_add_l, finite_div_l in Hfin. exact Hfin. }
  destruct (mul_error_wide c (of_int 9) (k - 50) (-49) (k + 4) F0 ltac:(cbn; lia) H1
              ltac:(lia) ltac:(lia) D1) as [F1 [E1a E1b]].
  fold t1 in F1, E1a, E1b. rewrite Q9, Pw1 in E1a, E1b. clear H1.
  assert (H2 : (- 2 ^ (k + 1) < to_Q t1 / to_Q (of_int 5) < 2 ^ (k + 1))%Q).
  { rewrite Q5, RoundTrip.Qdiv_5, Pw2. split; lra. }
  assert (D2 : k + 1 <= 1023 \/ is_finite t2 = true).
  { destruct Hfin as [Hfin | Hfin]; [left; lia | right].
    apply finite_add_l in Hfin. exact Hfin. }
  destruct (div_error_wide t1 (of_int 5) (k + 1) (RoundTrip.fin_exp_finite _ _ F1)
              ltac:(rewrite RoundTrip.of_int_5; eauto) H2 ltac:(lia) D2) as [F2 [E2a E2b]].
  fold t2 in F2, E2a, E2b. rewrite Q5, RoundTrip.Qdiv_5, Pw3 in E2a, E2b. clear H2.
  assert (H3 : (- 2 ^ (k + 1) < to_Q t2 + to_Q (of_int 32) < 2 ^ (k + 1))%Q).
  { rewrite Q32, Pw2. split; lra. }
  assert (D3 : k + 1 <= 1023 \/ is_finite t3 = true).
  { destruct Hfin as [Hfin | Hfin]; [left; lia | right; exact Hfin]. }
  destruct (add_error_wide t2 (of_int 32) (k + 1 - 52) (k + 1) F2 ltac:(cbn; lia) ltac:(lia)
              H3 ltac:(lia) D3) as [F3 [E3a E3b]].
  fold t3 in F3, E3a, E3b. rewrite Q32, Pw3 in E3a, E3b. clear H3.
  split; [replace (k - 51) with (k + 1 - 52) by lia; exact F3 | split; lra].
Qed.

(** [fahrenheit_to_celsius] on a float [f] with [|f| + 32] below [2^j]:
    the error is at most three units of [2^(j-53)], unless an operation
    overflows. *)
Lemma f2c_error_wide (f : float) (j : Z) :
  12 <= j -> fin_exp f (j - 52) -> (- 2 ^ j + 32 < to_Q f < 2 ^ j - 32)%Q ->
  j <= 1020 \/ is_finite (fahrenheit_to_celsius f) = true ->
  let r := fahrenheit_to_celsius f in
  fin_exp r (j - 52) /\
  ((to_Q f - 32) * (5 # 9) - 3 * 2 ^ (j - 53) <= to_Q r
   <= (to_Q f - 32) * (5 # 9) + 3 * 2 ^ (j - 53))%Q.
Proof.
  intros Hj F0 [Hc1 Hc2] Hfin r. unfold r, fahrenheit_to_celsius in *.
  cbn [num_mul num_truediv num_add num_sub num_of_int PyNumber_float] in *.
  unfold mul, div, sub in *.
  set (t1 := SFsub prec emax f (of_int 32)) in *.
  set (t2 := SFmul prec emax t1 (of_int 5)) in *.
  set (t3 := SFdiv prec emax t2 (of_int 9)) in *.
  pose proof RoundTrip.to_Q_9 as Q9. pose proof RoundTrip.to_Q_5 as Q5.
  pose proof RoundTrip.to_Q_32 as Q32.
  set (P := (2 ^ (j - 53))%Q) in *.
  assert (PP : (1 # 2199023255552 <= P)%Q).
  { pose proof (pow2_le (-41) (j - 53) ltac:(lia)) as H. exact H. }
  pow2_as P (j - 53) j 53. pow2_as P (j - 53) (j + 3) 56.
  pow2_as P (j - 53) (j + 3 - 53) 3.
  rewrite Pw in Hc1, Hc2.
  assert (H1 : (- 2 ^ j < to_Q f - to_Q (of_int 32) < 2 ^ j)%Q).
  { rewrite Q32, Pw. split; lra. }
  assert (D1 : j <= 1023 \/ is_finite t1 = true).
  { destruct Hfin as [Hfin | Hfin]; [left; lia | right].
    apply finite_div_l, finite_mul_l in Hfin. exact Hfin. }
  destruct (sub_error_wide f (of_int 32) (j - 52) j F0 ltac:(cbn; lia) ltac:(lia) H1
              ltac:(lia) D1) as [F1 [E1a E1b]].
  fold t1 in F1, E1a, E1b. rewrite Q32 in E1a, E1b. fold P in E1a, E1b. clear H1.
  assert (H2 : (- 2 ^ (j + 3) < to_Q t1 * to_Q (of_int 5) < 2 ^ (j + 3))%Q).
  { rewrite Q5, Pw0. split; lra. }
  assert (D2 : j + 3 <= 1023 \/ is_finite t2 = true).
  { destruct Hfin as [Hfin | Hfin]; [left; lia | right].
    apply finite_div_l in Hfin. exact Hfin. }
  destruct (mul_error_wide t1 (of_int 5) (j - 52) (-50) (j + 3) F1 ltac:(cbn; lia) H2
              ltac:(lia) ltac:(lia) D2) as [F2 [E2a E2b]].
  fold t2 in F2, E2a, E2b. rewrite Q5, Pw1 in E2a, E2b. clear H2.
  assert (H3 : (- 2 ^ j < to_Q t2 / to_Q (of_int 9) < 2 ^ j)%Q).
  { rewrite Q9, RoundTrip.Qdiv_9, Pw. split; lra. }
  assert (D3 : j <= 1023 \/ is_finite t3 = true).
  { destruct Hfin as [Hfin | Hfin]; [left; lia | right; exact Hfin]. }
  destruct (div_error_wide t2 (of_int 9) j (RoundTrip.fin_exp_finite _ _ F2)
              ltac:(rewrite RoundTrip.of_int_9; eauto) H3 ltac:(lia) D3) as [F3 [E3a E3b]].
  fold t3 in F3, E3a, E3b. rewrite Q9, RoundTrip.Qdiv_9 in E3a, E3b. fold P in E3a, E3b.
  clear H3.
  split; [exact F3 | split; lra].
Qed.

(** The size of a float that is not zero. *)
Lemma float_magnitude (x : float) :
  valid x = true -> is_finite x = true -> (0 < Qabs (to_Q x))%Q ->
  exists k : Z,
    (2 ^ (k - 1) <= Qabs (to_Q x) < 2 ^ k)%Q /\ (-1021 <= k -> fin_exp x (k - 53)).
Proof.
  intros Hv Hf Hpos. destruct x as [s | s | | s m e]; try discriminate.
  exists (Zpos (digits2_pos m) + e).
  pose proof (magnitude s m e) as M. cbv zeta in M. pose proof (F2Q_pos m e) as Pm.
  assert (Habs : (Qabs (to_Q (S754_finite s m e)) == F2Q (Zpos m) e)%Q).
  { rewrite to_Q_finite. destruct s; cbn [sgnQ].
    - rewrite Qabs_neg by lra. ring.
    - rewrite Qabs_pos by lra. ring. }
  split; [rewrite Habs; exact M |].
  intros Hk. apply RoundTrip.valid_fin_exp; try assumption.
  rewrite to_Q_finite. destruct s; cbn [sgnQ]; lra.
Qed.

(** There and back from Celsius, for a float between [2^(k-1)] and [2^k]. *)
Lemma c2f_f2c_error_at (c : float) (k : Z) :
  11 <= k -> fin_exp c (k - 53) ->
  (2 ^ (k - 1) <= Qabs (to_Q c) < 2 ^ k)%Q ->
  k <= 1019 \/ is_finite (fahrenheit_to_celsius (celsius_to_fahrenheit c)) = true ->
  let r := fahrenheit_to_celsius (celsius_to_fahrenheit c) in
  is_finite r = true /\
  (Qabs (to_Q r - to_Q c) <= Qabs (to_Q c) * (1 # 140737488355328))%Q.
Proof.
  intros Hk F0 [Hc1 Hc2] Hfin r.
  assert (Hc : (- 2 ^ k < to_Q c < 2 ^ k)%Q).
  { apply Qabs_Qlt_condition. exact Hc2. }
  assert (D1 : k <= 1019 \/ is_finite (celsius_to_fahrenheit c) = true).
  { destruct Hfin as [Hfin | Hfin]; [left; exact Hfin | right].
    unfold fahrenheit_to_celsius in Hfin.
    cbn [num_mul num_truediv num_add num_sub num_of_int PyNumber_float] in Hfin.
    unfold mul, div, sub in Hfin.
    apply finite_div_l, finite_mul_l, finite_sub_l in Hfin. exact Hfin. }
  destruct (c2f_error_wide c k Hk (fin_exp_le c (k - 53) (k - 50) F0 ltac:(lia)) Hc D1) as [F1 [E1a E1b]].
  set (f := celsius_to_fahrenheit c) in *.
  set (P := (2 ^ (k - 53))%Q) in *.
  assert (PP : (1 # 4398046511104 <= P)%Q).
  { pose proof (pow2_le (-42) (k - 53) ltac:(lia)) as H. exact H. }
  pow2_as P (k - 53) k 53. pow2_as P (k - 53) (k + 1) 54.
  pow2_as P (k - 53) (k + 1 - 53) 1. pow2_as P (k - 53) (k - 1) 52.
  destruct Hc as [Hc3 Hc4]. rewrite Pw in Hc3, Hc4. rewrite Pw2 in Hc1.
  assert (H2 : (- 2 ^ (k + 1) + 32 < to_Q f < 2 ^ (k + 1) - 32)%Q).
  { rewrite Pw0. split; lra. }
  assert (D2 : k + 1 <= 1020 \/ is_finite (fahrenheit_to_celsius f) = true).
  { destruct Hfin as [Hfin | Hfin]; [left; lia | right; exact Hfin]. }
  destruct (f2c_error_wide f (k + 1) ltac:(lia)
              ltac:(replace (k + 1 - 52) with (k - 51) by lia; exact F1) H2 D2)
    as [F2 [E2a E2b]].
  fold r in F2, E2a, E2b. rewrite Pw1 in E2a, E2b.
  split; [exact (RoundTrip.fin_exp_finite _ _ F2)|].
  apply Qabs_Qle_condition. split; lra.
Qed.

(** There and back from Fahrenheit, likewise. *)
Lemma f2c_c2f_error_at (f : float) (k : Z) :
  12 <= k -> fin_exp f (k - 53) ->
  (2 ^ (k - 1) <= Qabs (to_Q f) < 2 ^ k)%Q ->
  k <= 1019 \/ is_finite (celsius_to_fahrenheit (fahrenheit_to_celsius f)) = true ->
  let r := celsius_to_fahrenheit (fahrenheit_to_celsius f) in
  is_finite r = true /\
  (Qabs (to_Q r - to_Q f) <= Qabs (to_Q f) * (1 # 140737488355328))%Q.
Proof.
  intros Hk F0 [Hc1 Hc2] Hfin r.
  assert (Hc : (- 2 ^ k < to_Q f < 2 ^ k)%Q).
  { apply Qabs_Qlt_condition. exact Hc2. }
  set (P := (2 ^ (k - 53))%Q) in *.
  assert (PP : (1 # 2199023255552 <= P)%Q).
  { pose proof (pow2_le (-41) (k - 53) ltac:(lia)) as H. exact H. }
  pow2_as P (k - 53) k 53. pow2_as P (k - 53) (k + 1) 54.
  pow2_as P (k - 53) (k + 1 - 53) 1. pow2_as P (k - 53) (k - 1) 52.
  destruct Hc as [Hc3 Hc4]. rewrite Pw in Hc3, Hc4. rewrite Pw2 in Hc1.
  assert (H1 : (- 2 ^ (k + 1) + 32 < to_Q f < 2 ^ (k + 1) - 32)%Q).
  { rewrite Pw0. split; lra. }
  assert (D1 : k + 1 <= 1020 \/ is_finite (fahrenheit_to_celsius f) = true).
  { destruct Hfin as [Hfin | Hfin]; [left; lia | right].
    unfold celsius_to_fahrenheit in Hfin.
    cbn [num_mul num_truediv num_add num_sub num_of_int PyNumber_float] in Hfin.
    unfold mul, div, add in Hfin.
    apply finite_add_l, finite_div_l, finite_mul_l in Hfin. exact Hfin. }
  destruct (f2c_error_wide f (k + 1) ltac:(lia)
              (fin_exp_le f (k - 53) (k + 1 - 52) F0 ltac:(lia)) H1 D1)
    as [F1 [E1a E1b]].
  set (c := fahrenheit_to_celsius f) in *. rewrite Pw1 in E1a, E1b.
  assert (H2 : (- 2 ^ k < to_Q c < 2 ^ k)%Q).
  { rewrite Pw. split; lra. }
  destruct (c2f_error_wide c k ltac:(lia)
              (fin_exp_le c (k + 1 - 52) (k - 50) F1 ltac:(lia)) H2 Hfin)
    as [F2 [E2a E2b]].
  fold r in F2, E2a, E2b. fold P in E2a, E2b.
  split; [exact (RoundTrip.fin_exp_finite _ _ F2)|].
  apply Qabs_Qle_condition. split; lra.
Qed.

(** The round trips on every float: unless an operation overflows, which
    it does not up to [5 * 10^306], the result is within [10^-11] plus
    [10^-14] times the value. *)
Lemma c2f_f2c_error_wide (c : float) :
  valid c = true -> is_finite c = true ->
  (Qabs (to_Q c) <= inject_Z (5 * 10 ^ 306))%Q \/
  is_finite (fahrenheit_to_celsius (celsius_to_fahrenheit c)) = true ->
  let r := fahrenheit_to_celsius (celsius_to_fahrenheit c) in
  is_finite r = true /\
  (Qabs (to_Q r - to_Q c)
   <= (1 # 100000000000) + Qabs (to_Q c) * (1 # 100000000000000))%Q.
Proof.
  intros Hv Hf Hfin r. pose proof (Qabs_nonneg (to_Q c)) as A0.
  destruct (Qlt_le_dec 1024 (Qabs (to_Q c))) as [Hbig | Hsmall].
  - destruct (float_magnitude c Hv Hf ltac:(lra)) as [k [[M1 M2] Fk]].
    assert (Hk : 10 < k).
    { apply pow2_lt_inv. eapply Qlt_trans; [| exact M2]. exact Hbig. }
    assert (D : k <= 1019 \/ is_finite r = true).
    { destruct Hfin as [Hfin | Hfin]; [left | right; exact Hfin].
      assert (H : (2 ^ (k - 1) < 2 ^ 1019)%Q).
      { eapply Qle_lt_trans; [exact M1|]. eapply Qle_lt_trans; [exact Hfin|].
        vm_compute. reflexivity. }
      apply pow2_lt_inv in H. lia. }
    destruct (c2f_f2c_error_at c k ltac:(lia) (Fk ltac:(lia)) (conj M1 M2) D) as [Fr Er].
    split; [exact Fr|]. fold r in Er. lra.
  - apply Qabs_Qle_condition in Hsmall.
    destruct (RoundTrip.c2f_f2c_error c Hv Hf Hsmall) as [Fr Er]. fold r in Er.
    split; [exact Fr|].
    assert (E : (Qabs (to_Q r - to_Q c) <= 1 # 100000000000)%Q)
      by (apply Qabs_Qle_condition; lra).
    lra.
Qed.

Lemma f2c_c2f_error_wide (f : float) :
  valid f = true -> is_finite f = true ->
  (Qabs (to_Q f) <= inject_Z (5 * 10 ^ 306))%Q \/
  is_finite (celsius_to_fahrenheit (fahrenheit_to_celsius f)) = true ->
  let r := celsius_to_fahrenheit (fahrenheit_to_celsius f) in
  is_finite r = true /\
  (Qabs (to_Q r - to_Q f)
   <= (1 # 100000000000) + Qabs (to_Q f) * (1 # 100000000000000))%Q.
Proof.
  intros Hv Hf Hfin r. pose proof (Qabs_nonneg (to_Q f)) as A0.
  destruct (Qlt_le_dec 2048 (Qabs (to_Q f))) as [Hbig | Hsmall].
  - destruct (float_magnitude f Hv Hf ltac:(lra)) as [k [[M1 M2] Fk]].
    assert (Hk : 11 < k).
    { apply pow2_lt_inv. eapply Qlt_trans; [| exact M2]. exact Hbig. }
    assert (D : k <= 1019 \/ is_finite r = true).
    { destruct Hfin as [Hfin | Hfin]; [left | right; exact Hfin].
      assert (H : (2 ^ (k - 1) < 2 ^ 1019)%Q).
      { eapply Qle_lt_trans; [exact M1|]. eapply Qle_lt_trans; [exact Hfin|].
        vm_compute. reflexivity. }
      apply pow2_lt_inv in H. lia. }
    destruct (f2c_c2f_error_at f k ltac:(lia) (Fk ltac:(lia)) (conj M1 M2) D) as [Fr Er].
    split; [exact Fr|]. fold r in Er. lra.
  - apply Qabs_Qle_condition in Hsmall.
    destruct (RoundTrip.f2c_c2f_error f Hv Hf Hsmall) as [Fr Er]. fold r in Er.
    split; [exact Fr|].
    assert (E : (Qabs (to_Q r - to_Q f) <= 1 # 100000000000)%Q)
      by (apply Qabs_Qle_condition; lra).
    lra.
Qed.

End RoundTripWide.

(* ================================================================== *)
(** * Facts about the console application *)
(* ================================================================== *)

Module ShellFacts.

Import Console TemperatureConverterApp Guarantees.
Local Open Scope console_scope.

Lemma bind_inv {A B : Type} (m : M A) (k : A -> M B) (w : world) (r : result B) (w' : world) :
  bind m k w = Some (r, w') ->
  (exists a w1, m w = Some (Ok a, w1) /\ k a w1 = Some (r, w')) \/
  (exists e, m w = Some (Raise e, w') /\ r = Raise e).
Proof.
  unfold bind. destruct (m w) as [[[a | e] w1] |]; intros H.
  - left. eauto.
  - right. inversion H. eauto.
  - discriminate.
Qed.

(** ** Loops never run out of fuel *)

Section Loop.

Context {A : Type} (body : M (option A)).
Hypothesis body_total : forall w, body w <> None.
Hypothesis body_reads :
  forall w w', body w = Some (Ok None, w') ->
               (List.length (stdin w') < List.length (stdin w))%nat.

Lemma while_true_fuel :
  forall fuel1 fuel2 w,
    (List.length (stdin w) < fuel1)%nat -> (List.length (stdin w) < fuel2)%nat ->
    while_true body fuel1 w = while_true body fuel2 w.
Proof.
  induction fuel1 as [| fuel1 IH]; intros fuel2 w H1 H2; [lia|].
  destruct fuel2 as [| fuel2]; [lia|]. cbn [while_true]. unfold bind.
  destruct (body w) as [[[[v |] | e] w'] |] eqn:E; try reflexivity.
  apply body_reads in E. apply IH; lia.
Qed.

Lemma loop_unroll (w : world) :
  with_fuel (while_true body) w =
  match body w with
  | Some (Ok (Some v), w') => Some (Ok v, w')
  | Some (Ok None, w') => with_fuel (while_true body) w'
  | Some (Raise e, w') => Some (Raise e, w')
  | None => None
  end.
Proof.
  change (with_fuel (while_true body) w)
    with (while_true body (S (List.length (stdin w))) w).
  cbn [while_true]. unfold bind.
  destruct (body w) as [[[[v |] | e] w'] |] eqn:E; try reflexivity.
  apply body_reads in E. unfold with_fuel. apply while_true_fuel; lia.
Qed.

(** A property of every turn that the loop passes on. *)
Lemma loop_ind (P : world -> result A -> world -> Prop) :
  (forall w v w', body w = Some (Ok (Some v), w') -> P w (Ok v) w') ->
  (forall w e w', body w = Some (Raise e, w') -> P w (Raise e) w') ->
  (forall w w1 r w', body w = Some (Ok None, w1) -> P w1 r w' -> P w r w') ->
  forall w, exists r w', with_fuel (while_true body) w = Some (r, w') /\ P w r w'.
Proof.
  intros Hret Hraise Hnext w.
  remember (List.length (stdin w)) as n eqn:Hn. revert w Hn.
  induction n as [n IH] using lt_wf_ind. intros w Hn.
  rewrite loop_unroll.
  destruct (body w) as [[[[v |] | e] w'] |] eqn:E.
  - eauto.
  - pose proof (body_reads _ _ E) as Hlt.
    destruct (IH (List.length (stdin w')) ltac:(lia) w' eq_refl) as [r [w2 [H1 H2]]].
    exists r, w2. split; [exact H1 | eauto].
  - eauto.
  - exfalso. eapply body_total; eassumption.
Qed.

End Loop.

(** ** One turn of the menu loop *)

Lemma menu_choice_body_cases (w : world) :
  match stdin w with
  | [] =>
      menu_choice_body w = Some (Raise EOFError, write (Prompted menu_prompt) w)
  | CtrlC :: rest =>
      exists r w', menu_choice_body w = Some (Raise r, w') /\ stdin w' = rest /\
        ((r = SystemExit 1 /\ sigint_at_print w <> Some O /\
          stdout w' = stdout w ++ [Prompted menu_prompt; Printed cancelled]) \/
         (r = KeyboardInterrupt /\ sigint_at_print w' = None))
  | Line s :: rest =>
      match menu_choice_of s with
      | Some c =>
          menu_choice_body w =
          Some (Ok (Some c), extend w rest [Prompted menu_prompt] [])
      | None =>
          match sigint_at_print w with
          | None =>
              menu_choice_body w = Some (Ok None, extend w rest (menu_retry s) [])
          | Some n =>
              exists r w', menu_choice_body w = Some (r, w') /\ stdin w' = rest /\
                (r = Ok None \/ r = Raise (SystemExit 1) /\ List.last (stdout w') (Prompted "") = Printed cancelled \/
                 r = Raise KeyboardInterrupt /\ sigint_at_print w' = None)
          end
      end
  end.
Proof.
  destruct w as [i sg o l].
  unfold menu_choice_of.
  destruct i as [| [s |] rest]; [reflexivity | | ].
  - destruct (Py.int_of_string (Py.strip s)) as [n |] eqn:En;
      [destruct ((1 <=? n) && (n <=? 3))%bool eqn:Er |];
      destruct sg as [[| k] |];
      cbv beta iota zeta delta [menu_choice_body try_except bind input int_ ret raise print
                           logger sys_exit write stdin sigint_at_print stdout log
                           extend menu_retry];
      rewrite ?En; cbv beta iota; rewrite ?Er; cbv beta iota; rewrite <- ?app_assoc, ?app_nil_r;
      try reflexivity;
      eexists _, _; (split; [reflexivity|]); (split; [reflexivity|]);
      first [ left; reflexivity
            | right; left; split; [reflexivity | cbn [stdout]; rewrite ?app_assoc; apply last_last]
            | right; right; split; reflexivity ].
  - destruct sg as [[| k] |];
      cbv beta iota zeta delta [menu_choice_body try_except bind input int_ ret raise print
                           logger sys_exit write stdin sigint_at_print stdout log];
      eexists _, _; (split; [reflexivity|]); (split; [reflexivity|]);
      first [ right; split; reflexivity
            | left; split; [reflexivity|]; split; [discriminate|];
              rewrite <- ?app_assoc; reflexivity ].
Qed.


(** ** One turn of the numeric input loop *)

Lemma numeric_input_body_cases (prompt : string) (w : world) :
  match stdin w with
  | [] =>
      numeric_input_body prompt w = Some (Raise EOFError, write (Prompted prompt) w)
  | CtrlC :: rest =>
      exists r w', numeric_input_body prompt w = Some (Raise r, w') /\ stdin w' = rest /\
        ((r = SystemExit 1 /\ sigint_at_print w <> Some O /\
          stdout w' = stdout w ++ [Prompted prompt; Printed cancelled]) \/
         (r = KeyboardInterrupt /\ sigint_at_print w' = None))
  | Line s :: rest =>
      match Py.float_of_string (Py.strip s) with
      | Some v =>
          numeric_input_body prompt w =
          Some (Ok (Some v), extend w rest [Prompted prompt] [])
      | None =>
          exists r w', numeric_input_body prompt w = Some (r, w') /\ stdin w' = rest /\
            (r = Ok None \/ r = Raise KeyboardInterrupt /\ sigint_at_print w' = None)
      end
  end.
Proof.
  destruct w as [i sg o l].
  destruct i as [| [s |] rest]; [reflexivity | | ].
  - destruct (Py.float_of_string (Py.strip s)) as [v |] eqn:En;
      destruct sg as [[| k] |];
      cbv beta iota zeta delta [numeric_input_body try_except bind input float_ ret raise print
                           logger sys_exit write stdin sigint_at_print stdout log extend];
      rewrite ?En; cbv beta iota; rewrite <- ?app_assoc, ?app_nil_r;
      try reflexivity;
      eexists _, _; (split; [reflexivity|]); (split; [reflexivity|]);
      first [ left; reflexivity | right; split; reflexivity ].
  - destruct sg as [[| k] |];
      cbv beta iota zeta delta [numeric_input_body try_except bind input float_ ret raise print
                           logger sys_exit write stdin sigint_at_print stdout log];
      eexists _, _; (split; [reflexivity|]); (split; [reflexivity|]);
      first [ right; split; reflexivity
            | left; split; [reflexivity|]; split; [discriminate|];
              rewrite <- ?app_assoc; reflexivity ].
Qed.

(** ** What every part of the program guarantees *)

Lemma le_in_refl (w : world) : le_in w w.
Proof. unfold le_in. lia. Qed.

Lemma le_in_trans (w1 w2 w3 : world) : le_in w1 w2 -> le_in w2 w3 -> le_in w1 w3.
Proof. unfold le_in. lia. Qed.

Lemma good_ret {A : Type} (a : A) : good (ret a).
Proof.
  split; [intros w; discriminate|]. intros w r w' H. inversion H; subst.
  split; [apply le_in_refl | exact I].
Qed.

Lemma good_raise {A : Type} (e : exn) : is_Exception e = true -> good (@raise A e).
Proof.
  intros He. split; [intros w; discriminate|]. intros w r w' H. inversion H; subst.
  split; [apply le_in_refl|]. destruct e; try discriminate; exact I.
Qed.

Lemma good_logger (l : level) (msg : string) : good (logger l msg).
Proof.
  split; [intros w; discriminate|]. intros w r w' H. inversion H; subst.
  split; [unfold le_in; cbn; lia | exact I].
Qed.

Lemma good_print (s : string) : good (print s).
Proof.
  split.
  - intros w. unfold print. destruct (sigint_at_print w) as [[| n] |]; discriminate.
  - intros w r w' H. unfold print in H.
    destruct (sigint_at_print w) as [[| n] |]; inversion H; subst;
      (split; [unfold le_in; cbn; lia | cbn; auto]).
Qed.

Lemma good_bind {A B : Type} (m : M A) (k : A -> M B) :
  good m -> (forall a, good (k a)) -> good (bind m k).
Proof.
  intros [Tm Sm] Hk. split.
  - intros w. unfold bind. specialize (Tm w).
    destruct (m w) as [[[a | e] w1] |]; [apply Hk | discriminate | contradiction].
  - intros w r w' H. apply bind_inv in H.
    destruct H as [[a [w1 [H1 H2]]] | [e [H1 ->]]].
    + apply Sm in H1. apply (proj2 (Hk a)) in H2. destruct H1, H2.
      split; [eapply le_in_trans; eassumption | assumption].
    + apply Sm in H1. exact H1.
Qed.

Lemma good_try_except {A : Type} (body : M A) (handler : exn -> option (M A)) :
  good body -> (forall e h, handler e = Some h -> good h) ->
  good (try_except body handler).
Proof.
  intros [Tb Sb] Hh. split.
  - intros w. unfold try_except. specialize (Tb w).
    destruct (body w) as [[[a | e] w1] |]; [discriminate | | contradiction].
    destruct (handler e) as [h |] eqn:E; [apply (Hh e h E) | discriminate].
  - intros w r w' H. unfold try_except in H.
    destruct (body w) as [[[a | e] w1] |] eqn:Eb; [| | discriminate].
    + inversion H; subst. apply (Sb _ _ _ Eb).
    + destruct (handler e) as [h |] eqn:E.
      * apply (proj2 (Hh e h E)) in H. apply Sb in Eb. destruct H, Eb.
        split; [eapply le_in_trans; eassumption | assumption].
      * inversion H; subst. apply (Sb _ _ _ Eb).
Qed.

(** [print(...)] and then [sys.exit(1)] in the handlers of the two input
    loops. *)
Lemma good_cancel {A : Type} :
  good (bind (print cancelled) (fun _ => @sys_exit A 1)).
Proof.
  split.
  - intros w. unfold bind, print. destruct (sigint_at_print w) as [[| n] |]; discriminate.
  - intros w r w' H. unfold bind, print, sys_exit, raise in H.
    destruct (sigint_at_print w) as [[| n] |]; inversion H; subst;
      (split; [unfold le_in; cbn; lia |]); cbn; auto using last_last.
Qed.

Lemma good_lift_validate (temp : float) (scale : string) :
  good (lift (TemperatureConverter.validate_temperature temp scale)).
Proof.
  split; [intros w; discriminate|]. intros w r w' H. inversion H; subst.
  split; [apply le_in_refl|]. unfold TemperatureConverter.validate_temperature.
  repeat match goal with |- context [if ?b then _ else _] => destruct b end; exact I.
Qed.

Lemma good_display_menu : good display_menu.
Proof.
  unfold display_menu. repeat (apply good_bind; [apply good_print | intros _]).
  apply good_print.
Qed.

Lemma good_menu_choice_body : good menu_choice_body.
Proof.
  split.
  - intros w. pose proof (menu_choice_body_cases w) as H.
    destruct (stdin w) as [| [s |] rest].
    + rewrite H. discriminate.
    + destruct (menu_choice_of s); [rewrite H; discriminate |].
      destruct (sigint_at_print w); [| rewrite H; discriminate].
      destruct H as [r [w' [H _]]]. rewrite H. discriminate.
    + destruct H as [r [w' [H _]]]. rewrite H. discriminate.
  - intros w r w' Hr. pose proof (menu_choice_body_cases w) as H. unfold le_in.
    destruct (stdin w) as [| [s |] rest] eqn:Ei.
    + rewrite H in Hr. inversion Hr; subst. cbn. rewrite Ei. split; [cbn; lia | exact I].
    + destruct (menu_choice_of s).
      { rewrite H in Hr. inversion Hr; subst. cbn. split; [lia | exact I]. }
      destruct (sigint_at_print w).
      * destruct H as [r0 [w0 [H [Hs Hc]]]]. rewrite H in Hr. inversion Hr; subst.
        split; [cbn; lia|].
        destruct Hc as [-> | [[-> Hl] | [-> Hn]]]; cbn; auto.
      * rewrite H in Hr. inversion Hr; subst. cbn. split; [lia | exact I].
    + destruct H as [r0 [w0 [H [Hs Hc]]]]. rewrite H in Hr. inversion Hr; subst.
      split; [cbn; lia|].
      destruct Hc as [[-> [_ Hl]] | [-> Hn]]; cbn; [| exact Hn].
      split; [reflexivity|]. rewrite Hl.
      change [Prompted menu_prompt; Printed cancelled]
        with ([Prompted menu_prompt] ++ [Printed cancelled]).
      rewrite app_assoc. apply last_last.
Qed.

Lemma menu_choice_body_reads (w : world) (r : option Z) (w' : world) :
  menu_choice_body w = Some (Ok r, w') ->
  exists s, stdin w = Line s :: stdin w' /\ menu_choice_of s = r.
Proof.
  intros Hr. pose proof (menu_choice_body_cases w) as H.
  destruct (stdin w) as [| [s |] rest].
  - rewrite H in Hr. discriminate.
  - exists s. destruct (menu_choice_of s) as [c |].
    + rewrite H in Hr. inversion Hr; subst. cbn. auto.
    + destruct (sigint_at_print w).
      * destruct H as [r0 [w0 [H [Hs Hc]]]]. rewrite H in Hr. inversion Hr; subst.
        destruct Hc as [Hc | [[Hc _] | [Hc _]]]; inversion Hc; subst. auto.
      * rewrite H in Hr. inversion Hr; subst. cbn. auto.
  - destruct H as [r0 [w0 [H _]]]. rewrite H in Hr. discriminate.
Qed.

Lemma good_numeric_input_body (prompt : string) : good (numeric_input_body prompt).
Proof.
  split.
  - intros w. pose proof (numeric_input_body_cases prompt w) as H.
    destruct (stdin w) as [| [s |] rest].
    + rewrite H. discriminate.
    + destruct (Py.float_of_string (Py.strip s)); [rewrite H; discriminate |].
      destruct H as [r [w' [H _]]]. rewrite H. discriminate.
    + destruct H as [r [w' [H _]]]. rewrite H. discriminate.
  - intros w r w' Hr. pose proof (numeric_input_body_cases prompt w) as H. unfold le_in.
    destruct (stdin w) as [| [s |] rest] eqn:Ei.
    + rewrite H in Hr. inversion Hr; subst. cbn. rewrite Ei. split; [cbn; lia | exact I].
    + destruct (Py.float_of_string (Py.strip s)).
      { rewrite H in Hr. inversion Hr; subst. cbn. split; [lia | exact I]. }
      destruct H as [r0 [w0 [H [Hs Hc]]]]. rewrite H in Hr. inversion Hr; subst.
      split; [cbn; lia|].
      destruct Hc as [-> | [-> Hn]]; cbn; auto.
    + destruct H as [r0 [w0 [H [Hs Hc]]]]. rewrite H in Hr. inversion Hr; subst.
      split; [cbn; lia|].
      destruct Hc as [[-> [_ Hl]] | [-> Hn]]; cbn; [| exact Hn].
      split; [reflexivity|]. rewrite Hl.
      change [Prompted prompt; Printed cancelled]
        with ([Prompted prompt] ++ [Printed cancelled]).
      rewrite app_assoc. apply last_last.
Qed.

Lemma numeric_input_body_reads (prompt : string) (w : world) (r : option float) (w' : world) :
  numeric_input_body prompt w = Some (Ok r, w') ->
  exists s, stdin w = Line s :: stdin w' /\ Py.float_of_string (Py.strip s) = r.
Proof.
  intros Hr. pose proof (numeric_input_body_cases prompt w) as H.
  destruct (stdin w) as [| [s |] rest].
  - rewrite H in Hr. discriminate.
  - exists s. destruct (Py.float_of_string (Py.strip s)) as [c |].
    + rewrite H in Hr. inversion Hr; subst. cbn. auto.
    + destruct H as [r0 [w0 [H [Hs Hc]]]]. rewrite H in Hr. inversion Hr; subst.
      destruct Hc as [Hc | [Hc _]]; inversion Hc; subst. auto.
  - destruct H as [r0 [w0 [H _]]]. rewrite H in Hr. discriminate.
Qed.


(** ** The loops *)

Lemma good_loop {A : Type} (body : M (option A)) :
  good body ->
  (forall w w', body w = Some (Ok None, w') ->
                (List.length (stdin w') < List.length (stdin w))%nat) ->
  good (with_fuel (while_true body)).
Proof.
  intros [Tb Sb] Hreads.
  assert (H : forall w, exists r w', with_fuel (while_true body) w = Some (r, w')
                                      /\ (le_in w w' /\ exc_ok r w')).
  { apply (loop_ind body Tb Hreads (fun w r w' => le_in w w' /\ exc_ok r w')).
    - intros w v w' E. apply Sb in E. destruct E. split; [assumption | exact I].
    - intros w e w' E. apply Sb in E. exact E.
    - intros w w1 r w' E [H1 H2]. apply Sb in E. destruct E as [E _].
      split; [eapply le_in_trans; eassumption | assumption]. }
  split.
  - intros w. destruct (H w) as [r [w' [E _]]]. rewrite E. discriminate.
  - intros w r w' E. destruct (H w) as [r0 [w0 [E0 P]]]. rewrite E in E0.
    inversion E0; subst. exact P.
Qed.

Lemma loop_strict {A : Type} (body : M (option A)) :
  good body ->
  (forall w r w', body w = Some (Ok r, w') ->
                  (List.length (stdin w') < List.length (stdin w))%nat) ->
  forall w v w', with_fuel (while_true body) w = Some (Ok v, w') ->
                 (List.length (stdin w') < List.length (stdin w))%nat.
Proof.
  intros [Tb Sb] Hreads w v w' E.
  assert (Hr : forall w w', body w = Some (Ok None, w') ->
                            (List.length (stdin w') < List.length (stdin w))%nat)
    by (intros; eapply Hreads; eassumption).
  destruct (loop_ind body Tb Hr
              (fun w r w' => match r with
                             | Ok _ => (List.length (stdin w') < List.length (stdin w))%nat
                             | Raise _ => True
                             end)) with (w := w) as [r0 [w0 [E0 P]]].
  - intros w2 v2 w2' E2. eapply Hreads; eassumption.
  - intros; exact I.
  - intros w2 w3 r w4 E2 P. destruct r; [| exact I]. apply Hr in E2. lia.
  - rewrite E in E0. inversion E0; subst. exact P.
Qed.

Lemma menu_choice_body_strict (w : world) (r : option Z) (w' : world) :
  menu_choice_body w = Some (Ok r, w') ->
  (List.length (stdin w') < List.length (stdin w))%nat.
Proof.
  intros H. apply menu_choice_body_reads in H. destruct H as [s [-> _]]. cbn. lia.
Qed.

Lemma numeric_input_body_strict (prompt : string) (w : world) (r : option float) (w' : world) :
  numeric_input_body prompt w = Some (Ok r, w') ->
  (List.length (stdin w') < List.length (stdin w))%nat.
Proof.
  intros H. apply numeric_input_body_reads in H. destruct H as [s [-> _]]. cbn. lia.
Qed.

Lemma good_get_valid_menu_choice : good get_valid_menu_choice.
Proof.
  apply good_loop; [apply good_menu_choice_body |].
  intros w w'. apply menu_choice_body_strict.
Qed.

Lemma good_get_valid_numeric_input (prompt : string) : good (get_valid_numeric_input prompt).
Proof.
  apply good_loop; [apply good_numeric_input_body |].
  intros w w'. apply numeric_input_body_strict.
Qed.

Lemma get_valid_menu_choice_strict (w : world) (c : Z) (w' : world) :
  get_valid_menu_choice w = Some (Ok c, w') ->
  (List.length (stdin w') < List.length (stdin w))%nat.
Proof.
  apply loop_strict; [apply good_menu_choice_body |].
  apply menu_choice_body_strict.
Qed.

Lemma good_convert (choice : Z) : good (convert choice).
Proof.
  unfold convert. destruct (choice =? 1); [| destruct (choice =? 2)].
  - apply good_bind; [apply good_get_valid_numeric_input | intros celsius].
    apply good_bind; [apply good_lift_validate | intros _].
    apply good_bind; [apply good_print | intros _]. apply good_logger.
  - apply good_bind; [apply good_get_valid_numeric_input | intros fahrenheit].
    apply good_bind; [apply good_lift_validate | intros _].
    apply good_bind; [apply good_print | intros _]. apply good_logger.
  - apply good_ret.
Qed.

Lemma good_conversion_handler (e : exn) (h : M unit) :
  conversion_handler e = Some h -> good h.
Proof.
  unfold conversion_handler. destruct e; cbn; intros H; inversion H; subst;
    (apply good_bind; [apply good_print | intros _; apply good_logger]).
Qed.

Lemma good_run_body : good run_body.
Proof.
  unfold run_body.
  apply good_bind; [apply good_display_menu | intros _].
  apply good_bind; [apply good_get_valid_menu_choice | intros choice].
  destruct (choice =? 3).
  - apply good_bind; [apply good_print | intros _; apply good_ret].
  - apply good_bind; [| intros _; apply good_ret].
    apply good_try_except; [apply good_convert | apply good_conversion_handler].
Qed.

Lemma run_body_strict (w : world) (w' : world) :
  run_body w = Some (Ok None, w') ->
  (List.length (stdin w') < List.length (stdin w))%nat.
Proof.
  unfold run_body. intros H.
  apply bind_inv in H. destruct H as [[[] [w1 [H1 H]]] | [e [_ H]]]; [| discriminate].
  apply (proj2 good_display_menu) in H1. destruct H1 as [L1 _].
  apply bind_inv in H. destruct H as [[choice [w2 [H2 H]]] | [e [_ H]]]; [| discriminate].
  apply get_valid_menu_choice_strict in H2.
  assert (L3 : le_in w2 w').
  { destruct (choice =? 3).
    - apply (proj2 (good_bind _ _ (good_print goodbye) (fun _ => good_ret (Some tt)))) in H.
      apply H.
    - assert (G : good (bind (try_except (convert choice) conversion_handler)
                          (fun _ => ret (@None unit)))).
      { apply good_bind; [| intros _; apply good_ret].
        apply good_try_except; [apply good_convert | apply good_conversion_handler]. }
      apply (proj2 G) in H. apply H. }
  unfold le_in in *. lia.
Qed.

Lemma good_run_loop : good run_loop.
Proof.
  apply good_loop; [apply good_run_body | apply run_body_strict].
Qed.

(** The loop of [run] is left normally only through the goodbye. *)
Lemma run_loop_goodbye (w : world) (w' : world) :
  run_loop w = Some (Ok tt, w') ->
  List.last (stdout w') (Prompted "") = Printed goodbye.
Proof.
  intros E.
  destruct (loop_ind run_body (proj1 good_run_body) run_body_strict
              (fun w r w' => match r with
                             | Ok _ => List.last (stdout w') (Prompted "") = Printed goodbye
                             | Raise _ => True
                             end)) with (w := w) as [r0 [w0 [E0 P]]].
  - intros w2 [] w2' H. unfold run_body in H.
    apply bind_inv in H. destruct H as [[[] [w3 [_ H]]] | [e [_ H]]]; [| discriminate].
    apply bind_inv in H. destruct H as [[choice [w4 [_ H]]] | [e [_ H]]]; [| discriminate].
    destruct (choice =? 3).
    + apply bind_inv in H. destruct H as [[[] [w5 [H5 H]]] | [e [_ H]]]; [| discriminate].
      inversion H; subst. unfold print in H5.
      destruct (sigint_at_print w4) as [[| n] |]; inversion H5; subst; cbn; apply last_last.
    + apply bind_inv in H. destruct H as [[[] [w5 [_ H]]] | [e [_ H]]]; discriminate.
  - intros; exact I.
  - intros w2 w3 r w4 _ P. exact P.
  - unfold run_loop in E. rewrite E in E0. inversion E0; subst. exact P.
Qed.

End ShellFacts.

(* ================================================================== *)
(** * What reaches standard output *)
(* ================================================================== *)

Module ShellOutput.

Import Console TemperatureConverterApp Guarantees.
Local Open Scope console_scope.

Lemma shows_weaken {A : Type} (out : list output) (m : M A) : shows out m -> shows [] m.
Proof.
  intros H w r w' E. destruct (H w r w' E) as [more Hm]. exists (out ++ more). exact Hm.
Qed.

Lemma shows_ret {A : Type} (a : A) : shows [] (ret a).
Proof. intros w r w' H. inversion H; subst. exists []. cbn. rewrite ?app_nil_r. reflexivity. Qed.

Lemma shows_raise {A : Type} (e : exn) : shows [] (@raise A e).
Proof. intros w r w' H. inversion H; subst. exists []. cbn. rewrite ?app_nil_r. reflexivity. Qed.

Lemma shows_lift {A : Type} (x : result A) : shows [] (lift x).
Proof. intros w r w' H. inversion H; subst. exists []. cbn. rewrite ?app_nil_r. reflexivity. Qed.

Lemma shows_logger (l : level) (msg : string) : shows [] (logger l msg).
Proof. intros w r w' H. inversion H; subst. exists []. cbn. rewrite ?app_nil_r. reflexivity. Qed.

Lemma shows_print (s : string) : shows [] (print s).
Proof.
  intros w r w' H. unfold print in H.
  destruct (sigint_at_print w) as [[| n] |]; inversion H; subst; cbn.
  - exists []. cbn. rewrite ?app_nil_r. reflexivity.
  - exists [Printed s]. reflexivity.
  - exists [Printed s]. reflexivity.
Qed.

Lemma shows_input (prompt : string) : shows [Prompted prompt] (input prompt).
Proof.
  intros w r w' H. unfold input in H. cbn [write stdin] in H.
  destruct (stdin w) as [| [s |] rest]; inversion H; subst; cbn;
    exists []; cbn; rewrite ?app_nil_r; reflexivity.
Qed.

Lemma shows_bind {A B : Type} (out : list output) (m : M A) (k : A -> M B) :
  shows out m -> (forall a, shows [] (k a)) -> shows out (bind m k).
Proof.
  intros Hm Hk w r w' H. apply ShellFacts.bind_inv in H.
  destruct H as [[a [w1 [H1 H2]]] | [e [H1 ->]]].
  - destruct (Hm _ _ _ H1) as [m1 E1]. destruct (Hk a _ _ _ H2) as [m2 E2].
    exists (m1 ++ m2). rewrite E2, E1. cbn [app]. rewrite <- !app_assoc. reflexivity.
  - exact (Hm _ _ _ H1).
Qed.

Lemma shows_try_except {A : Type} (out : list output) (body : M A)
      (handler : exn -> option (M A)) :
  shows out body -> (forall e h, handler e = Some h -> shows [] h) ->
  shows out (try_except body handler).
Proof.
  intros Hb Hh w r w' H. unfold try_except in H.
  destruct (body w) as [[[a | e] w1] |] eqn:Eb; [| | discriminate].
  - inversion H; subst. exact (Hb _ _ _ Eb).
  - destruct (handler e) as [h |] eqn:E.
    + destruct (Hb _ _ _ Eb) as [m1 E1]. destruct (Hh e h E _ _ _ H) as [m2 E2].
      exists (m1 ++ m2). rewrite E2, E1. cbn [app]. rewrite <- !app_assoc. reflexivity.
    + inversion H; subst. exact (Hb _ _ _ Eb).
Qed.

Lemma shows_while_true {A : Type} (out : list output) (body : M (option A)) :
  shows out body -> forall fuel, shows out (while_true body fuel).
Proof.
  intros Hb fuel. induction fuel as [| fuel IH]; [intros w r w' H; discriminate|].
  cbn [while_true]. apply shows_bind; [exact Hb|].
  intros [v |]; [apply shows_ret | exact (shows_weaken _ _ IH)].
Qed.

Lemma shows_with_fuel {A : Type} (out : list output) (loop : nat -> M A) :
  (forall fuel, shows out (loop fuel)) -> shows out (with_fuel loop).
Proof. intros H w r w' E. exact (H _ w r w' E). Qed.

Lemma shows_get_valid_menu_choice : shows [Prompted menu_prompt] get_valid_menu_choice.
Proof.
  apply shows_with_fuel, shows_while_true. unfold menu_choice_body.
  apply shows_try_except.
  - apply shows_bind; [apply shows_input | intros s].
    apply shows_bind; [unfold int_; destruct (Py.int_of_string _);
                       [apply shows_ret | apply shows_raise] | intros choice].
    destruct ((1 <=? choice)%Z && (choice <=? 3)%Z)%bool; [apply shows_ret|].
    apply shows_bind; [apply shows_print | intros _; apply shows_ret].
  - intros e h He. destruct e; inversion He; subst.
    + apply shows_bind; [apply shows_print | intros _; apply shows_ret].
    + apply shows_bind; [apply shows_logger | intros _].
      apply shows_bind; [apply shows_print | intros _; apply shows_raise].
Qed.

Lemma shows_get_valid_numeric_input (prompt : string) :
  shows [Prompted prompt] (get_valid_numeric_input prompt).
Proof.
  apply shows_with_fuel, shows_while_true. unfold numeric_input_body.
  apply shows_try_except.
  - apply shows_bind; [apply shows_input | intros s].
    apply shows_bind; [unfold float_; destruct (Py.float_of_string _);
                       [apply shows_ret | apply shows_raise] | intros v; apply shows_ret].
  - intros e h He. destruct e; inversion He; subst.
    + apply shows_bind; [apply shows_print | intros _; apply shows_ret].
    + apply shows_bind; [apply shows_logger | intros _].
      apply shows_bind; [apply shows_print | intros _; apply shows_raise].
Qed.

Lemma shows_convert (choice : Z) : shows [] (convert choice).
Proof.
  unfold convert.
  destruct (choice =? 1)%Z; [| destruct (choice =? 2)%Z; [| apply shows_ret]];
    (apply shows_bind;
     [exact (shows_weaken _ _ (shows_get_valid_numeric_input _)) | intros v];
     apply shows_bind; [apply shows_lift | intros _];
     apply shows_bind; [apply shows_print | intros _; apply shows_logger]).
Qed.

Lemma shows_conversion_handler (e : exn) (h : M unit) :
  conversion_handler e = Some h -> shows [] h.
Proof.
  intros He. destruct e; cbn in He; inversion He; subst;
    (apply shows_bind; [apply shows_print | intros _; apply shows_logger]).
Qed.

(** What follows the menu in a turn of the loop of [run]. *)
Lemma shows_after_menu :
  shows [Prompted menu_prompt]
    (choice <- get_valid_menu_choice ;;
     if (choice =? 3)%Z then print goodbye ;; ret (Some tt)
     else try_except (convert choice) conversion_handler ;; ret None).
Proof.
  apply shows_bind; [apply shows_get_valid_menu_choice | intros choice].
  destruct (choice =? 3)%Z.
  - apply shows_bind; [apply shows_print | intros _; apply shows_ret].
  - apply shows_bind; [| intros _; apply shows_ret].
    apply shows_try_except; [apply shows_convert | apply shows_conversion_handler].
Qed.

Lemma shows_run_body : shows [] run_body.
Proof.
  unfold run_body. apply shows_bind; [| intros _; exact (shows_weaken _ _ shows_after_menu)].
  unfold display_menu. repeat (apply shows_bind; [apply shows_print | intros _]).
  apply shows_print.
Qed.

Lemma shows_run_loop : shows [] run_loop.
Proof. apply shows_with_fuel, shows_while_true, shows_run_body. Qed.

(** A run that starts with no signal pending prints the menu and the menu
    prompt before anything else. *)
Lemma run_loop_shows_menu (w : world) (r : result unit) (w' : world) :
  sigint_at_print w = None -> run_loop w = Some (r, w') ->
  exists more, stdout w' = stdout w ++ menu ++ [Prompted menu_prompt] ++ more.
Proof.
  intros Hsig H. unfold run_loop in H.
  rewrite (ShellFacts.loop_unroll _ ShellFacts.run_body_strict) in H.
  destruct (run_body w) as [[[[v |] | e] w1] |] eqn:Eb; try discriminate.
  - inversion H; subst. unfold run_body, bind at 1 in Eb.
    destruct w as [i sg o l]. cbn in Hsig. subst sg.
    cbv beta iota zeta delta [display_menu bind print write stdin sigint_at_print stdout log]
      in Eb.
    destruct (shows_after_menu _ _ _ Eb) as [more Hm]. exists more.
    rewrite Hm. cbn [stdout menu]. rewrite <- !app_assoc. reflexivity.
  - destruct (shows_run_loop _ _ _ H) as [m2 E2]. unfold run_body, bind at 1 in Eb.
    destruct w as [i sg o l]. cbn in Hsig. subst sg.
    cbv beta iota zeta delta [display_menu bind print write stdin sigint_at_print stdout log]
      in Eb.
    destruct (shows_after_menu _ _ _ Eb) as [m1 E1]. exists (m1 ++ m2).
    rewrite E2, E1. cbn [stdout menu app]. rewrite <- !app_assoc. reflexivity.
  - inversion H; subst. unfold run_body, bind at 1 in Eb.
    destruct w as [i sg o l]. cbn in Hsig. subst sg.
    cbv beta iota zeta delta [display_menu bind print write stdin sigint_at_print stdout log]
      in Eb.
    destruct (shows_after_menu _ _ _ Eb) as [more Hm]. exists more.
    rewrite Hm. cbn [stdout menu]. rewrite <- !app_assoc. reflexivity.
Qed.

End ShellOutput.

(* ================================================================== *)
(** * The converter *)
(* ================================================================== *)

Import TemperatureConverter.

Local Open Scope string_scope.
Local Open Scope list_scope.

(** ** Bounds of [validate_temperature] *)

(** The lower bounds are the binary64 numbers nearest to -273.15 and
    -459.67; the upper bounds are 1000 and 1832 exactly. *)
Lemma bounds_values :
  (Binary64.to_Q celsius_min == - (4805305618032230 # 17592186044416))%Q /\
  (Binary64.to_Q celsius_max == 1000)%Q /\
  (Binary64.to_Q fahrenheit_min == - (8086600159036703 # 17592186044416))%Q /\
  (Binary64.to_Q fahrenheit_max == 1832)%Q /\
  (Qabs (Binary64.to_Q celsius_min - - (27315 # 100)) <= 1 # 35184372088832)%Q /\
  (Qabs (Binary64.to_Q fahrenheit_min - - (45967 # 100)) <= 1 # 35184372088832)%Q.
Proof. repeat split; vm_compute; congruence. Qed.

Lemma bounds_valid :
  Binary64.valid celsius_min = true /\ Binary64.valid celsius_max = true /\
  Binary64.valid fahrenheit_min = true /\ Binary64.valid fahrenheit_max = true.
Proof. repeat split; reflexivity. Qed.

(** The comparisons of the program, read on the extended reals. *)
Lemma ltb_view (x y : float) :
  Binary64.valid x = true -> Binary64.valid y = true ->
  (Binary64.ltb x y = true <-> Binary64.xlt (Binary64.view x) (Binary64.view y)).
Proof. apply Binary64Facts.ltb_spec. Qed.

Lemma out_of_range_view (temp lo hi : float) :
  Binary64.valid temp = true -> Binary64.valid lo = true -> Binary64.valid hi = true ->
  (Binary64.ltb temp lo || Binary64.gtb temp hi = true <->
   Binary64.xlt (Binary64.view temp) (Binary64.view lo) \/
   Binary64.xlt (Binary64.view hi) (Binary64.view temp)).
Proof.
  intros Ht Hlo Hhi. rewrite orb_true_iff. unfold Binary64.gtb.
  rewrite (ltb_view temp lo Ht Hlo). fold (Binary64.ltb hi temp).
  rewrite (ltb_view hi temp Hhi Ht). reflexivity.
Qed.

(** C1: [validate_temperature] raises [TemperatureConversionError], with a
    message that names the scale and shows the value, exactly when the value
    is below the lower bound or above the upper bound of its scale, for
    Celsius the bounds -273.15 and 1000 and for Fahrenheit -459.67 and 1832;
    every other value, the bounds included, is accepted with [Ok tt].  The
    function is pure: its result is all it produces. *)
Theorem validate_temperature_range (temp : float) :
  Binary64.valid temp = true ->
  let below (lo : float) := Binary64.xlt (Binary64.view temp) (Binary64.view lo) in
  let above (hi : float) := Binary64.xlt (Binary64.view hi) (Binary64.view temp) in
  (validate_temperature temp "C"
   = Raise (TemperatureConversionError
             ("Invalid Celsius temperature: " ++ Py.float_str temp)%string)
   <-> below celsius_min \/ above celsius_max) /\
  (validate_temperature temp "C" = Ok tt
   <-> ~ (below celsius_min \/ above celsius_max)) /\
  (validate_temperature temp "F"
   = Raise (TemperatureConversionError
             ("Invalid Fahrenheit temperature: " ++ Py.float_str temp)%string)
   <-> below fahrenheit_min \/ above fahrenheit_max) /\
  (validate_temperature temp "F" = Ok tt
   <-> ~ (below fahrenheit_min \/ above fahrenheit_max)).
Proof.
  intros Hv below above. destruct bounds_valid as [V1 [V2 [V3 V4]]].
  pose proof (out_of_range_view temp celsius_min celsius_max Hv V1 V2) as HC.
  pose proof (out_of_range_view temp fahrenheit_min fahrenheit_max Hv V3 V4) as HF.
  fold (below celsius_min) (above celsius_max) in HC.
  fold (below fahrenheit_min) (above fahrenheit_max) in HF.
  unfold validate_temperature. cbn [String.eqb Ascii.eqb Bool.eqb andb].
  destruct (Binary64.ltb temp celsius_min || Binary64.gtb temp celsius_max);
    destruct (Binary64.ltb temp fahrenheit_min || Binary64.gtb temp fahrenheit_max);
    repeat split; intros H; try discriminate; try reflexivity;
    try (apply HC; reflexivity); try (apply HF; reflexivity);
    try (intros G; apply HC in G; discriminate);
    try (intros G; apply HF in G; discriminate);
    try (exfalso; apply H; apply HC; reflexivity);
    try (exfalso; apply H; apply HF; reflexivity);
    try (apply HC in H; discriminate); try (apply HF in H; discriminate).
Qed.

(** -300 degrees Celsius is refused, and the message shows it. *)
Lemma validate_temperature_range_witness :
  Binary64.valid (literal "-300") = true /\
  validate_temperature (literal "-300") "C"
  = Raise (TemperatureConversionError "Invalid Celsius temperature: -300.0").
Proof.
  split; [reflexivity|].
  destruct (validate_temperature_range (literal "-300") eq_refl) as [H _].
  apply H. left. vm_compute. reflexivity.
Defined.

(** A value that is not a number is below no bound and above none: it is
    accepted. *)
Lemma validate_temperature_nan (scale : string) :
  validate_temperature S754_nan scale = Ok tt.
Proof.
  unfold validate_temperature. cbn [Binary64.ltb Binary64.gtb SFltb SFcompare orb].
  rewrite !andb_false_r. reflexivity.
Qed.

(** C10: for a scale other than "C" and "F", [validate_temperature] accepts
    every value. *)
Theorem validate_temperature_unknown_scale (temp : float) (scale : string) :
  scale <> "C" -> scale <> "F" -> validate_temperature temp scale = Ok tt.
Proof.
  intros HC HF. unfold validate_temperature.
  apply String.eqb_neq in HC, HF. rewrite HC, HF. reflexivity.
Qed.

Lemma validate_temperature_unknown_scale_witness :
  "K" <> "C" /\ "K" <> "F" /\
  validate_temperature (S754_infinity true) "K" = Ok tt.
Proof.
  split; [discriminate|]. split; [discriminate|].
  apply (validate_temperature_unknown_scale (S754_infinity true) "K"); discriminate.
Defined.

(** An accepted value that is a number lies between the bounds, so within
    [1024] for Celsius and within [2048] for Fahrenheit. *)
Lemma accepted_celsius_bounded (c : float) :
  Binary64.valid c = true -> Binary64.is_finite c = true ->
  validate_temperature c "C" = Ok tt ->
  (- (4805305618032230 # 17592186044416) <= Binary64.to_Q c <= 1000)%Q.
Proof.
  intros Hv Hf Hok. destruct bounds_valid as [V1 [V2 _]].
  pose proof (out_of_range_view c celsius_min celsius_max Hv V1 V2) as HC.
  unfold validate_temperature in Hok. cbn [String.eqb Ascii.eqb Bool.eqb andb] in Hok.
  destruct (Binary64.ltb c celsius_min || Binary64.gtb c celsius_max); [discriminate|].
  destruct bounds_values as [B1 [B2 _]].
  assert (Hview : Binary64.view c = Binary64.Real (Binary64.to_Q c))
    by (destruct c; try discriminate; reflexivity).
  rewrite Hview in HC.
  change (Binary64.view celsius_min) with (Binary64.Real (Binary64.to_Q celsius_min)) in HC.
  change (Binary64.view celsius_max) with (Binary64.Real (Binary64.to_Q celsius_max)) in HC.
  cbn [Binary64.xlt] in HC. rewrite B1, B2 in HC.
  split; apply Qnot_lt_le; intros H; (assert (false = true) by (apply HC; auto));
    discriminate.
Qed.

Lemma accepted_fahrenheit_bounded (f : float) :
  Binary64.valid f = true -> Binary64.is_finite f = true ->
  validate_temperature f "F" = Ok tt ->
  (- (8086600159036703 # 17592186044416) <= Binary64.to_Q f <= 1832)%Q.
Proof.
  intros Hv Hf Hok. destruct bounds_valid as [_ [_ [V3 V4]]].
  pose proof (out_of_range_view f fahrenheit_min fahrenheit_max Hv V3 V4) as HF.
  unfold validate_temperature in Hok. cbn [String.eqb Ascii.eqb Bool.eqb andb] in Hok.
  destruct (Binary64.ltb f fahrenheit_min || Binary64.gtb f fahrenheit_max); [discriminate|].
  destruct bounds_values as [_ [_ [B3 [B4 _]]]].
  assert (Hview : Binary64.view f = Binary64.Real (Binary64.to_Q f))
    by (destruct f; try discriminate; reflexivity).
  rewrite Hview in HF.
  change (Binary64.view fahrenheit_min)
    with (Binary64.Real (Binary64.to_Q fahrenheit_min)) in HF.
  change (Binary64.view fahrenheit_max)
    with (Binary64.Real (Binary64.to_Q fahrenheit_max)) in HF.
  cbn [Binary64.xlt] in HF. rewrite B3, B4 in HF.
  split; apply Qnot_lt_le; intros H; (assert (false = true) by (apply HF; auto));
    discriminate.
Qed.

(** ** The two formulas *)

(** C2: [celsius_to_fahrenheit c] is [c * 9/5 + 32] and
    [fahrenheit_to_celsius f] is [(f - 32) * 5/9]: exactly so on exact
    rationals; on floats they are these expressions with every operation
    rounded, which for values up to 1024 and 2048 is within [2 * 10^-12] and
    [10^-12] of the exact value.  They send 0 to 32, 100 to 212, -40 to -40,
    and 32 to 0, 212 to 100.  Both are total functions and raise nothing. *)
Theorem conversion_formulas :
  (forall c : Q, celsius_to_fahrenheit c == c * (9 # 5) + 32)%Q /\
  (forall f : Q, fahrenheit_to_celsius f == (f - 32) * (5 # 9))%Q /\
  (forall c : float,
      celsius_to_fahrenheit c
      = Binary64.add (Binary64.div (Binary64.mul c (Binary64.of_int 9)) (Binary64.of_int 5))
                     (Binary64.of_int 32)) /\
  (forall f : float,
      fahrenheit_to_celsius f
      = Binary64.div (Binary64.mul (Binary64.sub f (Binary64.of_int 32)) (Binary64.of_int 5))
                     (Binary64.of_int 9)) /\
  (forall c : float,
      Binary64.valid c = true -> Binary64.is_finite c = true ->
      (Qabs (Binary64.to_Q c) <= 1024)%Q ->
      (Qabs (Binary64.to_Q (celsius_to_fahrenheit c) - (Binary64.to_Q c * (9 # 5) + 32))
       <= 1 # 500000000000)%Q) /\
  (forall f : float,
      Binary64.valid f = true -> Binary64.is_finite f = true ->
      (Qabs (Binary64.to_Q f) <= 2048)%Q ->
      (Qabs (Binary64.to_Q (fahrenheit_to_celsius f) - (Binary64.to_Q f - 32) * (5 # 9))
       <= 1 # 1000000000000)%Q) /\
  celsius_to_fahrenheit (Binary64.of_int 0) = Binary64.of_int 32 /\
  celsius_to_fahrenheit (Binary64.of_int 100) = Binary64.of_int 212 /\
  celsius_to_fahrenheit (Binary64.of_int (-40)) = Binary64.of_int (-40) /\
  fahrenheit_to_celsius (Binary64.of_int 32) = Binary64.of_int 0 /\
  fahrenheit_to_celsius (Binary64.of_int 212) = Binary64.of_int 100.
Proof.
  split; [intros c; unfold celsius_to_fahrenheit; cbn; field |].
  split; [intros f; unfold fahrenheit_to_celsius; cbn; field |].
  split; [intros c; reflexivity |].
  split; [intros f; reflexivity |].
  split; [exact RoundTrip.c2f_accuracy |].
  split; [exact RoundTrip.f2c_accuracy |].
  repeat split; vm_compute; reflexivity.
Qed.

(** 37 degrees Celsius: the float result is 98.6 up to rounding. *)
Lemma conversion_formulas_witness :
  let c := literal "37" in
  Binary64.valid c = true /\ Binary64.is_finite c = true /\
  (Qabs (Binary64.to_Q c) <= 1024)%Q /\
  (Qabs (Binary64.to_Q (celsius_to_fahrenheit c) - (Binary64.to_Q c * (9 # 5) + 32))
   <= 1 # 500000000000)%Q.
Proof.
  intros c.
  assert (Hc : (Qabs (Binary64.to_Q c) <= 1024)%Q) by (vm_compute; discriminate).
  split; [reflexivity|]. split; [reflexivity|]. split; [exact Hc|].
  exact (proj1 (proj2 (proj2 (proj2 (proj2 conversion_formulas)))) c eq_refl eq_refl Hc).
Defined.

(** ** Round trips *)

(** C3, as the program has it: on exact rationals
    [fahrenheit_to_celsius (celsius_to_fahrenheit c)] is [c].  On floats the
    result is not [c] in general, and the law holds up to rounding wherever
    no operation overflows: whenever the result is finite, it is within
    [10^-11 + 10^-14 * |c|] of [c].  No operation overflows for
    [|c| <= 5 * 10^306]; and for [|c| <= 1024], which covers every accepted
    Celsius value, the result is within [10^-11] of [c]. *)
Theorem celsius_round_trip :
  (forall c : Q, fahrenheit_to_celsius (celsius_to_fahrenheit c) == c)%Q /\
  (forall c : float,
      Binary64.valid c = true -> Binary64.is_finite c = true ->
      let r := fahrenheit_to_celsius (celsius_to_fahrenheit c) in
      Binary64.is_finite r = true ->
      (Qabs (Binary64.to_Q r - Binary64.to_Q c)
       <= (1 # 100000000000) + Qabs (Binary64.to_Q c) * (1 # 100000000000000))%Q) /\
  (forall c : float,
      Binary64.valid c = true -> Binary64.is_finite c = true ->
      (Qabs (Binary64.to_Q c) <= inject_Z (5 * 10 ^ 306))%Q ->
      Binary64.is_finite (fahrenheit_to_celsius (celsius_to_fahrenheit c)) = true) /\
  (forall c : float,
      Binary64.valid c = true -> Binary64.is_finite c = true ->
      (Qabs (Binary64.to_Q c) <= 1024)%Q ->
      let r := fahrenheit_to_celsius (celsius_to_fahrenheit c) in
      Binary64.is_finite r = true /\
      (Qabs (Binary64.to_Q r - Binary64.to_Q c) <= 1 # 100000000000)%Q).
Proof.
  split; [| split; [| split]].
  - intros c. unfold fahrenheit_to_celsius, celsius_to_fahrenheit. cbn. field.
  - intros c Hv Hf r Hr.
    exact (proj2 (RoundTripWide.c2f_f2c_error_wide c Hv Hf (or_intror Hr))).
  - intros c Hv Hf Hc.
    exact (proj1 (RoundTripWide.c2f_f2c_error_wide c Hv Hf (or_introl Hc))).
  - intros c Hv Hf Hc r. apply Qabs_Qle_condition in Hc.
    destruct (RoundTrip.c2f_f2c_error c Hv Hf) as [Hfin Herr].
    { change (-1024)%Q with (- (1024))%Q. exact Hc. }
    split; [exact Hfin|]. apply Qabs_Qle_condition. fold r in Herr. lra.
Qed.

(** 10^300 degrees: nothing overflows, and the way back is within
    [10^-11 + 10^286]. *)
Lemma celsius_round_trip_witness :
  let c := literal "1e300" in
  let r := fahrenheit_to_celsius (celsius_to_fahrenheit c) in
  Binary64.valid c = true /\ Binary64.is_finite c = true /\
  Binary64.is_finite r = true /\
  (Qabs (Binary64.to_Q r - Binary64.to_Q c)
   <= (1 # 100000000000) + Qabs (Binary64.to_Q c) * (1 # 100000000000000))%Q.
Proof.
  intros c r.
  assert (Hv : Binary64.valid c = true) by (vm_compute; reflexivity).
  assert (Hf : Binary64.is_finite c = true) by (vm_compute; reflexivity).
  assert (Hr : Binary64.is_finite r = true) by (vm_compute; reflexivity).
  split; [exact Hv|]. split; [exact Hf|]. split; [exact Hr|].
  exact (proj1 (proj2 celsius_round_trip) c Hv Hf Hr).
Defined.

(** The law as the specification words it fails on floats: the largest finite float comes back
    as infinity, and 1.0 comes back as 0.9999999999999984. *)
Lemma celsius_round_trip_counterexample :
  Binary64.valid Binary64.max_float = true /\
  Binary64.is_finite Binary64.max_float = true /\
  fahrenheit_to_celsius (celsius_to_fahrenheit Binary64.max_float) = S754_infinity false /\
  fahrenheit_to_celsius (celsius_to_fahrenheit (literal "1.0")) = literal "0.9999999999999984" /\
  literal "0.9999999999999984" <> literal "1.0".
Proof. repeat split; try (vm_compute; reflexivity). vm_compute. discriminate. Qed.

(** C9, as the program has it: on exact rationals the two conversions are
    inverse to each other in both orders.  On floats
    [celsius_to_fahrenheit (fahrenheit_to_celsius f)] is not [f] in general
    and the conversions are no bijections; the law holds up to rounding
    wherever no operation overflows: whenever the result is finite, it is
    within [10^-11 + 10^-14 * |f|] of [f].  No operation overflows for
    [|f| <= 5 * 10^306]; and for [|f| <= 2048], which covers every accepted
    Fahrenheit value, the result is within [10^-11] of [f]. *)
Theorem fahrenheit_round_trip :
  (forall f : Q, celsius_to_fahrenheit (fahrenheit_to_celsius f) == f)%Q /\
  (forall c : Q, fahrenheit_to_celsius (celsius_to_fahrenheit c) == c)%Q /\
  (forall f : float,
      Binary64.valid f = true -> Binary64.is_finite f = true ->
      let r := celsius_to_fahrenheit (fahrenheit_to_celsius f) in
      Binary64.is_finite r = true ->
      (Qabs (Binary64.to_Q r - Binary64.to_Q f)
       <= (1 # 100000000000) + Qabs (Binary64.to_Q f) * (1 # 100000000000000))%Q) /\
  (forall f : float,
      Binary64.valid f = true -> Binary64.is_finite f = true ->
      (Qabs (Binary64.to_Q f) <= inject_Z (5 * 10 ^ 306))%Q ->
      Binary64.is_finite (celsius_to_fahrenheit (fahrenheit_to_celsius f)) = true) /\
  (forall f : float,
      Binary64.valid f = true -> Binary64.is_finite f = true ->
      (Qabs (Binary64.to_Q f) <= 2048)%Q ->
      let r := celsius_to_fahrenheit (fahrenheit_to_celsius f) in
      Binary64.is_finite r = true /\
      (Qabs (Binary64.to_Q r - Binary64.to_Q f) <= 1 # 100000000000)%Q).
Proof.
  split; [intros f; unfold fahrenheit_to_celsius, celsius_to_fahrenheit; cbn; field |].
  split; [intros c; unfold fahrenheit_to_celsius, celsius_to_fahrenheit; cbn; field |].
  split; [| split].
  - intros f Hv Hf r Hr.
    exact (proj2 (RoundTripWide.f2c_c2f_error_wide f Hv Hf (or_intror Hr))).
  - intros f Hv Hf Hc.
    exact (proj1 (RoundTripWide.f2c_c2f_error_wide f Hv Hf (or_introl Hc))).
  - intros f Hv Hf Hc r. apply Qabs_Qle_condition in Hc.
    destruct (RoundTrip.f2c_c2f_error f Hv Hf) as [Hfin Herr].
    { change (-2048)%Q with (- (2048))%Q. exact Hc. }
    split; [exact Hfin|]. apply Qabs_Qle_condition. fold r in Herr. lra.
Qed.

(** -10^300 degrees Fahrenheit: nothing overflows, and the way back is
    within [10^-11 + 10^286]. *)
Lemma fahrenheit_round_trip_witness :
  let f := literal "-1e300" in
  let r := celsius_to_fahrenheit (fahrenheit_to_celsius f) in
  Binary64.valid f = true /\ Binary64.is_finite f = true /\
  Binary64.is_finite r = true /\
  (Qabs (Binary64.to_Q r - Binary64.to_Q f)
   <= (1 # 100000000000) + Qabs (Binary64.to_Q f) * (1 # 100000000000000))%Q.
Proof.
  intros f r.
  assert (Hv : Binary64.valid f = true) by (vm_compute; reflexivity).
  assert (Hf : Binary64.is_finite f = true) by (vm_compute; reflexivity).
  assert (Hr : Binary64.is_finite r = true) by (vm_compute; reflexivity).
  split; [exact Hv|]. split; [exact Hf|]. split; [exact Hr|].
  exact (proj1 (proj2 (proj2 fahrenheit_round_trip)) f Hv Hf Hr).
Defined.

(** The law read on all floats fails: 0.1 comes back as
    0.10000000000000142, and [celsius_to_fahrenheit] sends the smallest
    positive float and zero to the same number, so it is not injective. *)
Lemma fahrenheit_round_trip_counterexample :
  celsius_to_fahrenheit (fahrenheit_to_celsius (literal "0.1")) = literal "0.10000000000000142" /\
  literal "0.10000000000000142" <> literal "0.1" /\
  celsius_to_fahrenheit (literal "5e-324") = celsius_to_fahrenheit (literal "0.0") /\
  literal "5e-324" <> literal "0.0" /\
  Binary64.valid (literal "5e-324") = true /\ Binary64.valid (literal "0.1") = true.
Proof. repeat split; try (vm_compute; reflexivity); vm_compute; discriminate. Qed.

(** What the shell converts: every accepted number makes the round trip
    within [10^-11]. *)
Lemma accepted_celsius_round_trip (c : float) :
  Binary64.valid c = true -> Binary64.is_finite c = true ->
  validate_temperature c "C" = Ok tt ->
  (Qabs (Binary64.to_Q (fahrenheit_to_celsius (celsius_to_fahrenheit c))
         - Binary64.to_Q c) <= 1 # 100000000000)%Q.
Proof.
  intros Hv Hf Hok. pose proof (accepted_celsius_bounded c Hv Hf Hok) as Hb.
  destruct (RoundTrip.c2f_f2c_error c Hv Hf) as [_ Herr]; [lra|].
  apply Qabs_Qle_condition. lra.
Qed.

Lemma accepted_fahrenheit_round_trip (f : float) :
  Binary64.valid f = true -> Binary64.is_finite f = true ->
  validate_temperature f "F" = Ok tt ->
  (Qabs (Binary64.to_Q (celsius_to_fahrenheit (fahrenheit_to_celsius f))
         - Binary64.to_Q f) <= 1 # 100000000000)%Q.
Proof.
  intros Hv Hf Hok. pose proof (accepted_fahrenheit_bounded f Hv Hf Hok) as Hb.
  destruct (RoundTrip.f2c_c2f_error f Hv Hf) as [_ Herr]; [lra|].
  apply Qabs_Qle_condition. lra.
Qed.

(* ================================================================== *)
(** * The console application *)
(* ================================================================== *)

Import Console TemperatureConverterApp.

(** ** First steps of a run, computed *)

Lemma display_menu_eq (w : world) :
  sigint_at_print w = None ->
  display_menu w = Some (Ok tt, extend w (stdin w) menu []).
Proof.
  destruct w as [i sg o l]. cbn [sigint_at_print]. intros ->.
  cbv beta iota zeta delta [display_menu bind print write stdin sigint_at_print stdout log
                            extend menu].
  rewrite <- !app_assoc, app_nil_r. reflexivity.
Qed.

Lemma get_valid_numeric_input_eq (prompt : string) (w : world) (s : string)
      (rest : list event) (v : float) :
  stdin w = Line s :: rest -> Py.float_of_string (Py.strip s) = Some v ->
  get_valid_numeric_input prompt w = Some (Ok v, extend w rest [Prompted prompt] []).
Proof.
  intros Hs Hv. unfold get_valid_numeric_input.
  rewrite (ShellFacts.loop_unroll _
             (fun w w' => ShellFacts.numeric_input_body_strict prompt w None w')).
  pose proof (ShellFacts.numeric_input_body_cases prompt w) as H.
  rewrite Hs, Hv in H. rewrite H. reflexivity.
Qed.

Lemma menu_choice_of_range (line : string) (c : Z) :
  menu_choice_of line = Some c -> c = 1 \/ c = 2 \/ c = 3.
Proof.
  unfold menu_choice_of. destruct (Py.int_of_string (Py.strip line)) as [n |]; [| discriminate].
  destruct ((1 <=? n)%Z && (n <=? 3)%Z)%bool eqn:E; [| discriminate].
  intros H. inversion H; subst. apply andb_prop in E. destruct E as [E1 E2].
  apply Z.leb_le in E1, E2. lia.
Qed.

Lemma get_valid_menu_choice_skips (skipped : list string) :
  forall (w : world) (line : string) (c : Z) (rest : list event),
    stdin w = List.map Line skipped ++ Line line :: rest ->
    sigint_at_print w = None ->
    Forall (fun t => menu_choice_of t = None) skipped ->
    menu_choice_of line = Some c ->
    get_valid_menu_choice w
    = Some (Ok c, extend w rest
                    (List.concat (List.map menu_retry skipped) ++ [Prompted menu_prompt]) []).
Proof.
  induction skipped as [| t skipped IH]; intros w line c rest Hs Hsig Hsk Hc;
    unfold get_valid_menu_choice;
    rewrite (ShellFacts.loop_unroll _
               (fun w w' => ShellFacts.menu_choice_body_strict w None w'));
    pose proof (ShellFacts.menu_choice_body_cases w) as H; cbn [List.map app] in Hs;
    rewrite Hs in H.
  - rewrite Hc in H. rewrite H. reflexivity.
  - inversion Hsk as [| ? ? Ht Hsk']; subst. rewrite Ht, Hsig in H. rewrite H.
    fold get_valid_menu_choice.
    rewrite (IH (extend w (List.map Line skipped ++ Line line :: rest) (menu_retry t) [])
                line c rest eq_refl Hsig Hsk' Hc).
    unfold extend. cbn [stdin sigint_at_print stdout log List.map List.concat].
    rewrite <- !app_assoc, !app_nil_r. reflexivity.
Qed.

(** C7, for plain (ASCII) lines on standard input: whenever
    [get_valid_menu_choice] returns, the result is 1, 2 or 3, and it is the
    choice of the first line read that stands for one; every line before it
    was skipped.  Conversely, on lines of that shape it does return, after a
    prompt and a complaint for each skipped line. *)
Theorem get_valid_menu_choice_first_valid :
  (forall (w : world) (c : Z) (w' : world),
      plain_input w = true ->
      get_valid_menu_choice w = Some (Ok c, w') ->
      (c = 1 \/ c = 2 \/ c = 3) /\
      exists (skipped : list string) (line : string),
        stdin w = List.map Line skipped ++ Line line :: stdin w' /\
        Forall (fun t => menu_choice_of t = None) skipped /\
        menu_choice_of line = Some c) /\
  (forall (w : world) (skipped : list string) (line : string) (c : Z) (rest : list event),
      plain_input w = true ->
      stdin w = List.map Line skipped ++ Line line :: rest ->
      sigint_at_print w = None ->
      Forall (fun t => menu_choice_of t = None) skipped ->
      menu_choice_of line = Some c ->
      get_valid_menu_choice w
      = Some (Ok c, extend w rest
                      (List.concat (List.map menu_retry skipped) ++ [Prompted menu_prompt]) [])).
Proof.
  split.
  - intros w c w' _ E.
    destruct (ShellFacts.loop_ind menu_choice_body
                (proj1 ShellFacts.good_menu_choice_body)
                (fun w w' => ShellFacts.menu_choice_body_strict w None w')
                (fun w r w' =>
                   forall c, r = Ok c ->
                     exists skipped line,
                       stdin w = List.map Line skipped ++ Line line :: stdin w' /\
                       Forall (fun t => menu_choice_of t = None) skipped /\
                       menu_choice_of line = Some c)) with (w := w) as [r0 [w0 [E0 P]]].
    + intros w1 v w1' Hb c0 Hc0. inversion Hc0; subst.
      apply ShellFacts.menu_choice_body_reads in Hb. destruct Hb as [s [Hs Hm]].
      exists [], s. cbn. auto.
    + intros w1 e w1' _ c0 Hc0. discriminate.
    + intros w1 w2 r w3 Hb IH c0 Hc0.
      apply ShellFacts.menu_choice_body_reads in Hb. destruct Hb as [s [Hs Hm]].
      destruct (IH c0 Hc0) as [skipped [line [H1 [H2 H3]]]].
      exists (s :: skipped), line. cbn. rewrite Hs, H1. auto.
    + unfold get_valid_menu_choice in E. rewrite E in E0. inversion E0; subst.
      destruct (P c eq_refl) as [skipped [line [H1 [H2 H3]]]].
      split; [eapply menu_choice_of_range; eassumption | eauto].
  - intros w skipped line c rest _. apply get_valid_menu_choice_skips.
Qed.

(** The lines "0", "4", "abc" are skipped and "2" is returned. *)
Lemma get_valid_menu_choice_first_valid_witness :
  get_valid_menu_choice (typed ["0"; "4"; "abc"; "2"; "9"])
  = Some (Ok 2, extend (typed ["0"; "4"; "abc"; "2"; "9"]) [Line "9"]
                  (List.concat (List.map menu_retry ["0"; "4"; "abc"]) ++ [Prompted menu_prompt]) []).
Proof.
  apply (proj2 get_valid_menu_choice_first_valid
           (typed ["0"; "4"; "abc"; "2"; "9"]) ["0"; "4"; "abc"] "2" 2 [Line "9"]).
  - reflexivity.
  - reflexivity.
  - reflexivity.
  - repeat constructor.
  - reflexivity.
Defined.

(** ** Scenarios *)

(** C4: on the lines "1", "25", "3" the shell prints "25.00°C = 77.00°F",
    later the goodbye, and the run ends normally, with status 0. *)
Theorem scenario_celsius_25 :
  let w := typed ["1"; "25"; "3"] in
  let out :=
    menu ++ [Prompted menu_prompt; Prompted "Enter temperature in Celsius: ";
             Printed "25.00°C = 77.00°F"]
    ++ menu ++ [Prompted menu_prompt; Printed goodbye] in
  let w' := mkWorld [] None out [(INFO, "Converted 25.0°C to 77.0°F")] in
  run w = Some (Ok tt, w') /\ process w = Some (Exited 0, w').
Proof. split; vm_compute; reflexivity. Qed.

(** C6: on the lines "abc", "-", "2", "98.6", "3" the shell asks for the
    menu choice again after each of the first two, prints
    "98.60°F = 37.00°C" for the conversion, and ends with the goodbye. *)
Theorem scenario_recovers_then_fahrenheit :
  let w := typed ["abc"; "-"; "2"; "98.6"; "3"] in
  let out :=
    menu ++ menu_retry "abc" ++ menu_retry "-"
    ++ [Prompted menu_prompt; Prompted "Enter temperature in Fahrenheit: ";
        Printed "98.60°F = 37.00°C"]
    ++ menu ++ [Prompted menu_prompt; Printed goodbye] in
  let w' := mkWorld [] None out [(INFO, "Converted 98.6°F to 37.0°C")] in
  menu_choice_of "abc" = None /\ menu_choice_of "-" = None /\
  run w = Some (Ok tt, w') /\ process w = Some (Exited 0, w').
Proof. repeat split; vm_compute; reflexivity. Qed.

(** ** How the process ends *)

Lemma process_of_run_loop (w : world) (r : result unit) (w1 : world) :
  run_loop w = Some (r, w1) ->
  Guarantees.exc_ok r w1 ->
  match r with
  | Ok _ => process w = Some (Exited 0, w1)
  | Raise KeyboardInterrupt =>
      process w = Some (Exited 0, write (Printed terminated) w1)
  | Raise (SystemExit code) => process w = Some (Exited code, w1)
  | Raise e =>
      process w
      = Some (Exited 1,
              extend w1 (stdin w1) []
                [(CRITICAL, ("Critical error in application: " ++ exn_str e)%string)])
  end.
Proof.
  intros E Hok. unfold process, main, run, try_except. rewrite E.
  destruct r as [[] | e]; [reflexivity|].
  destruct e; cbn [is_Exception Guarantees.exc_ok] in *;
    try (cbv beta iota zeta delta [bind logger sys_exit raise extend stdin
                                   sigint_at_print stdout log];
         rewrite app_nil_r; reflexivity).
  - unfold bind, print. rewrite Hok. reflexivity.
  - reflexivity.
Qed.

(** The process always ends, with status 0 or 1. *)
Lemma process_terminates (w : world) :
  exists st w', process w = Some (st, w') /\ (st = Exited 0 \/ st = Exited 1).
Proof.
  pose proof (proj1 ShellFacts.good_run_loop w) as T.
  destruct (run_loop w) as [[r w1] |] eqn:E; [| contradiction].
  pose proof (proj2 ShellFacts.good_run_loop w r w1 E) as [_ Hok].
  pose proof (process_of_run_loop w r w1 E Hok) as P.
  destruct r as [[] | e]; [eauto |].
  destruct e; eauto. cbn in Hok. destruct Hok as [-> _]. eauto.
Qed.

(** ** A value out of range *)

Lemma validate_raises (v : float) (scale : string) (e : exn) :
  validate_temperature v scale = Raise e ->
  exists msg, e = TemperatureConversionError msg.
Proof.
  unfold validate_temperature.
  repeat match goal with |- context [if ?b then _ else _] => destruct b end;
    intros H; inversion H; eauto.
Qed.

(** C5: when a conversion is chosen and the value typed is refused by
    [validate_temperature], the shell prints the error, logs it, prints no
    conversion and goes on with the next turn of the menu loop: the run
    continues as a run from the remaining input would, with nothing changed
    but the report.  It does go on: the loop comes to an end, and whatever
    way it ends, the menu and the menu prompt were written next after the
    error. *)
Theorem out_of_range_is_reported
    (w : world) (choice_line value_line : string) (rest : list event)
    (c : Z) (v : float) (e : exn) :
  stdin w = Line choice_line :: Line value_line :: rest ->
  sigint_at_print w = None ->
  menu_choice_of choice_line = Some c -> c <> 3 ->
  Py.float_of_string (Py.strip value_line) = Some v ->
  validate_temperature v (scale_of c) = Raise e ->
  let w' :=
    extend w rest
      (menu ++ [Prompted menu_prompt; Prompted (numeric_prompt c);
                Printed ("Conversion Error: " ++ exn_str e)%string])
      [(ERROR, ("Temperature conversion error: " ++ exn_str e)%string)] in
  run_body w = Some (Ok None, w') /\ run_loop w = run_loop w' /\ run w = run w' /\
  (exists r w2, run_loop w = Some (r, w2)) /\
  (forall r w2,
      run_loop w = Some (r, w2) ->
      exists more, stdout w2 = stdout w' ++ menu ++ [Prompted menu_prompt] ++ more) /\
  (exists st w2, process w = Some (st, w2) /\ (st = Exited 0 \/ st = Exited 1)).
Proof.
  intros Hs Hsig Hc Hc3 Hv He w'.
  assert (Hbody : run_body w = Some (Ok None, w')).
  { destruct (validate_raises _ _ _ He) as [msg ->].
    unfold run_body, bind. rewrite (display_menu_eq w Hsig).
    rewrite (get_valid_menu_choice_skips [] (extend w (stdin w) menu []) choice_line c
               (Line value_line :: rest) Hs Hsig (Forall_nil _) Hc).
    cbn [List.map List.concat app].
    apply menu_choice_of_range in Hc.
    assert (H3 : (c =? 3)%Z = false) by (apply Z.eqb_neq; exact Hc3).
    rewrite H3. unfold try_except, convert, bind.
    destruct Hc as [-> | [-> | ->]]; [| | contradiction]; cbn [Z.eqb Pos.eqb];
      cbn [scale_of Z.eqb Pos.eqb] in He;
      erewrite get_valid_numeric_input_eq by (cbn; first [reflexivity | eassumption]);
      unfold lift; rewrite He; cbn [conversion_handler exn_str];
      subst w'; destruct w as [i sg o l]; cbn in Hsig; subst sg;
      cbv beta iota zeta delta [bind print logger ret write extend stdin sigint_at_print
                                stdout log numeric_prompt Z.eqb Pos.eqb];
      rewrite <- !app_assoc, ?app_nil_r; reflexivity. }
  split; [exact Hbody|].
  assert (Hloop : run_loop w = run_loop w').
  { unfold run_loop at 1.
    rewrite (ShellFacts.loop_unroll _ ShellFacts.run_body_strict), Hbody. reflexivity. }
  split; [exact Hloop|].
  split; [unfold run, try_except; rewrite Hloop; reflexivity|].
  split; [| split].
  - pose proof (proj1 ShellFacts.good_run_loop w) as T.
    destruct (run_loop w) as [[r w2] |]; [eauto | contradiction].
  - intros r w2 E. rewrite Hloop in E.
    exact (ShellOutput.run_loop_shows_menu w' r w2 Hsig E).
  - apply process_terminates.
Qed.

(** -300 degrees Celsius: the error is shown, then the menu again, and the
    next line, "3", ends the run. *)
Lemma out_of_range_is_reported_witness :
  let w := typed ["1"; "-300"; "3"] in
  let w' :=
    extend w [Line "3"]
      (menu ++ [Prompted menu_prompt; Prompted "Enter temperature in Celsius: ";
                Printed "Conversion Error: Invalid Celsius temperature: -300.0"])
      [(ERROR, "Temperature conversion error: Invalid Celsius temperature: -300.0")] in
  run_body w = Some (Ok None, w') /\ run_loop w = run_loop w' /\ run w = run w' /\
  (exists r w2, run_loop w = Some (r, w2)) /\
  (forall r w2,
      run_loop w = Some (r, w2) ->
      exists more, stdout w2 = stdout w' ++ menu ++ [Prompted menu_prompt] ++ more) /\
  (exists st w2, process w = Some (st, w2) /\ (st = Exited 0 \/ st = Exited 1)).
Proof.
  exact (out_of_range_is_reported (typed ["1"; "-300"; "3"]) "1" "-300" [Line "3"] 1
           (literal "-300")
           (TemperatureConversionError "Invalid Celsius temperature: -300.0")
           eq_refl eq_refl eq_refl ltac:(discriminate) eq_refl eq_refl).
Defined.

(* ================================================================== *)
(** * Further properties of the console application *)
(* ================================================================== *)

Import Expected.

(** ** The numeric input loop *)

Lemma numeric_input_body_retry (prompt : string) (w : world) (s : string)
      (rest : list event) :
  stdin w = Line s :: rest -> sigint_at_print w = None ->
  Py.float_of_string (Py.strip s) = None ->
  numeric_input_body prompt w = Some (Ok None, extend w rest (numeric_retry prompt) []).
Proof.
  destruct w as [i sg o l]. cbn [stdin sigint_at_print]. intros -> -> En.
  cbv beta iota zeta delta [numeric_input_body try_except bind input float_ ret raise
                            print write stdin sigint_at_print stdout log extend
                            numeric_retry].
  rewrite En. cbv beta iota. rewrite <- !app_assoc, app_nil_r. reflexivity.
Qed.

Lemma get_valid_numeric_input_skips (prompt : string) (skipped : list string) :
  forall (w : world) (line : string) (v : float) (rest : list event),
    stdin w = List.map Line skipped ++ Line line :: rest ->
    sigint_at_print w = None ->
    Forall (fun t => Py.float_of_string (Py.strip t) = None) skipped ->
    Py.float_of_string (Py.strip line) = Some v ->
    get_valid_numeric_input prompt w
    = Some (Ok v, extend w rest
                    (List.concat (List.map (fun _ => numeric_retry prompt) skipped)
                     ++ [Prompted prompt]) []).
Proof.
  induction skipped as [| t skipped IH]; intros w line v rest Hs Hsig Hsk Hv.
  - exact (get_valid_numeric_input_eq prompt w line rest v Hs Hv).
  - unfold get_valid_numeric_input.
    rewrite (ShellFacts.loop_unroll _
               (fun w w' => ShellFacts.numeric_input_body_strict prompt w None w')).
    inversion Hsk as [| ? ? Ht Hsk']; subst. cbn [List.map app] in Hs.
    rewrite (numeric_input_body_retry prompt w t _ Hs Hsig Ht).
    fold (get_valid_numeric_input prompt).
    rewrite (IH (extend w (List.map Line skipped ++ Line line :: rest) (numeric_retry prompt) [])
                line v rest eq_refl Hsig Hsk' Hv).
    unfold extend. cbn [stdin sigint_at_print stdout log List.map List.concat].
    rewrite <- !app_assoc, !app_nil_r. reflexivity.
Qed.

(** X1, for plain (ASCII) lines on standard input: whenever
    [get_valid_numeric_input] returns, the result is what [float] makes of
    the first line read that is a number, and every line before it was none;
    conversely, on lines of that shape it does return, after a prompt and
    the complaint for each skipped line. *)
Theorem get_valid_numeric_input_first_valid (prompt : string) :
  (forall (w : world) (v : float) (w' : world),
      plain_input w = true ->
      get_valid_numeric_input prompt w = Some (Ok v, w') ->
      exists (skipped : list string) (line : string),
        stdin w = List.map Line skipped ++ Line line :: stdin w' /\
        Forall (fun t => Py.float_of_string (Py.strip t) = None) skipped /\
        Py.float_of_string (Py.strip line) = Some v) /\
  (forall (w : world) (skipped : list string) (line : string) (v : float)
          (rest : list event),
      plain_input w = true ->
      stdin w = List.map Line skipped ++ Line line :: rest ->
      sigint_at_print w = None ->
      Forall (fun t => Py.float_of_string (Py.strip t) = None) skipped ->
      Py.float_of_string (Py.strip line) = Some v ->
      get_valid_numeric_input prompt w
      = Some (Ok v, extend w rest
                      (List.concat (List.map (fun _ => numeric_retry prompt) skipped)
                       ++ [Prompted prompt]) [])).
Proof.
  split.
  - intros w v w' _ E.
    destruct (ShellFacts.loop_ind (numeric_input_body prompt)
                (proj1 (ShellFacts.good_numeric_input_body prompt))
                (fun w w' => ShellFacts.numeric_input_body_strict prompt w None w')
                (fun w r w' =>
                   forall v, r = Ok v ->
                     exists skipped line,
                       stdin w = List.map Line skipped ++ Line line :: stdin w' /\
                       Forall (fun t => Py.float_of_string (Py.strip t) = None) skipped /\
                       Py.float_of_string (Py.strip line) = Some v))
      with (w := w) as [r0 [w0 [E0 P]]].
    + intros w1 v1 w1' Hb v0 Hv0. inversion Hv0; subst.
      apply ShellFacts.numeric_input_body_reads in Hb. destruct Hb as [s [Hs Hm]].
      exists [], s. cbn. auto.
    + intros w1 e w1' _ v0 Hv0. discriminate.
    + intros w1 w2 r w3 Hb IH v0 Hv0.
      apply ShellFacts.numeric_input_body_reads in Hb. destruct Hb as [s [Hs Hm]].
      destruct (IH v0 Hv0) as [skipped [line [H1 [H2 H3]]]].
      exists (s :: skipped), line. cbn. rewrite Hs, H1. auto.
    + unfold get_valid_numeric_input in E. rewrite E in E0. inversion E0; subst.
      apply (P v eq_refl).
  - intros w skipped line v rest _. apply get_valid_numeric_input_skips.
Qed.

(** The test's lines: "abc" and "-" are skipped and "30" is returned. *)
Lemma get_valid_numeric_input_first_valid_witness :
  get_valid_numeric_input "Enter temperature: " (typed ["abc"; "-"; "30"; "x"])
  = Some (Ok (literal "30"),
          extend (typed ["abc"; "-"; "30"; "x"]) [Line "x"]
            (numeric_retry "Enter temperature: " ++ numeric_retry "Enter temperature: "
             ++ [Prompted "Enter temperature: "]) []).
Proof.
  apply (proj2 (get_valid_numeric_input_first_valid "Enter temperature: ")
           (typed ["abc"; "-"; "30"; "x"]) ["abc"; "-"] "30" (literal "30") [Line "x"]).
  - reflexivity.
  - reflexivity.
  - reflexivity.
  - repeat constructor.
  - reflexivity.
Defined.

(** ** Input that runs out *)

Lemma input_loops_eof_menu (skipped : list string) :
  forall w : world,
    stdin w = List.map Line skipped -> sigint_at_print w = None ->
    Forall (fun t => menu_choice_of t = None) skipped ->
    get_valid_menu_choice w
    = Some (Raise EOFError,
            extend w [] (List.concat (List.map menu_retry skipped)
                         ++ [Prompted menu_prompt]) []).
Proof.
  induction skipped as [| t skipped IH]; intros w Hs Hsig Hsk;
    unfold get_valid_menu_choice;
    rewrite (ShellFacts.loop_unroll _
               (fun w w' => ShellFacts.menu_choice_body_strict w None w'));
    pose proof (ShellFacts.menu_choice_body_cases w) as H; cbn [List.map] in Hs;
    rewrite Hs in H.
  - rewrite H. destruct w as [i sg o l]. cbn in Hs, Hsig. subst.
    unfold write, extend. cbn. rewrite app_nil_r. reflexivity.
  - inversion Hsk as [| ? ? Ht Hsk']; subst. rewrite Ht, Hsig in H. rewrite H.
    fold get_valid_menu_choice.
    rewrite (IH (extend w (List.map Line skipped) (menu_retry t) []) eq_refl Hsig Hsk').
    unfold extend. cbn [stdin sigint_at_print stdout log List.map List.concat].
    rewrite <- !app_assoc, !app_nil_r. reflexivity.
Qed.

Lemma input_loops_eof_numeric (prompt : string) (skipped : list string) :
  forall w : world,
    stdin w = List.map Line skipped -> sigint_at_print w = None ->
    Forall (fun t => Py.float_of_string (Py.strip t) = None) skipped ->
    get_valid_numeric_input prompt w
    = Some (Raise EOFError,
            extend w [] (List.concat (List.map (fun _ => numeric_retry prompt) skipped)
                         ++ [Prompted prompt]) []).
Proof.
  induction skipped as [| t skipped IH]; intros w Hs Hsig Hsk;
    unfold get_valid_numeric_input;
    rewrite (ShellFacts.loop_unroll _
               (fun w w' => ShellFacts.numeric_input_body_strict prompt w None w'));
    cbn [List.map] in Hs.
  - pose proof (ShellFacts.numeric_input_body_cases prompt w) as H. rewrite Hs in H.
    rewrite H. destruct w as [i sg o l]. cbn in Hs, Hsig. subst.
    unfold write, extend. cbn. rewrite app_nil_r. reflexivity.
  - inversion Hsk as [| ? ? Ht Hsk']; subst.
    rewrite (numeric_input_body_retry prompt w t _ Hs Hsig Ht).
    fold (get_valid_numeric_input prompt).
    rewrite (IH (extend w (List.map Line skipped) (numeric_retry prompt) []) eq_refl Hsig Hsk').
    unfold extend. cbn [stdin sigint_at_print stdout log List.map List.concat].
    rewrite <- !app_assoc, !app_nil_r. reflexivity.
Qed.

(** X2, for plain (ASCII) lines on standard input: when standard input ends
    before a valid entry was typed, each of the two input loops has
    complained about every line, has written its prompt once more and raises
    [EOFError]; it does not exit the process itself. *)
Theorem input_loops_at_end_of_input (w : world) (skipped : list string) (prompt : string) :
  plain_input w = true ->
  stdin w = List.map Line skipped -> sigint_at_print w = None ->
  (Forall (fun t => menu_choice_of t = None) skipped ->
   get_valid_menu_choice w
   = Some (Raise EOFError,
           extend w [] (List.concat (List.map menu_retry skipped)
                        ++ [Prompted menu_prompt]) [])) /\
  (Forall (fun t => Py.float_of_string (Py.strip t) = None) skipped ->
   get_valid_numeric_input prompt w
   = Some (Raise EOFError,
           extend w [] (List.concat (List.map (fun _ => numeric_retry prompt) skipped)
                        ++ [Prompted prompt]) [])).
Proof.
  intros _ Hs Hsig. split; intros Hsk.
  - apply input_loops_eof_menu; assumption.
  - apply input_loops_eof_numeric; assumption.
Qed.

Lemma input_loops_at_end_of_input_witness :
  get_valid_menu_choice (typed ["7"; "x"])
  = Some (Raise EOFError,
          extend (typed ["7"; "x"]) []
            (menu_retry "7" ++ menu_retry "x" ++ [Prompted menu_prompt]) []).
Proof.
  apply (proj1 (input_loops_at_end_of_input (typed ["7"; "x"]) ["7"; "x"] ""
                  eq_refl eq_refl eq_refl)).
  repeat constructor.
Defined.

(** ** Worlds after several steps *)

Lemma extend_extend (w : world) (e1 e2 : list event) (o1 o2 : list output)
      (l1 l2 : list (level * string)) :
  extend (extend w e1 o1 l1) e2 o2 l2 = extend w e2 (o1 ++ o2) (l1 ++ l2).
Proof. unfold extend. cbn. rewrite !app_assoc. reflexivity. Qed.

Lemma extend_same (w : world) : extend w (stdin w) [] [] = w.
Proof. destruct w. unfold extend. cbn. rewrite !app_nil_r. reflexivity. Qed.

(** ** Skipped lines *)

Lemma menu_loop_skip (skipped : list string) :
  forall (w : world) (tail : list event),
    stdin w = List.map Line skipped ++ tail -> sigint_at_print w = None ->
    Forall (fun t => menu_choice_of t = None) skipped ->
    get_valid_menu_choice w
    = get_valid_menu_choice
        (extend w tail (List.concat (List.map menu_retry skipped)) []).
Proof.
  induction skipped as [| t skipped IH]; intros w tail Hs Hsig Hsk.
  - cbn in Hs |- *. rewrite <- Hs, extend_same. reflexivity.
  - inversion Hsk as [| ? ? Ht Hsk']; subst. cbn [List.map app] in Hs.
    unfold get_valid_menu_choice at 1.
    rewrite (ShellFacts.loop_unroll _
               (fun w w' => ShellFacts.menu_choice_body_strict w None w')).
    pose proof (ShellFacts.menu_choice_body_cases w) as H.
    rewrite Hs, Ht, Hsig in H. rewrite H. fold get_valid_menu_choice.
    rewrite (IH (extend w (List.map Line skipped ++ tail) (menu_retry t) []) tail
                eq_refl Hsig Hsk').
    rewrite extend_extend. reflexivity.
Qed.

Lemma numeric_loop_skip (prompt : string) (skipped : list string) :
  forall (w : world) (tail : list event),
    stdin w = List.map Line skipped ++ tail -> sigint_at_print w = None ->
    Forall (fun t => Py.float_of_string (Py.strip t) = None) skipped ->
    get_valid_numeric_input prompt w
    = get_valid_numeric_input prompt
        (extend w tail (List.concat (List.map (fun _ => numeric_retry prompt) skipped)) []).
Proof.
  induction skipped as [| t skipped IH]; intros w tail Hs Hsig Hsk.
  - cbn in Hs |- *. rewrite <- Hs, extend_same. reflexivity.
  - inversion Hsk as [| ? ? Ht Hsk']; subst. cbn [List.map app] in Hs.
    unfold get_valid_numeric_input at 1.
    rewrite (ShellFacts.loop_unroll _
               (fun w w' => ShellFacts.numeric_input_body_strict prompt w None w')).
    rewrite (numeric_input_body_retry prompt w t _ Hs Hsig Ht).
    fold (get_valid_numeric_input prompt).
    rewrite (IH (extend w (List.map Line skipped ++ tail) (numeric_retry prompt) []) tail
                eq_refl Hsig Hsk').
    rewrite extend_extend. reflexivity.
Qed.

(** Ctrl-C at the prompt of either loop, computed. *)
Lemma menu_loop_ctrl_c (w : world) (rest : list event) :
  stdin w = CtrlC :: rest -> sigint_at_print w = None ->
  get_valid_menu_choice w
  = Some (Raise (SystemExit 1),
          extend w rest [Prompted menu_prompt; Printed cancelled]
            [(WARNING, "Menu selection interrupted")]).
Proof.
  intros Hs Hsig. unfold get_valid_menu_choice.
  rewrite (ShellFacts.loop_unroll _
             (fun w w' => ShellFacts.menu_choice_body_strict w None w')).
  destruct w as [i sg o l]. cbn in Hs, Hsig. subst i sg.
  cbv beta iota zeta delta [menu_choice_body try_except bind input print logger sys_exit
                            raise write extend stdin sigint_at_print stdout log].
  rewrite <- !app_assoc. reflexivity.
Qed.

Lemma numeric_loop_ctrl_c (prompt : string) (w : world) (rest : list event) :
  stdin w = CtrlC :: rest -> sigint_at_print w = None ->
  get_valid_numeric_input prompt w
  = Some (Raise (SystemExit 1),
          extend w rest [Prompted prompt; Printed cancelled]
            [(WARNING, "Input interrupted by user")]).
Proof.
  intros Hs Hsig. unfold get_valid_numeric_input.
  rewrite (ShellFacts.loop_unroll _
             (fun w w' => ShellFacts.numeric_input_body_strict prompt w None w')).
  destruct w as [i sg o l]. cbn in Hs, Hsig. subst i sg.
  cbv beta iota zeta delta [numeric_input_body try_except bind input print logger sys_exit
                            raise write extend stdin sigint_at_print stdout log].
  rewrite <- !app_assoc. reflexivity.
Qed.

(** ** One turn of the loop of [run] *)

Lemma run_body_menu (w : world) :
  sigint_at_print w = None ->
  run_body w
  = Console.bind get_valid_menu_choice
      (fun choice =>
         if (choice =? 3)%Z then
           Console.bind (print goodbye) (fun _ => ret (Some tt))
         else
           Console.bind (try_except (convert choice) conversion_handler)
             (fun _ => ret None))
      (extend w (stdin w) menu []).
Proof.
  intros Hsig. unfold run_body. unfold bind at 1. rewrite (display_menu_eq w Hsig).
  reflexivity.
Qed.

Lemma run_of_run_loop_ok (w w1 : world) :
  run_loop w = Some (Ok tt, w1) ->
  run w = Some (Ok tt, w1) /\ process w = Some (Exited 0, w1).
Proof.
  intros E. split.
  - unfold run, try_except. rewrite E. reflexivity.
  - exact (process_of_run_loop w (Ok tt) w1 E I).
Qed.

(** One turn of the loop of [run] that converts a value. *)
Lemma conversion_turn
    (w : world) (bad_choices bad_values : list string) (choice_line value_line : string)
    (rest : list event) (c : Z) (v : float) :
  stdin w = List.map Line bad_choices ++ Line choice_line
            :: List.map Line bad_values ++ Line value_line :: rest ->
  sigint_at_print w = None ->
  Forall (fun t => menu_choice_of t = None) bad_choices ->
  menu_choice_of choice_line = Some c -> c <> 3 ->
  Forall (fun t => Py.float_of_string (Py.strip t) = None) bad_values ->
  Py.float_of_string (Py.strip value_line) = Some v ->
  validate_temperature v (scale_of c) = Ok tt ->
  run_body w
  = Some (Ok None,
          extend w rest
            (menu ++ List.concat (List.map menu_retry bad_choices) ++ [Prompted menu_prompt]
             ++ List.concat (List.map (fun _ => numeric_retry (numeric_prompt c)) bad_values)
             ++ [Prompted (numeric_prompt c); Printed (conversion_line c v)])
            [(INFO, conversion_record c v)]).
Proof.
  intros Hs Hsig Hbc Hc Hc3 Hbv Hv Hok.
  rewrite (run_body_menu w Hsig). unfold bind at 1.
  rewrite (get_valid_menu_choice_skips bad_choices (extend w (stdin w) menu [])
             choice_line c _ Hs Hsig Hbc Hc).
  apply menu_choice_of_range in Hc.
  assert (H3 : (c =? 3)%Z = false) by (apply Z.eqb_neq; exact Hc3).
  rewrite H3. unfold bind at 1. unfold try_except, convert.
  destruct Hc as [-> | [-> | ->]]; [| | contradiction]; cbn [Z.eqb Pos.eqb];
    cbn [scale_of Z.eqb Pos.eqb] in Hok; unfold bind at 1;
    erewrite get_valid_numeric_input_skips
      by (first [reflexivity | eassumption | cbn; reflexivity]);
    unfold bind at 1; unfold lift; rewrite Hok;
    destruct w as [i sg o l]; cbn in Hsig; subst sg;
    cbv beta iota zeta delta [bind print logger ret write extend stdin sigint_at_print
                              stdout log numeric_prompt conversion_line
                              conversion_record Z.eqb Pos.eqb];
    rewrite <- !app_assoc, ?app_nil_r; reflexivity.
Qed.

(** After a turn that does not leave the loop, the run is the run from the
    state the turn has left. *)
Lemma run_continues (w w' : world) :
  run_body w = Some (Ok None, w') -> run_loop w = run_loop w' /\ run w = run w'.
Proof.
  intros Hbody.
  assert (Hloop : run_loop w = run_loop w').
  { unfold run_loop at 1.
    rewrite (ShellFacts.loop_unroll _ ShellFacts.run_body_strict), Hbody. reflexivity. }
  split; [exact Hloop|]. unfold run, try_except. rewrite Hloop. reflexivity.
Qed.

(** X3, for plain (ASCII) lines on standard input: a turn that converts.
    When a conversion is chosen and the value typed is accepted, possibly
    after lines that were no menu choice and lines that were no number, the
    shell prints one line with the value and its conversion to two decimals,
    logs one INFO record, and the run goes on from the remaining input: the
    loop comes to an end, and whatever way it ends, the menu and the menu
    prompt were written next after the conversion. *)
Theorem conversion_is_printed
    (w : world) (bad_choices bad_values : list string) (choice_line value_line : string)
    (rest : list event) (c : Z) (v : float) :
  plain_input w = true ->
  stdin w = List.map Line bad_choices ++ Line choice_line
            :: List.map Line bad_values ++ Line value_line :: rest ->
  sigint_at_print w = None ->
  Forall (fun t => menu_choice_of t = None) bad_choices ->
  menu_choice_of choice_line = Some c -> c <> 3 ->
  Forall (fun t => Py.float_of_string (Py.strip t) = None) bad_values ->
  Py.float_of_string (Py.strip value_line) = Some v ->
  validate_temperature v (scale_of c) = Ok tt ->
  let w' :=
    extend w rest
      (menu ++ List.concat (List.map menu_retry bad_choices) ++ [Prompted menu_prompt]
       ++ List.concat (List.map (fun _ => numeric_retry (numeric_prompt c)) bad_values)
       ++ [Prompted (numeric_prompt c); Printed (conversion_line c v)])
      [(INFO, conversion_record c v)] in
  run_body w = Some (Ok None, w') /\ run_loop w = run_loop w' /\ run w = run w' /\
  (exists r w2, run_loop w = Some (r, w2)) /\
  (forall r w2,
      run_loop w = Some (r, w2) ->
      exists more, stdout w2 = stdout w' ++ menu ++ [Prompted menu_prompt] ++ more).
Proof.
  intros _ Hs Hsig Hbc Hc Hc3 Hbv Hv Hok w'.
  pose proof (conversion_turn w bad_choices bad_values choice_line value_line rest c v
                Hs Hsig Hbc Hc Hc3 Hbv Hv Hok) as Hbody.
  fold w' in Hbody. destruct (run_continues w w' Hbody) as [Hloop Hrun].
  split; [exact Hbody|]. split; [exact Hloop|]. split; [exact Hrun|]. split.
  - pose proof (proj1 ShellFacts.good_run_loop w) as T.
    destruct (run_loop w) as [[r w2] |]; [eauto | contradiction].
  - intros r w2 E. rewrite Hloop in E.
    exact (ShellOutput.run_loop_shows_menu w' r w2 Hsig E).
Qed.

(** "x" is no choice, "2" is; "?" is no number, "98.6" is accepted. *)
Lemma conversion_is_printed_witness :
  let w := typed ["x"; "2"; "?"; "98.6"; "3"] in
  let w' :=
    extend w [Line "3"]
      (menu ++ menu_retry "x" ++ [Prompted menu_prompt]
       ++ numeric_retry "Enter temperature in Fahrenheit: "
       ++ [Prompted "Enter temperature in Fahrenheit: "; Printed "98.60°F = 37.00°C"])
      [(INFO, "Converted 98.6°F to 37.0°C")] in
  run_body w = Some (Ok None, w') /\ run_loop w = run_loop w' /\ run w = run w' /\
  (exists r w2, run_loop w = Some (r, w2)) /\
  (forall r w2,
      run_loop w = Some (r, w2) ->
      exists more, stdout w2 = stdout w' ++ menu ++ [Prompted menu_prompt] ++ more).
Proof.
  apply (conversion_is_printed (typed ["x"; "2"; "?"; "98.6"; "3"]) ["x"] ["?"] "2" "98.6"
           [Line "3"] 2 (literal "98.6")).
  - reflexivity.
  - reflexivity.
  - reflexivity.
  - repeat constructor.
  - reflexivity.
  - discriminate.
  - repeat constructor.
  - reflexivity.
  - reflexivity.
Defined.

(** Choice 3, computed. *)
Lemma choice_3_ends
    (w : world) (bad_choices : list string) (choice_line : string) (rest : list event) :
  stdin w = List.map Line bad_choices ++ Line choice_line :: rest ->
  sigint_at_print w = None ->
  Forall (fun t => menu_choice_of t = None) bad_choices ->
  menu_choice_of choice_line = Some 3 ->
  let w' :=
    extend w rest
      (menu ++ List.concat (List.map menu_retry bad_choices)
       ++ [Prompted menu_prompt; Printed goodbye]) [] in
  run w = Some (Ok tt, w') /\ process w = Some (Exited 0, w').
Proof.
  intros Hs Hsig Hbc Hc w'. apply run_of_run_loop_ok. unfold run_loop.
  rewrite (ShellFacts.loop_unroll _ ShellFacts.run_body_strict).
  rewrite (run_body_menu w Hsig). unfold bind at 1.
  rewrite (get_valid_menu_choice_skips bad_choices (extend w (stdin w) menu [])
             choice_line 3 _ Hs Hsig Hbc Hc).
  subst w'. destruct w as [i sg o l]. cbn in Hsig. subst sg.
  cbv beta iota zeta delta [bind print ret write extend stdin sigint_at_print stdout log
                            Z.eqb Pos.eqb].
  rewrite <- !app_assoc, ?app_nil_r. reflexivity.
Qed.

(** X4, for plain (ASCII) lines on standard input: choice 3.  Once a line
    stands for choice 3, after any lines that were no menu choice, the shell
    prints the goodbye and [run] returns; what is left on standard input is
    not read, and the process status is 0. *)
Theorem exit_choice_stops
    (w : world) (bad_choices : list string) (choice_line : string) (rest : list event) :
  plain_input w = true ->
  stdin w = List.map Line bad_choices ++ Line choice_line :: rest ->
  sigint_at_print w = None ->
  Forall (fun t => menu_choice_of t = None) bad_choices ->
  menu_choice_of choice_line = Some 3 ->
  let w' :=
    extend w rest
      (menu ++ List.concat (List.map menu_retry bad_choices)
       ++ [Prompted menu_prompt; Printed goodbye]) [] in
  run w = Some (Ok tt, w') /\ process w = Some (Exited 0, w').
Proof. intros _. exact (choice_3_ends w bad_choices choice_line rest). Qed.

Lemma exit_choice_stops_witness :
  let w := typed ["0"; " 3 "; "1"; "25"] in
  let w' :=
    extend w [Line "1"; Line "25"]
      (menu ++ menu_retry "0" ++ [Prompted menu_prompt; Printed goodbye]) [] in
  run w = Some (Ok tt, w') /\ process w = Some (Exited 0, w').
Proof.
  apply (exit_choice_stops (typed ["0"; " 3 "; "1"; "25"]) ["0"] " 3 " [Line "1"; Line "25"]).
  - reflexivity.
  - reflexivity.
  - reflexivity.
  - repeat constructor.
  - reflexivity.
Defined.

(** ** Ends of the process, computed *)

Lemma process_of_run_loop_eq (w w1 : world) :
  run_loop w = run_loop w1 -> process w = process w1.
Proof.
  intros E. unfold process, main, run, try_except. rewrite E. reflexivity.
Qed.

Lemma process_after_eof (w w1 : world) :
  run_loop w = Some (Raise EOFError, w1) ->
  process w
  = Some (Exited 1,
          extend w1 (stdin w1) []
            [(CRITICAL, "Critical error in application: EOF when reading a line")]).
Proof. intros E. exact (process_of_run_loop w (Raise EOFError) w1 E I). Qed.

Lemma process_after_exit (w w1 : world) (code : Z) :
  run_loop w = Some (Raise (SystemExit code), w1) ->
  process w = Some (Exited 1, w1).
Proof.
  intros E. pose proof (proj2 ShellFacts.good_run_loop w _ _ E) as [_ Hok].
  pose proof (process_of_run_loop w _ w1 E Hok) as P. cbn in Hok, P.
  destruct Hok as [-> _]. exact P.
Qed.

Lemma run_loop_raise (w : world) (e : exn) (w1 : world) :
  run_body w = Some (Raise e, w1) -> run_loop w = Some (Raise e, w1).
Proof.
  intros E. unfold run_loop.
  rewrite (ShellFacts.loop_unroll _ ShellFacts.run_body_strict), E. reflexivity.
Qed.

Lemma eof_at_menu_run_loop (w : world) :
  stdin w = [] -> sigint_at_print w = None ->
  process w
  = Some (Exited 1,
          extend w [] (menu ++ [Prompted menu_prompt])
            [(CRITICAL, "Critical error in application: EOF when reading a line")]).
Proof.
  intros Hs Hsig.
  rewrite (process_after_eof w (extend w [] (menu ++ [Prompted menu_prompt]) [])).
  - rewrite extend_extend. cbn [stdin extend]. rewrite app_nil_r. reflexivity.
  - apply run_loop_raise. rewrite (run_body_menu w Hsig). unfold bind at 1.
    rewrite (input_loops_eof_menu [] (extend w (stdin w) menu []) Hs Hsig (Forall_nil _)).
    rewrite extend_extend. reflexivity.
Qed.

(** The end of input at the menu prompt, computed. *)
Lemma eof_at_menu_ends (w : world) (bad_choices : list string) :
  stdin w = List.map Line bad_choices -> sigint_at_print w = None ->
  Forall (fun t => menu_choice_of t = None) bad_choices ->
  process w
  = Some (Exited 1,
          extend w []
            (menu ++ List.concat (List.map menu_retry bad_choices) ++ [Prompted menu_prompt])
            [(CRITICAL, "Critical error in application: EOF when reading a line")]).
Proof.
  intros Hs Hsig Hbc.
  rewrite (process_after_eof w
             (extend w [] (menu ++ List.concat (List.map menu_retry bad_choices)
                           ++ [Prompted menu_prompt]) [])).
  - rewrite extend_extend. cbn [stdin extend]. rewrite app_nil_r. reflexivity.
  - apply run_loop_raise. rewrite (run_body_menu w Hsig). unfold bind at 1.
    rewrite (input_loops_eof_menu bad_choices (extend w (stdin w) menu []) Hs Hsig Hbc).
    rewrite extend_extend. reflexivity.
Qed.

(** X5, for plain (ASCII) lines on standard input: when standard input
    ends at the menu prompt, after any lines that were no menu choice, the
    [EOFError] leaves [run]; [main] logs it as critical and the process
    status is 1. *)
Theorem end_of_input_at_menu (w : world) (bad_choices : list string) :
  plain_input w = true ->
  stdin w = List.map Line bad_choices -> sigint_at_print w = None ->
  Forall (fun t => menu_choice_of t = None) bad_choices ->
  process w
  = Some (Exited 1,
          extend w []
            (menu ++ List.concat (List.map menu_retry bad_choices) ++ [Prompted menu_prompt])
            [(CRITICAL, "Critical error in application: EOF when reading a line")]).
Proof. intros _. exact (eof_at_menu_ends w bad_choices). Qed.

Lemma end_of_input_at_menu_witness :
  process (typed [])
  = Some (Exited 1,
          extend (typed []) [] (menu ++ [Prompted menu_prompt])
            [(CRITICAL, "Critical error in application: EOF when reading a line")]).
Proof.
  apply (end_of_input_at_menu (typed []) []).
  - reflexivity.
  - reflexivity.
  - reflexivity.
  - constructor.
Defined.

(** The end of input at the prompt for the value, computed. *)
Lemma eof_at_value_ends
    (w : world) (bad_choices bad_values : list string) (choice_line : string) (c : Z) :
  stdin w = List.map Line bad_choices ++ Line choice_line :: List.map Line bad_values ->
  sigint_at_print w = None ->
  Forall (fun t => menu_choice_of t = None) bad_choices ->
  menu_choice_of choice_line = Some c -> c <> 3 ->
  Forall (fun t => Py.float_of_string (Py.strip t) = None) bad_values ->
  process w
  = Some (Exited 1,
          extend w []
            (menu ++ List.concat (List.map menu_retry bad_choices) ++ [Prompted menu_prompt]
             ++ List.concat (List.map (fun _ => numeric_retry (numeric_prompt c)) bad_values)
             ++ [Prompted (numeric_prompt c);
                 Printed "An unexpected error occurred: EOF when reading a line"]
             ++ menu ++ [Prompted menu_prompt])
            [(ERROR, "Unexpected error: EOF when reading a line");
             (CRITICAL, "Critical error in application: EOF when reading a line")]).
Proof.
  intros Hs Hsig Hbc Hc Hc3 Hbv.
  set (w1 := extend w []
               (menu ++ List.concat (List.map menu_retry bad_choices) ++ [Prompted menu_prompt]
                ++ List.concat (List.map (fun _ => numeric_retry (numeric_prompt c)) bad_values)
                ++ [Prompted (numeric_prompt c);
                    Printed "An unexpected error occurred: EOF when reading a line"])
               [(ERROR, "Unexpected error: EOF when reading a line")]).
  assert (Hbody : run_body w = Some (Ok None, w1)).
  { rewrite (run_body_menu w Hsig). unfold bind at 1.
    rewrite (get_valid_menu_choice_skips bad_choices (extend w (stdin w) menu [])
               choice_line c _ Hs Hsig Hbc Hc).
    apply menu_choice_of_range in Hc.
    assert (H3 : (c =? 3)%Z = false) by (apply Z.eqb_neq; exact Hc3).
    rewrite H3. unfold bind at 1. unfold try_except, convert.
    destruct Hc as [-> | [-> | ->]]; [| | contradiction]; cbn [Z.eqb Pos.eqb];
      unfold bind at 1;
      erewrite input_loops_eof_numeric
        by (first [reflexivity | eassumption | cbn; reflexivity]);
      subst w1; destruct w as [i sg o l]; cbn in Hsig; subst sg;
      cbv beta iota zeta delta [conversion_handler is_Exception exn_str bind print logger
                                ret write extend stdin sigint_at_print stdout log
                                numeric_prompt Z.eqb Pos.eqb];
      rewrite <- !app_assoc, ?app_nil_r; reflexivity. }
  assert (Hloop : run_loop w = run_loop w1).
  { unfold run_loop at 1.
    rewrite (ShellFacts.loop_unroll _ ShellFacts.run_body_strict), Hbody. reflexivity. }
  rewrite (process_of_run_loop_eq w w1 Hloop).
  rewrite (eof_at_menu_run_loop w1).
  - subst w1. rewrite extend_extend. rewrite <- !app_assoc. reflexivity.
  - reflexivity.
  - exact Hsig.
Qed.

(** X6, for plain (ASCII) lines on standard input: when standard input
    ends at the prompt for the value, the [EOFError] is caught in [run] as
    an unexpected error: it is printed and logged, the menu is shown again,
    and there the end of input is met once more, which ends the process with
    status 1. *)
Theorem end_of_input_at_value
    (w : world) (bad_choices bad_values : list string) (choice_line : string) (c : Z) :
  plain_input w = true ->
  stdin w = List.map Line bad_choices ++ Line choice_line :: List.map Line bad_values ->
  sigint_at_print w = None ->
  Forall (fun t => menu_choice_of t = None) bad_choices ->
  menu_choice_of choice_line = Some c -> c <> 3 ->
  Forall (fun t => Py.float_of_string (Py.strip t) = None) bad_values ->
  process w
  = Some (Exited 1,
          extend w []
            (menu ++ List.concat (List.map menu_retry bad_choices) ++ [Prompted menu_prompt]
             ++ List.concat (List.map (fun _ => numeric_retry (numeric_prompt c)) bad_values)
             ++ [Prompted (numeric_prompt c);
                 Printed "An unexpected error occurred: EOF when reading a line"]
             ++ menu ++ [Prompted menu_prompt])
            [(ERROR, "Unexpected error: EOF when reading a line");
             (CRITICAL, "Critical error in application: EOF when reading a line")]).
Proof. intros _. exact (eof_at_value_ends w bad_choices bad_values choice_line c). Qed.

Lemma end_of_input_at_value_witness :
  process (typed ["1"; "abc"])
  = Some (Exited 1,
          extend (typed ["1"; "abc"]) []
            (menu ++ [Prompted menu_prompt]
             ++ numeric_retry "Enter temperature in Celsius: "
             ++ [Prompted "Enter temperature in Celsius: ";
                 Printed "An unexpected error occurred: EOF when reading a line"]
             ++ menu ++ [Prompted menu_prompt])
            [(ERROR, "Unexpected error: EOF when reading a line");
             (CRITICAL, "Critical error in application: EOF when reading a line")]).
Proof.
  apply (end_of_input_at_value (typed ["1"; "abc"]) [] ["abc"] "1" 1).
  - reflexivity.
  - reflexivity.
  - reflexivity.
  - constructor.
  - reflexivity.
  - discriminate.
  - repeat constructor.
Defined.

(** Ctrl-C at the menu prompt, computed. *)
Lemma ctrl_c_at_menu_ends
    (w : world) (bad_choices : list string) (rest : list event) :
  stdin w = List.map Line bad_choices ++ CtrlC :: rest ->
  sigint_at_print w = None ->
  Forall (fun t => menu_choice_of t = None) bad_choices ->
  process w
  = Some (Exited 1,
          extend w rest
            (menu ++ List.concat (List.map menu_retry bad_choices)
             ++ [Prompted menu_prompt; Printed cancelled])
            [(WARNING, "Menu selection interrupted")]).
Proof.
  intros Hs Hsig Hbc. apply (process_after_exit w _ 1). apply run_loop_raise.
  rewrite (run_body_menu w Hsig). unfold bind at 1.
  rewrite (menu_loop_skip bad_choices (extend w (stdin w) menu []) (CtrlC :: rest)
             Hs Hsig Hbc).
  erewrite menu_loop_ctrl_c by (first [reflexivity | exact Hsig]).
  rewrite !extend_extend. rewrite <- ?app_assoc. reflexivity.
Qed.

(** X7, for plain (ASCII) lines on standard input: Ctrl-C at the menu
    prompt, after any lines that were no menu choice: a warning is logged,
    "Operation cancelled." is printed and the process ends with status 1;
    the handler of [run] for interrupts does not run. *)
Theorem interrupt_at_menu_prompt
    (w : world) (bad_choices : list string) (rest : list event) :
  plain_input w = true ->
  stdin w = List.map Line bad_choices ++ CtrlC :: rest ->
  sigint_at_print w = None ->
  Forall (fun t => menu_choice_of t = None) bad_choices ->
  process w
  = Some (Exited 1,
          extend w rest
            (menu ++ List.concat (List.map menu_retry bad_choices)
             ++ [Prompted menu_prompt; Printed cancelled])
            [(WARNING, "Menu selection interrupted")]).
Proof. intros _. exact (ctrl_c_at_menu_ends w bad_choices rest). Qed.

Lemma interrupt_at_menu_prompt_witness :
  process (session [Line "x"; CtrlC; Line "3"] None)
  = Some (Exited 1,
          extend (session [Line "x"; CtrlC; Line "3"] None) [Line "3"]
            (menu ++ menu_retry "x" ++ [Prompted menu_prompt; Printed cancelled])
            [(WARNING, "Menu selection interrupted")]).
Proof.
  apply (interrupt_at_menu_prompt (session [Line "x"; CtrlC; Line "3"] None) ["x"] [Line "3"]).
  - reflexivity.
  - reflexivity.
  - reflexivity.
  - repeat constructor.
Defined.

(** Ctrl-C at the prompt for the value, computed. *)
Lemma ctrl_c_at_value_ends
    (w : world) (bad_choices bad_values : list string) (choice_line : string) (c : Z)
    (rest : list event) :
  stdin w = List.map Line bad_choices ++ Line choice_line
            :: List.map Line bad_values ++ CtrlC :: rest ->
  sigint_at_print w = None ->
  Forall (fun t => menu_choice_of t = None) bad_choices ->
  menu_choice_of choice_line = Some c -> c <> 3 ->
  Forall (fun t => Py.float_of_string (Py.strip t) = None) bad_values ->
  process w
  = Some (Exited 1,
          extend w rest
            (menu ++ List.concat (List.map menu_retry bad_choices) ++ [Prompted menu_prompt]
             ++ List.concat (List.map (fun _ => numeric_retry (numeric_prompt c)) bad_values)
             ++ [Prompted (numeric_prompt c); Printed cancelled])
            [(WARNING, "Input interrupted by user")]).
Proof.
  intros Hs Hsig Hbc Hc Hc3 Hbv. apply (process_after_exit w _ 1). apply run_loop_raise.
  rewrite (run_body_menu w Hsig). unfold bind at 1.
  rewrite (get_valid_menu_choice_skips bad_choices (extend w (stdin w) menu [])
             choice_line c _ Hs Hsig Hbc Hc).
  apply menu_choice_of_range in Hc.
  assert (H3 : (c =? 3)%Z = false) by (apply Z.eqb_neq; exact Hc3).
  rewrite H3. unfold bind at 1. unfold try_except, convert.
  destruct Hc as [-> | [-> | ->]]; [| | contradiction]; cbn [Z.eqb Pos.eqb];
    unfold bind at 1;
    erewrite numeric_loop_skip by (first [reflexivity | eassumption | cbn; reflexivity]);
    erewrite numeric_loop_ctrl_c by (first [reflexivity | eassumption]);
    cbn [conversion_handler is_Exception];
    rewrite !extend_extend; cbn [numeric_prompt Z.eqb Pos.eqb];
    rewrite <- !app_assoc, ?app_nil_r; reflexivity.
Qed.

(** X8, for plain (ASCII) lines on standard input: Ctrl-C at the prompt
    for the value: the [SystemExit] that the input loop raises passes the
    handlers of [run], which catch [Exception] only; nothing is reported as
    an unexpected error and the process ends with status 1. *)
Theorem interrupt_at_value_prompt
    (w : world) (bad_choices bad_values : list string) (choice_line : string) (c : Z)
    (rest : list event) :
  plain_input w = true ->
  stdin w = List.map Line bad_choices ++ Line choice_line
            :: List.map Line bad_values ++ CtrlC :: rest ->
  sigint_at_print w = None ->
  Forall (fun t => menu_choice_of t = None) bad_choices ->
  menu_choice_of choice_line = Some c -> c <> 3 ->
  Forall (fun t => Py.float_of_string (Py.strip t) = None) bad_values ->
  process w
  = Some (Exited 1,
          extend w rest
            (menu ++ List.concat (List.map menu_retry bad_choices) ++ [Prompted menu_prompt]
             ++ List.concat (List.map (fun _ => numeric_retry (numeric_prompt c)) bad_values)
             ++ [Prompted (numeric_prompt c); Printed cancelled])
            [(WARNING, "Input interrupted by user")]).
Proof. intros _. exact (ctrl_c_at_value_ends w bad_choices bad_values choice_line c rest). Qed.

Lemma interrupt_at_value_prompt_witness :
  process (session [Line "2"; CtrlC] None)
  = Some (Exited 1,
          extend (session [Line "2"; CtrlC] None) []
            (menu ++ [Prompted menu_prompt]
             ++ [Prompted "Enter temperature in Fahrenheit: "; Printed cancelled])
            [(WARNING, "Input interrupted by user")]).
Proof.
  apply (interrupt_at_value_prompt (session [Line "2"; CtrlC] None) [] [] "2" 2 []).
  - reflexivity.
  - reflexivity.
  - reflexivity.
  - constructor.
  - reflexivity.
  - discriminate.
  - constructor.
Defined.

(** An interrupt while the menu is printed, computed. *)
Lemma sigint_in_menu_ends (w : world) (n : nat) :
  sigint_at_print w = Some n -> (n < 4)%nat ->
  process w
  = Some (Exited 0,
          mkWorld (stdin w) None
            (stdout w ++ List.firstn n menu ++ [Printed terminated]) (log w)).
Proof.
  intros Hsig Hn.
  assert (E : exists w1, run_loop w = Some (Raise KeyboardInterrupt, w1) /\
                         w1 = mkWorld (stdin w) None (stdout w ++ List.firstn n menu) (log w)).
  { eexists. split; [| reflexivity]. apply run_loop_raise.
    destruct w as [i sg o l]. cbn in Hsig. subst sg.
    destruct n as [| [| [| [| n]]]]; [| | | | lia];
      cbv beta iota zeta delta [run_body display_menu bind print write stdin
                                sigint_at_print stdout log List.firstn menu];
      rewrite <- ?app_assoc, ?app_nil_r; reflexivity. }
  destruct E as [w1 [E ->]].
  pose proof (process_of_run_loop w _ _ E eq_refl) as P. cbn beta iota in P.
  rewrite P. unfold write. cbn. rewrite <- app_assoc. reflexivity.
Qed.

(** X9: an interrupt that arrives while the menu is being printed reaches
    the handler of [run]: the lines printed so far are followed by
    "Application terminated by user.", no input is read, nothing is logged,
    and the process status is 0. *)
Theorem interrupt_while_menu_is_printed (w : world) (n : nat) :
  sigint_at_print w = Some n -> (n < 4)%nat ->
  process w
  = Some (Exited 0,
          mkWorld (stdin w) None
            (stdout w ++ List.firstn n menu ++ [Printed terminated]) (log w)).
Proof. exact (sigint_in_menu_ends w n). Qed.

Lemma interrupt_while_menu_is_printed_witness :
  process (session [Line "1"; Line "25"] (Some 2%nat))
  = Some (Exited 0,
          mkWorld [Line "1"; Line "25"] None
            [Printed (Py.newline ++ "--- Temperature Converter ---")%string;
             Printed "1. Celsius to Fahrenheit"; Printed terminated] []).
Proof.
  apply (interrupt_while_menu_is_printed (session [Line "1"; Line "25"] (Some 2%nat)) 2).
  - reflexivity.
  - lia.
Defined.

(** An interrupt while the menu loop prints its complaint, computed. *)
Lemma sigint_in_menu_complaint_ends (w : world) (line : string) (rest : list event) :
  stdin w = Line line :: rest -> sigint_at_print w = Some 4%nat ->
  menu_choice_of line = None ->
  process w
  = Some (match Py.int_of_string (Py.strip line) with
          | Some _ =>
              (Exited 1,
               mkWorld rest None
                 (stdout w ++ menu ++ [Prompted menu_prompt; Printed cancelled])
                 (log w ++ [(WARNING, "Menu selection interrupted")]))
          | None =>
              (Exited 0,
               mkWorld rest None
                 (stdout w ++ menu ++ [Prompted menu_prompt; Printed terminated])
                 (log w))
          end).
Proof.
  intros Hs Hsig Hc. unfold menu_choice_of in Hc.
  destruct w as [i sg o l]. cbn in Hs, Hsig. subst i sg. cbn [stdout log].
  destruct (Py.int_of_string (Py.strip line)) as [k |] eqn:Ek.
  - destruct ((1 <=? k)%Z && (k <=? 3)%Z)%bool eqn:Er; [discriminate|].
    apply (process_after_exit _ _ 1). apply run_loop_raise.
    unfold run_body. unfold bind at 1.
    cbv beta iota zeta delta [display_menu bind print write stdin sigint_at_print stdout log].
    unfold get_valid_menu_choice.
    rewrite (ShellFacts.loop_unroll _
               (fun w w' => ShellFacts.menu_choice_body_strict w None w')).
    cbv beta iota zeta delta [menu_choice_body try_except bind input int_ ret raise print
                              logger sys_exit write stdin sigint_at_print stdout log menu].
    rewrite Ek. cbv beta iota. rewrite Er. cbv beta iota.
    rewrite <- !app_assoc. reflexivity.
  - assert (E : run_loop (mkWorld (Line line :: rest) (Some 4%nat) o l)
                = Some (Raise KeyboardInterrupt,
                        mkWorld rest None (o ++ menu ++ [Prompted menu_prompt]) l)).
    { apply run_loop_raise. unfold run_body. unfold bind at 1.
      cbv beta iota zeta delta [display_menu bind print write stdin sigint_at_print stdout log].
      unfold get_valid_menu_choice.
      rewrite (ShellFacts.loop_unroll _
                 (fun w w' => ShellFacts.menu_choice_body_strict w None w')).
      cbv beta iota zeta delta [menu_choice_body try_except bind input int_ ret raise print
                                logger sys_exit write stdin sigint_at_print stdout log menu].
      rewrite Ek. cbv beta iota. rewrite <- !app_assoc. reflexivity. }
    pose proof (process_of_run_loop _ _ _ E eq_refl) as P. cbn beta iota in P.
    rewrite P. unfold write. cbn. rewrite <- !app_assoc. reflexivity.
Qed.

(** X10, for plain (ASCII) lines on standard input: an interrupt that
    arrives while the shell prints its complaint about a menu entry.  For a
    whole number outside 1..3 the complaint is printed inside the [try] of
    the input loop, whose handler ends the process with status 1; for an
    entry that is no number the complaint is printed in the
    [except ValueError] clause, the interrupt leaves the input loop and the
    handler of [run] ends the process with status 0. *)
Theorem interrupt_during_menu_complaint (w : world) (line : string) (rest : list event) :
  plain_input w = true ->
  stdin w = Line line :: rest -> sigint_at_print w = Some 4%nat ->
  menu_choice_of line = None ->
  process w
  = Some (match Py.int_of_string (Py.strip line) with
          | Some _ =>
              (Exited 1,
               mkWorld rest None
                 (stdout w ++ menu ++ [Prompted menu_prompt; Printed cancelled])
                 (log w ++ [(WARNING, "Menu selection interrupted")]))
          | None =>
              (Exited 0,
               mkWorld rest None
                 (stdout w ++ menu ++ [Prompted menu_prompt; Printed terminated])
                 (log w))
          end).
Proof. intros _. exact (sigint_in_menu_complaint_ends w line rest). Qed.

Lemma interrupt_during_menu_complaint_witness :
  process (session [Line "7"; Line "3"] (Some 4%nat))
  = Some (Exited 1,
          mkWorld [Line "3"] None (menu ++ [Prompted menu_prompt; Printed cancelled])
            [(WARNING, "Menu selection interrupted")]) /\
  process (session [Line "x"; Line "3"] (Some 4%nat))
  = Some (Exited 0,
          mkWorld [Line "3"] None (menu ++ [Prompted menu_prompt; Printed terminated]) []).
Proof.
  split.
  - exact (interrupt_during_menu_complaint (session [Line "7"; Line "3"] (Some 4%nat))
             "7" [Line "3"] eq_refl eq_refl eq_refl eq_refl).
  - exact (interrupt_during_menu_complaint (session [Line "x"; Line "3"] (Some 4%nat))
             "x" [Line "3"] eq_refl eq_refl eq_refl eq_refl).
Defined.

(* ================================================================== *)
(** * What the shell prints is the exact result *)
(* ================================================================== *)

(** ** Rounding to hundredths *)

Lemma round_half_even_near (p : Z) (q : positive) :
  (0 <= p)%Z ->
  (0 <= Py.round_half_even p q)%Z /\
  (2 * Z.abs (p - Py.round_half_even p q * Zpos q) <= Zpos q)%Z.
Proof.
  intros Hp. unfold Py.round_half_even.
  pose proof (Z_div_mod p (Zpos q) ltac:(lia)) as H.
  destruct (Z.div_eucl p (Zpos q)) as [d r]. destruct H as [Hd Hr].
  assert (Hd0 : (0 <= d)%Z) by nia.
  destruct (Z.compare_spec (2 * r) (Zpos q)) as [E | E | E];
    [destruct (Z.even d) | |]; split; try lia.
Qed.

Lemma round_half_even_odd (p : Z) (q : positive) :
  (0 <= p)%Z -> (Zpos q mod 2 = 1)%Z ->
  (2 * Z.abs (p - Py.round_half_even p q * Zpos q) <= Zpos q - 1)%Z.
Proof.
  intros Hp Hq. unfold Py.round_half_even.
  pose proof (Z_div_mod p (Zpos q) ltac:(lia)) as H.
  destruct (Z.div_eucl p (Zpos q)) as [d r]. destruct H as [Hd Hr].
  pose proof (Z.div_mod (Zpos q) 2 ltac:(lia)) as Hm. rewrite Hq in Hm.
  destruct (Z.compare_spec (2 * r) (Zpos q)) as [E | E | E]; lia.
Qed.

(** The number of hundredths that [format_2f] prints, and its distance from
    a hundred times the value. *)
Lemma format_2f_finite (s : bool) (m : positive) (e : Z) :
  exists J : Z,
    Py.format_2f (S754_finite s m e)
    = (Py.sign_str s ++ Py.str_nat (J / 100) ++ "." ++ Py.pad_left 2 (J mod 100))%string /\
    (inject_Z J - (1 # 2) <= 100 * Binary64.F2Q (Zpos m) e <= inject_Z J + (1 # 2))%Q.
Proof.
  destruct e as [| e | k].
  - exists (Zpos m * 100 * 2 ^ 0)%Z. split; [reflexivity|].
    unfold Binary64.F2Q. change (2 ^ 0)%Q with 1%Q. rewrite !inject_Z_mult.
    change (inject_Z (2 ^ 0)) with 1%Q. change (inject_Z 100) with 100%Q. lra.
  - exists (Zpos m * 100 * 2 ^ Zpos e)%Z. split; [reflexivity|].
    unfold Binary64.F2Q. rewrite (Binary64Facts.pow2_inject (Zpos e)) by lia.
    rewrite !inject_Z_mult. change (inject_Z 100) with 100%Q. lra.
  - exists (Py.round_half_even (Zpos m * 100) (Pos.pow 2 k)). split; [reflexivity|].
    destruct (round_half_even_near (Zpos m * 100) (Pos.pow 2 k) ltac:(lia)) as [HJ0 HJ].
    set (J := Py.round_half_even (Zpos m * 100) (2 ^ k)) in *.
    rewrite Pos2Z.inj_pow in HJ.
    assert (Hup : (2 * (Zpos m * 100) <= (2 * J + 1) * 2 ^ Zpos k)%Z) by lia.
    assert (Hlo : ((2 * J - 1) * 2 ^ Zpos k <= 2 * (Zpos m * 100))%Z) by lia.
    apply (Binary64Facts.F2Q_le _ _ (Zneg k)) in Hup, Hlo.
    pose proof (Binary64Facts.F2Q_shift (2 * J + 1) (Zneg k) (Zpos k) ltac:(lia)) as S1.
    pose proof (Binary64Facts.F2Q_shift (2 * J - 1) (Zneg k) (Zpos k) ltac:(lia)) as S2.
    rewrite <- S1 in Hup. rewrite <- S2 in Hlo.
    replace (Zneg k + Zpos k)%Z with 0%Z in Hup, Hlo by lia.
    unfold Binary64.F2Q in *. change (2 ^ 0)%Q with 1%Q in Hup, Hlo.
    rewrite !inject_Z_mult in Hup. rewrite !inject_Z_mult in Hlo.
    rewrite inject_Z_plus, inject_Z_mult in Hup.
    unfold Zminus in Hlo. rewrite inject_Z_plus, inject_Z_mult in Hlo.
    change (inject_Z 100) with 100%Q in *. change (inject_Z 2) with 2%Q in *.
    change (inject_Z 1) with 1%Q in *. change (inject_Z (- (1))) with (-1)%Q in *.
    lra.
Qed.

(** A finite float that is close to [p/q] hundredths, [q] odd and [p] not
    zero, prints as [p/q] rounded to whole hundredths. *)
Lemma format_2f_exact (x : float) (p : Z) (q : positive) :
  Binary64.is_finite x = true -> p <> 0%Z -> (Zpos q mod 2 = 1)%Z ->
  (Qabs (Binary64.to_Q x - (p # (100 * q))) < 1 # (200 * q))%Q ->
  Py.format_2f x = two_decimals p q.
Proof.
  intros Hf Hp Hq Hx. apply Qabs_Qlt_condition in Hx.
  set (eps := (1 # (200 * q))%Q) in *.
  set (B := (Z.abs p # (100 * q))%Q).
  assert (Heps : (0 < eps)%Q) by reflexivity.
  assert (HB : (2 * eps <= B)%Q).
  { unfold B, eps, Qle, Qmult. cbn [Qnum Qden]. rewrite !Pos2Z.inj_mul. nia. }
  assert (HpB : ((p # (100 * q)) == (if (p <? 0)%Z then - B else B))%Q).
  { unfold B. destruct (Z.ltb_spec p 0).
    - unfold Qeq, Qopp. cbn [Qnum Qden]. lia.
    - unfold Qeq. cbn [Qnum Qden]. lia. }
  unfold two_decimals.
  destruct (round_half_even_near (Z.abs p) q ltac:(lia)) as [HN0 _].
  pose proof (round_half_even_odd (Z.abs p) q ltac:(lia) Hq) as HN.
  set (N := Py.round_half_even (Z.abs p) q) in *.
  (* the distance of N from |p|/q, scaled like B *)
  assert (HNB : (inject_Z N - (1 # 2) + 100 * eps <= 100 * B
                 <= inject_Z N + (1 # 2) - 100 * eps)%Q).
  { assert (E1 : (100 * B == Z.abs p # q)%Q).
    { unfold B, Qeq, Qmult. cbn [Qnum Qden]. rewrite !Pos2Z.inj_mul. lia. }
    assert (E2 : (100 * eps == 1 # (2 * q))%Q).
    { unfold eps, Qeq, Qmult. cbn [Qnum Qden]. rewrite !Pos2Z.inj_mul. lia. }
    rewrite E1, E2. clearbody N. clear - HN HN0.
    cbv [Qle Qplus Qminus Qopp Qmult inject_Z Qnum Qden].
    rewrite !Pos2Z.inj_mul.
    revert HN. generalize (Z.abs p). intros P HN.
    assert (Hq : (0 < Zpos q)%Z) by lia. revert HN Hq. generalize (Zpos q). intros Q HN Hq.
    split; nia. }
  destruct x as [sx | sx | | sx m e]; try discriminate.
  - exfalso. cbn [Binary64.to_Q] in Hx. rewrite HpB in Hx.
    destruct (p <? 0)%Z; lra.
  - destruct (format_2f_finite sx m e) as [J [HJ HJX]]. rewrite HJ.
    pose proof (Binary64Facts.F2Q_pos m e) as HA.
    rewrite Binary64Facts.to_Q_finite, HpB in Hx.
    set (A := Binary64.F2Q (Zpos m) e) in *.
    assert (Hsign : sx = (p <? 0)%Z /\ (B - eps < A < B + eps)%Q).
    { destruct sx, (p <? 0)%Z; cbn [Binary64.sgnQ] in Hx; split; try reflexivity;
        try lra; exfalso; lra. }
    destruct Hsign as [-> HAB].
    assert (HJN : J = N).
    { assert (H1 : (inject_Z J - inject_Z N < 1)%Q) by lra.
      assert (H2 : (inject_Z N - inject_Z J < 1)%Q) by lra.
      unfold Qminus in H1, H2. rewrite <- inject_Z_opp, <- inject_Z_plus in H1, H2.
      change 1%Q with (inject_Z 1) in H1, H2. rewrite <- Zlt_Qlt in H1, H2. lia. }
    rewrite HJN. reflexivity.
Qed.

(** X11: the line printed for a Celsius value is exact.  When the value is
    accepted and is, up to 1e-9, the decimal [n/100] with [n] not zero, the
    line shows [n/100] and the exact Fahrenheit value [(9n + 16000)/500],
    each rounded to two decimals as a decimal number is: the rounding errors
    of the floating-point conversion never reach the print. *)
Theorem printed_celsius_line_is_exact (c : float) (n : Z) :
  Binary64.valid c = true -> Binary64.is_finite c = true ->
  validate_temperature c "C" = Ok tt ->
  n <> 0%Z ->
  (Qabs (Binary64.to_Q c - (n # 100)) <= 1 # 1000000000)%Q ->
  conversion_line 1 c
  = (two_decimals n 1 ++ "°C = " ++ two_decimals (9 * n + 16000) 5 ++ "°F")%string.
Proof.
  intros Hv Hf Hok Hn Hc.
  pose proof (accepted_celsius_bounded c Hv Hf Hok) as Hb.
  assert (F0 : Binary64.fin_exp c (-41)).
  { apply (Binary64Facts.fin_exp_le c (11 - 53)); [| lia].
    apply (RoundTrip.valid_fin_exp c 11); try assumption; [eval_pow2_goal; lra | lia]. }
  destruct (RoundTrip.c2f_error c F0 ltac:(lra)) as [Fr E].
  apply RoundTrip.fin_exp_finite in Fr.
  apply Qabs_Qle_condition in Hc.
  assert (Hp : ((9 * n + 16000 # 500) == (n # 100) * (9 # 5) + 32)%Q).
  { unfold Qeq, Qplus, Qmult. cbn [Qnum Qden]. lia. }
  unfold conversion_line. cbn [Z.eqb Pos.eqb].
  rewrite (format_2f_exact c n 1 Hf Hn eq_refl).
  - rewrite (format_2f_exact (celsius_to_fahrenheit c) (9 * n + 16000) 5 Fr ltac:(lia) eq_refl).
    + reflexivity.
    + change (100 * 5)%positive with 500%positive.
      change (200 * 5)%positive with 1000%positive.
      apply Qabs_Qlt_condition. rewrite Hp. lra.
  - change (100 * 1)%positive with 100%positive.
    change (200 * 1)%positive with 200%positive.
    apply Qabs_Qlt_condition. lra.
Qed.

(** 36.6 is no binary fraction; the line is that of 36.60 and 97.88. *)
Lemma printed_celsius_line_is_exact_witness :
  conversion_line 1 (literal "36.6") = "36.60°C = 97.88°F".
Proof.
  apply (printed_celsius_line_is_exact (literal "36.6") 3660).
  - reflexivity.
  - reflexivity.
  - reflexivity.
  - lia.
  - vm_compute. congruence.
Defined.

(** X12: the line printed for a Fahrenheit value is exact.  When the value
    is accepted and is, up to 1e-9, the decimal [n/100] with [n] neither zero
    nor 3200, the line shows [n/100] and the exact Celsius value
    [(5n - 16000)/900], each rounded to two decimals as a decimal number
    is. *)
Theorem printed_fahrenheit_line_is_exact (f : float) (n : Z) :
  Binary64.valid f = true -> Binary64.is_finite f = true ->
  validate_temperature f "F" = Ok tt ->
  n <> 0%Z -> n <> 3200%Z ->
  (Qabs (Binary64.to_Q f - (n # 100)) <= 1 # 1000000000)%Q ->
  conversion_line 2 f
  = (two_decimals n 1 ++ "°F = " ++ two_decimals (5 * n - 16000) 9 ++ "°C")%string.
Proof.
  intros Hv Hf Hok Hn Hn32 Hc.
  pose proof (accepted_fahrenheit_bounded f Hv Hf Hok) as Hb.
  assert (F0 : Binary64.fin_exp f (-40)).
  { apply (Binary64Facts.fin_exp_le f (12 - 53)); [| lia].
    apply (RoundTrip.valid_fin_exp f 12); try assumption; [eval_pow2_goal; lra | lia]. }
  destruct (RoundTrip.f2c_error f F0 ltac:(lra)) as [Fr E].
  apply RoundTrip.fin_exp_finite in Fr.
  apply Qabs_Qle_condition in Hc.
  assert (Hp : ((5 * n - 16000 # 900) == ((n # 100) - 32) * (5 # 9))%Q).
  { cbv [Qeq Qplus Qminus Qopp Qmult Qnum Qden]. lia. }
  unfold conversion_line. cbn [Z.eqb Pos.eqb].
  rewrite (format_2f_exact f n 1 Hf Hn eq_refl).
  - rewrite (format_2f_exact (fahrenheit_to_celsius f) (5 * n - 16000) 9 Fr ltac:(lia) eq_refl).
    + reflexivity.
    + change (100 * 9)%positive with 900%positive.
      change (200 * 9)%positive with 1800%positive.
      apply Qabs_Qlt_condition. rewrite Hp. lra.
  - change (100 * 1)%positive with 100%positive.
    change (200 * 1)%positive with 200%positive.
    apply Qabs_Qlt_condition. lra.
Qed.

(** 98.6 is no binary fraction; the line is that of 98.60 and 37.00. *)
Lemma printed_fahrenheit_line_is_exact_witness :
  conversion_line 2 (literal "98.6") = "98.60°F = 37.00°C".
Proof.
  apply (printed_fahrenheit_line_is_exact (literal "98.6") 9860).
  - reflexivity.
  - reflexivity.
  - reflexivity.
  - lia.
  - lia.
  - vm_compute. congruence.
Defined.

(* ================================================================== *)
(** * Accepted values, and a value that is no number *)
(* ================================================================== *)

(** X13: a finite Celsius value that [validate_temperature] accepts is
    converted without overflow: the Fahrenheit value is finite and within
    2e-12 of the exact one, and converting it back gives a finite value
    within 1e-11 of the value typed. *)
Theorem accepted_celsius_is_converted_safely (c : float) :
  Binary64.valid c = true -> Binary64.is_finite c = true ->
  validate_temperature c "C" = Ok tt ->
  Binary64.is_finite (celsius_to_fahrenheit c) = true /\
  (Qabs (Binary64.to_Q (celsius_to_fahrenheit c) - (Binary64.to_Q c * (9 # 5) + 32))
   <= 1 # 500000000000)%Q /\
  Binary64.is_finite (fahrenheit_to_celsius (celsius_to_fahrenheit c)) = true /\
  (Qabs (Binary64.to_Q (fahrenheit_to_celsius (celsius_to_fahrenheit c)) - Binary64.to_Q c)
   <= 1 # 100000000000)%Q.
Proof.
  intros Hv Hf Hok. pose proof (accepted_celsius_bounded c Hv Hf Hok) as Hb.
  assert (F0 : Binary64.fin_exp c (-41)).
  { apply (Binary64Facts.fin_exp_le c (11 - 53)); [| lia].
    apply (RoundTrip.valid_fin_exp c 11); try assumption; [eval_pow2_goal; lra | lia]. }
  destruct (RoundTrip.c2f_error c F0 ltac:(lra)) as [Fr E].
  destruct (RoundTrip.c2f_f2c_error c Hv Hf ltac:(lra)) as [Fb Eb].
  split; [exact (RoundTrip.fin_exp_finite _ _ Fr)|].
  split; [apply Qabs_Qle_condition; lra|].
  split; [exact Fb|]. apply Qabs_Qle_condition. lra.
Qed.

Lemma accepted_celsius_is_converted_safely_witness :
  let c := literal "-273.15" in
  Binary64.is_finite (celsius_to_fahrenheit c) = true /\
  (Qabs (Binary64.to_Q (celsius_to_fahrenheit c) - (Binary64.to_Q c * (9 # 5) + 32))
   <= 1 # 500000000000)%Q /\
  Binary64.is_finite (fahrenheit_to_celsius (celsius_to_fahrenheit c)) = true /\
  (Qabs (Binary64.to_Q (fahrenheit_to_celsius (celsius_to_fahrenheit c)) - Binary64.to_Q c)
   <= 1 # 100000000000)%Q.
Proof.
  apply (accepted_celsius_is_converted_safely (literal "-273.15")); reflexivity.
Defined.

(** X14: a finite Fahrenheit value that [validate_temperature] accepts is
    converted without overflow: the Celsius value is finite and within 1e-12
    of the exact one, and converting it back gives a finite value within
    1e-11 of the value typed. *)
Theorem accepted_fahrenheit_is_converted_safely (f : float) :
  Binary64.valid f = true -> Binary64.is_finite f = true ->
  validate_temperature f "F" = Ok tt ->
  Binary64.is_finite (fahrenheit_to_celsius f) = true /\
  (Qabs (Binary64.to_Q (fahrenheit_to_celsius f) - (Binary64.to_Q f - 32) * (5 # 9))
   <= 1 # 1000000000000)%Q /\
  Binary64.is_finite (celsius_to_fahrenheit (fahrenheit_to_celsius f)) = true /\
  (Qabs (Binary64.to_Q (celsius_to_fahrenheit (fahrenheit_to_celsius f)) - Binary64.to_Q f)
   <= 1 # 100000000000)%Q.
Proof.
  intros Hv Hf Hok. pose proof (accepted_fahrenheit_bounded f Hv Hf Hok) as Hb.
  assert (F0 : Binary64.fin_exp f (-40)).
  { apply (Binary64Facts.fin_exp_le f (12 - 53)); [| lia].
    apply (RoundTrip.valid_fin_exp f 12); try assumption; [eval_pow2_goal; lra | lia]. }
  destruct (RoundTrip.f2c_error f F0 ltac:(lra)) as [Fr E].
  destruct (RoundTrip.f2c_c2f_error f Hv Hf ltac:(lra)) as [Fb Eb].
  split; [exact (RoundTrip.fin_exp_finite _ _ Fr)|].
  split; [apply Qabs_Qle_condition; lra|].
  split; [exact Fb|]. apply Qabs_Qle_condition. lra.
Qed.

Lemma accepted_fahrenheit_is_converted_safely_witness :
  let f := literal "1832" in
  Binary64.is_finite (fahrenheit_to_celsius f) = true /\
  (Qabs (Binary64.to_Q (fahrenheit_to_celsius f) - (Binary64.to_Q f - 32) * (5 # 9))
   <= 1 # 1000000000000)%Q /\
  Binary64.is_finite (celsius_to_fahrenheit (fahrenheit_to_celsius f)) = true /\
  (Qabs (Binary64.to_Q (celsius_to_fahrenheit (fahrenheit_to_celsius f)) - Binary64.to_Q f)
   <= 1 # 100000000000)%Q.
Proof.
  apply (accepted_fahrenheit_is_converted_safely (literal "1832")); reflexivity.
Defined.

(** X15: a value that is no number is converted.  When a conversion is
    chosen and the line typed for the value is read by [float] as a NaN,
    [validate_temperature] lets it through, and the turn prints and logs the
    conversion of nan to nan as it would a temperature. *)
Theorem not_a_number_is_converted
    (w : world) (choice_line value_line : string) (rest : list event) (c : Z) :
  stdin w = Line choice_line :: Line value_line :: rest ->
  sigint_at_print w = None ->
  menu_choice_of choice_line = Some c -> c <> 3 ->
  Py.float_of_string (Py.strip value_line) = Some S754_nan ->
  run_body w
  = Some (Ok None,
          extend w rest
            (menu ++ [Prompted menu_prompt; Prompted (numeric_prompt c);
                      Printed (if (c =? 1)%Z then "nan°C = nan°F" else "nan°F = nan°C")])
            [(INFO, if (c =? 1)%Z then "Converted nan°C to nan°F"
                    else "Converted nan°F to nan°C")]).
Proof.
  intros Hs Hsig Hc Hc3 Hv.
  rewrite (conversion_turn w [] [] choice_line value_line rest c S754_nan
             Hs Hsig (Forall_nil _) Hc Hc3 (Forall_nil _) Hv
             (validate_temperature_nan (scale_of c))).
  apply menu_choice_of_range in Hc.
  destruct Hc as [-> | [-> | ->]]; [| | contradiction]; reflexivity.
Qed.

Lemma not_a_number_is_converted_witness :
  run_body (typed ["1"; "nan"; "3"])
  = Some (Ok None,
          extend (typed ["1"; "nan"; "3"]) [Line "3"]
            (menu ++ [Prompted menu_prompt; Prompted "Enter temperature in Celsius: ";
                      Printed "nan°C = nan°F"])
            [(INFO, "Converted nan°C to nan°F")]).
Proof.
  apply (not_a_number_is_converted (typed ["1"; "nan"; "3"]) "1" "nan" [Line "3"] 1).
  - reflexivity.
  - reflexivity.
  - reflexivity.
  - lia.
  - reflexivity.
Defined.

(* ================================================================== *)
(** * The exit status *)
(* ================================================================== *)

(** An interrupt while the numeric loop prints its complaint, computed: the
    complaint is printed in the [except ValueError] clause, the interrupt
    leaves the input loop, passes the handlers of the inner [try] of [run],
    which catch [Exception] only, and is caught by the handler of [run]. *)
Lemma sigint_in_numeric_complaint_ends
    (w : world) (choice_line line : string) (rest : list event) (c : Z) :
  stdin w = Line choice_line :: Line line :: rest -> sigint_at_print w = Some 4%nat ->
  menu_choice_of choice_line = Some c -> c <> 3 ->
  Py.float_of_string (Py.strip line) = None ->
  process w
  = Some (Exited 0,
          mkWorld rest None
            (stdout w ++ menu ++ [Prompted menu_prompt; Prompted (numeric_prompt c);
                                  Printed terminated])
            (log w)).
Proof.
  intros Hs Hsig Hc Hc3 Hv.
  destruct w as [i sg o l]. cbn in Hs, Hsig. subst i sg. cbn [stdout log].
  assert (E : run_loop (mkWorld (Line choice_line :: Line line :: rest) (Some 4%nat) o l)
              = Some (Raise KeyboardInterrupt,
                      mkWorld rest None
                        (o ++ menu ++ [Prompted menu_prompt; Prompted (numeric_prompt c)]) l)).
  { apply run_loop_raise. unfold run_body. unfold bind at 1.
    cbv beta iota zeta delta [display_menu bind print write stdin sigint_at_print stdout log].
    unfold get_valid_menu_choice.
    rewrite (ShellFacts.loop_unroll _
               (fun w w' => ShellFacts.menu_choice_body_strict w None w')).
    match goal with
    | |- context [menu_choice_body ?w0] =>
        pose proof (ShellFacts.menu_choice_body_cases w0) as H
    end.
    cbn [stdin] in H. rewrite Hc in H. rewrite H. clear H.
    apply menu_choice_of_range in Hc.
    assert (H3 : (c =? 3)%Z = false) by (apply Z.eqb_neq; exact Hc3).
    rewrite H3. unfold try_except, convert.
    destruct Hc as [-> | [-> | ->]]; [| | contradiction]; cbn [Z.eqb Pos.eqb];
      unfold bind at 1; unfold bind at 1; unfold get_valid_numeric_input;
      match goal with
      | |- context [with_fuel (while_true (numeric_input_body ?p))] =>
          rewrite (ShellFacts.loop_unroll _
                     (fun w w' => ShellFacts.numeric_input_body_strict p w None w'))
      end;
      cbv beta iota zeta delta [numeric_input_body try_except bind input float_ ret raise
                                print logger sys_exit write extend stdin sigint_at_print
                                stdout log menu];
      rewrite Hv; cbv beta iota; cbn [conversion_handler is_Exception numeric_prompt
                                      Z.eqb Pos.eqb];
      rewrite <- ?app_assoc, ?app_nil_r; reflexivity. }
  pose proof (process_of_run_loop _ _ _ E eq_refl) as P. cbn beta iota in P.
  rewrite P. unfold write. cbn. rewrite <- !app_assoc. reflexivity.
Qed.

(** The logging set-up runs outside the [try] of [main]. *)
Lemma start_up_fails (basic_config : M unit) (w : world) (e : exn) (w1 : world) :
  basic_config w = Some (Raise e, w1) -> is_Exception e = true ->
  process_from basic_config w = Some (Exited 1, w1).
Proof.
  intros E He. unfold process_from, main_with_logging, bind. rewrite E.
  destruct e; try discriminate; reflexivity.
Qed.

Lemma start_up_succeeds (basic_config : M unit) (w w1 : world) :
  basic_config w = Some (Ok tt, w1) -> process_from basic_config w = process w1.
Proof.
  intros E. unfold process_from, main_with_logging, bind, process. rewrite E. reflexivity.
Qed.

(** C8, as the program has it.  The process always ends, with status 0 or
    1, and the status follows from the way the loop of [run] ends.
    Status 0: the goodbye of choice 3, and every interrupt that reaches the
    handler of [run]: one that arrives while the menu is printed, or while
    an input loop prints its complaint about an entry that is no number,
    which it does in its [except ValueError] clause.  Status 1: Ctrl-C while
    an input loop waits at its prompt, an interrupt while the menu loop
    prints its complaint about a number outside 1..3, which it does inside
    its [try]; any other error that leaves [run], which [main] logs; and an
    error of the logging set-up, which runs before the [try] of [main] and
    is logged nowhere.  Statements about lines that are refused are for
    plain (ASCII) lines. *)
Theorem exit_code_policy (w : world) :
  (exists st w', process w = Some (st, w') /\ (st = Exited 0 \/ st = Exited 1)) /\
  (forall r w1,
      run_loop w = Some (r, w1) ->
      match r with
      | Ok _ =>
          List.last (stdout w1) (Prompted "") = Printed goodbye /\
          process w = Some (Exited 0, w1)
      | Raise KeyboardInterrupt =>
          process w = Some (Exited 0, write (Printed terminated) w1)
      | Raise (SystemExit code) =>
          List.last (stdout w1) (Prompted "") = Printed cancelled /\
          process w = Some (Exited 1, w1)
      | Raise e =>
          process w
          = Some (Exited 1,
                  extend w1 (stdin w1) []
                    [(CRITICAL, ("Critical error in application: " ++ exn_str e)%string)])
      end) /\
  (forall rest prompt,
      stdin w = CtrlC :: rest -> sigint_at_print w = None ->
      get_valid_menu_choice w
      = Some (Raise (SystemExit 1),
              extend w rest [Prompted menu_prompt; Printed cancelled]
                [(WARNING, "Menu selection interrupted")]) /\
      get_valid_numeric_input prompt w
      = Some (Raise (SystemExit 1),
              extend w rest [Prompted prompt; Printed cancelled]
                [(WARNING, "Input interrupted by user")])) /\
  (forall (bad_choices : list string) (choice_line : string) (rest : list event),
      plain_input w = true ->
      stdin w = List.map Line bad_choices ++ Line choice_line :: rest ->
      sigint_at_print w = None ->
      Forall (fun t => menu_choice_of t = None) bad_choices ->
      menu_choice_of choice_line = Some 3 ->
      process w
      = Some (Exited 0,
              extend w rest
                (menu ++ List.concat (List.map menu_retry bad_choices)
                 ++ [Prompted menu_prompt; Printed goodbye]) [])) /\
  (forall (bad_choices : list string) (rest : list event),
      plain_input w = true ->
      stdin w = List.map Line bad_choices ++ CtrlC :: rest ->
      sigint_at_print w = None ->
      Forall (fun t => menu_choice_of t = None) bad_choices ->
      process w
      = Some (Exited 1,
              extend w rest
                (menu ++ List.concat (List.map menu_retry bad_choices)
                 ++ [Prompted menu_prompt; Printed cancelled])
                [(WARNING, "Menu selection interrupted")])) /\
  (forall (bad_choices bad_values : list string) (choice_line : string) (c : Z)
          (rest : list event),
      plain_input w = true ->
      stdin w = List.map Line bad_choices ++ Line choice_line
                :: List.map Line bad_values ++ CtrlC :: rest ->
      sigint_at_print w = None ->
      Forall (fun t => menu_choice_of t = None) bad_choices ->
      menu_choice_of choice_line = Some c -> c <> 3 ->
      Forall (fun t => Py.float_of_string (Py.strip t) = None) bad_values ->
      process w
      = Some (Exited 1,
              extend w rest
                (menu ++ List.concat (List.map menu_retry bad_choices)
                 ++ [Prompted menu_prompt]
                 ++ List.concat (List.map (fun _ => numeric_retry (numeric_prompt c))
                                   bad_values)
                 ++ [Prompted (numeric_prompt c); Printed cancelled])
                [(WARNING, "Input interrupted by user")])) /\
  (forall n : nat,
      sigint_at_print w = Some n -> (n < 4)%nat ->
      process w
      = Some (Exited 0,
              mkWorld (stdin w) None
                (stdout w ++ List.firstn n menu ++ [Printed terminated]) (log w))) /\
  (forall (line : string) (rest : list event),
      plain_input w = true ->
      stdin w = Line line :: rest -> sigint_at_print w = Some 4%nat ->
      menu_choice_of line = None ->
      process w
      = Some (match Py.int_of_string (Py.strip line) with
              | Some _ =>
                  (Exited 1,
                   mkWorld rest None
                     (stdout w ++ menu ++ [Prompted menu_prompt; Printed cancelled])
                     (log w ++ [(WARNING, "Menu selection interrupted")]))
              | None =>
                  (Exited 0,
                   mkWorld rest None
                     (stdout w ++ menu ++ [Prompted menu_prompt; Printed terminated])
                     (log w))
              end)) /\
  (forall (choice_line line : string) (rest : list event) (c : Z),
      plain_input w = true ->
      stdin w = Line choice_line :: Line line :: rest ->
      sigint_at_print w = Some 4%nat ->
      menu_choice_of choice_line = Some c -> c <> 3 ->
      Py.float_of_string (Py.strip line) = None ->
      process w
      = Some (Exited 0,
              mkWorld rest None
                (stdout w ++ menu ++ [Prompted menu_prompt; Prompted (numeric_prompt c);
                                      Printed terminated])
                (log w))) /\
  (forall bad_choices : list string,
      plain_input w = true ->
      stdin w = List.map Line bad_choices -> sigint_at_print w = None ->
      Forall (fun t => menu_choice_of t = None) bad_choices ->
      process w
      = Some (Exited 1,
              extend w []
                (menu ++ List.concat (List.map menu_retry bad_choices)
                 ++ [Prompted menu_prompt])
                [(CRITICAL, "Critical error in application: EOF when reading a line")])) /\
  (forall (basic_config : M unit) (e : exn) (w1 : world),
      basic_config w = Some (Raise e, w1) -> is_Exception e = true ->
      process_from basic_config w = Some (Exited 1, w1)) /\
  (forall (basic_config : M unit) (w1 : world),
      basic_config w = Some (Ok tt, w1) ->
      process_from basic_config w = process w1).
Proof.
  split; [apply process_terminates|].
  split.
  { intros r w1 E.
    pose proof (proj2 ShellFacts.good_run_loop w r w1 E) as [_ Hok].
    pose proof (process_of_run_loop w r w1 E Hok) as P.
    destruct r as [[] | e].
    - split; [apply (ShellFacts.run_loop_goodbye w w1 E) | exact P].
    - destruct e; try exact P. cbn in Hok. destruct Hok as [-> Hl]. split; assumption. }
  split.
  { intros rest prompt Hs Hsig. split.
    - exact (menu_loop_ctrl_c w rest Hs Hsig).
    - exact (numeric_loop_ctrl_c prompt w rest Hs Hsig). }
  split.
  { intros bad_choices choice_line rest _ Hs Hsig Hbc Hc.
    exact (proj2 (choice_3_ends w bad_choices choice_line rest Hs Hsig Hbc Hc)). }
  split; [intros bad_choices rest _; apply ctrl_c_at_menu_ends|].
  split; [intros bad_choices bad_values choice_line c rest _; apply ctrl_c_at_value_ends|].
  split; [intros n; apply sigint_in_menu_ends|].
  split; [intros line rest _; apply sigint_in_menu_complaint_ends|].
  split; [intros choice_line line rest c _; apply sigint_in_numeric_complaint_ends|].
  split; [intros bad_choices _; apply eof_at_menu_ends|].
  split; [intros basic_config e w1; apply start_up_fails|].
  intros basic_config w1. apply start_up_succeeds.
Qed.

(** Ctrl-C at the first prompt ends the process with status 1; "3" ends it
    with status 0; a log file that cannot be opened ends it with status 1
    before anything is printed. *)
Lemma exit_code_policy_witness :
  process (session [CtrlC] None)
  = Some (Exited 1,
          mkWorld [] None (menu ++ [Prompted menu_prompt; Printed cancelled])
            [(WARNING, "Menu selection interrupted")]) /\
  process (typed ["3"])
  = Some (Exited 0,
          mkWorld [] None (menu ++ [Prompted menu_prompt; Printed goodbye]) []) /\
  process_from (raise EOFError) (typed ["3"]) = Some (Exited 1, typed ["3"]).
Proof.
  split; [| split].
  - destruct (exit_code_policy (session [CtrlC] None)) as (_ & _ & _ & _ & H & _).
    exact (H [] [] eq_refl eq_refl eq_refl (Forall_nil _)).
  - destruct (exit_code_policy (typed ["3"])) as (_ & _ & _ & H & _).
    exact (H [] "3" [] eq_refl eq_refl eq_refl (Forall_nil _) eq_refl).
  - destruct (exit_code_policy (typed ["3"])) as (_ & _ & _ & _ & _ & _ & _ & _ & _ & _ & H & _).
    exact (H (raise EOFError) EOFError (typed ["3"]) eq_refl eq_refl).
Defined.

(** An interrupt raised inside an input loop that ends the process with
    status 0: it arrives while the loop prints its complaint about an entry
    that is no number.  The loop itself raises [KeyboardInterrupt], and the
    handler of [run] ends the process. *)
Lemma exit_code_policy_counterexample :
  get_valid_menu_choice (session [Line "abc"; Line "3"] (Some 0%nat))
  = Some (Raise KeyboardInterrupt,
          mkWorld [Line "3"] None [Prompted menu_prompt] []) /\
  process (session [Line "abc"; Line "3"] (Some 4%nat))
  = Some (Exited 0,
          mkWorld [Line "3"] None (menu ++ [Prompted menu_prompt; Printed terminated]) []) /\
  get_valid_numeric_input "Enter temperature in Celsius: "
    (session [Line "abc"; Line "3"] (Some 0%nat))
  = Some (Raise KeyboardInterrupt,
          mkWorld [Line "3"] None [Prompted "Enter temperature in Celsius: "] []) /\
  process (session [Line "1"; Line "abc"; Line "3"] (Some 4%nat))
  = Some (Exited 0,
          mkWorld [Line "3"] None
            (menu ++ [Prompted menu_prompt; Prompted "Enter temperature in Celsius: ";
                      Printed terminated]) []).
Proof. repeat split; vm_compute; reflexivity. Qed.
